(** * Project-management server: authorization, membership and cascades

    A shallow embedding of the Express/Mongoose backend: the document
    models, the route guards of middleware/projectMiddleware.js, the
    project and issue controllers, and the route tables that chain a guard
    in front of each controller.  A handler is a function from the document
    store and the request to a reply and the store afterwards.

    Conventions.  Collections are lists in insertion order.  What a handler
    draws from its environment is an argument of the handler: the id of a
    new document, the random invite token, the clock in milliseconds, and
    whether the mail transport delivered.  Handlers that only read (the
    listings and the statistics) write nothing and are left out, and so is
    the comment controller; comments and attachments appear as the
    collections that issue deletion cascades to. *)

From Stdlib Require Import List String Ascii ZArith Bool Arith Lia DecimalString.
Import ListNotations.
Open Scope string_scope.
Open Scope list_scope.

(** An [ObjectId] is identified with its [toString()] rendering, the form in
    which every handler compares ids ([a.toString() === b.toString()]). *)
Definition ObjectId := string.

(** ** JavaScript values and array methods *)
Module Js.

(** A request-body field that the code tests for presence: absent, [null],
    or a string. *)
Inductive value :=
| undefined
| null
| str (s : string).

(** [if (v)]: [undefined], [null] and the empty string are falsy. *)
Definition truthy (v : value) : bool :=
  match v with
  | str s => negb (s =? "")
  | _ => false
  end.

(** [a || b] *)
Definition or (a b : value) : value := if truthy a then a else b.

(** [a || b] for a text field; the empty string also stands for an absent
    field, both being falsy. *)
Definition strOr (a b : string) : string := if a =? "" then b else a.

(** [Array.prototype.some], [find], [filter], [includes] over strings. *)
Definition some {A} (f : A -> bool) (l : list A) : bool := existsb f l.
Definition find {A} (f : A -> bool) (l : list A) : option A := List.find f l.
Definition filter {A} (f : A -> bool) (l : list A) : list A := List.filter f l.
Definition includes (l : list string) (s : string) : bool := existsb (String.eqb s) l.

(** [findIndex]: the index of the first match, [None] for [-1]. *)
Fixpoint findIndex {A} (f : A -> bool) (l : list A) : option nat :=
  match l with
  | [] => None
  | x :: r => if f x then Some 0 else option_map S (findIndex f r)
  end.

(** [l.splice(i, 1)] *)
Fixpoint splice1 {A} (i : nat) (l : list A) : list A :=
  match l, i with
  | [], _ => []
  | _ :: r, 0 => r
  | x :: r, S j => x :: splice1 j r
  end.

(** [push] and [unshift] *)
Definition push {A} (l : list A) (x : A) : list A := l ++ [x].
Definition unshift {A} (l : list A) (x : A) : list A := x :: l.

(** [String.prototype.toUpperCase] on ASCII text: the letters a to z are
    mapped, every other ASCII character is kept.  Outside ASCII the
    built-in follows the Unicode case mapping, which is not modelled: what
    is proved of the upper-case form of a key that a request brings is
    proved for keys of ASCII characters ([isAscii]). *)
Definition upper (c : ascii) : ascii :=
  let n := nat_of_ascii c in
  if Nat.leb 97 n && Nat.leb n 122 then ascii_of_nat (n - 32) else c.

Fixpoint toUpperCase (s : string) : string :=
  match s with
  | EmptyString => EmptyString
  | String c r => String (upper c) (toUpperCase r)
  end.

(** Text of ASCII characters only. *)
Definition isAscii (s : string) : bool :=
  forallb (fun c => Nat.ltb (nat_of_ascii c) 128) (list_ascii_of_string s).

(** [s === v] for a string [s] and a body field [v]. *)
Definition eqStr (s : string) (v : value) : bool :=
  match v with
  | str t => s =? t
  | _ => false
  end.

(** A count interpolated in a template literal. *)
Definition numToString (n : nat) : string :=
  NilEmpty.string_of_uint (Nat.to_uint n).

End Js.

(** ** Documents (the Mongoose models) *)

(** Mongoose casts a value assigned to an ObjectId path when the document
    is saved: [undefined] and [null] leave the path empty; a string must be
    the rendering of an id, which the empty string is not (the save is then
    rejected with a CastError).  The handlers cast only a string that is
    empty or that passed the membership test, hence equals a stored id. *)
Definition castObjectId (v : Js.value) : option (option ObjectId) :=
  match v with
  | Js.undefined => Some None
  | Js.null => Some None
  | Js.str s => if s =? "" then None else Some (Some s)
  end.

Module User.
Record t := mk { _id : ObjectId; email : string; role : string }.

(** [User.findOne({ email })] *)
Definition findOne (c : list t) (e : string) : option t :=
  List.find (fun u => email u =? e) c.
End User.

Module Invite.
(** An element of [pendingInvites]. *)
Record t := mk {
  email : string;
  role : string;
  invitedBy : ObjectId;
  token : string;
  expiresAt : Z
}.
Definition roles : list string := ["manager"; "developer"; "viewer"].
End Invite.

Module Project.
(** The schema with [owner] and the pre-save hook.  [settings] is never
    read or written by a handler and is left out. *)
Record t := mk {
  _id : ObjectId;
  name : string;
  description : string;
  key : string;
  owner : ObjectId;
  member : list ObjectId;
  pendingInvites : list Invite.t
}.

Definition with_member (m : list ObjectId) (p : t) : t :=
  mk (_id p) (name p) (description p) (key p) (owner p) m (pendingInvites p).
Definition with_pendingInvites (i : list Invite.t) (p : t) : t :=
  mk (_id p) (name p) (description p) (key p) (owner p) (member p) i.
Definition with_text (n d k : string) (p : t) : t :=
  mk (_id p) n d k (owner p) (member p) (pendingInvites p).

(** [ProjectSchema.pre("save")]: ensure owner is always a member.  The
    owner is an ObjectId object, hence truthy. *)
Definition preSave (p : t) : t :=
  if negb (Js.includes (member p) (owner p))
  then with_member (Js.unshift (member p) (owner p)) p
  else p.

(** Schema validation run by [save]: required texts and the role enum. *)
Definition validate (p : t) : bool :=
  negb (name p =? "") && negb (description p =? "") && negb (key p =? "")
  && forallb (fun i => Js.includes Invite.roles (Invite.role i)) (pendingInvites p).

(** [Project.findById(id)] *)
Definition findById (c : list t) (id : ObjectId) : option t :=
  List.find (fun p => _id p =? id) c.

(** [Project.findOne({ key })] *)
Definition findOneByKey (c : list t) (k : string) : option t :=
  List.find (fun p => key p =? k) c.

(** [Project.findOne({ "pendingInvites.token": token,
    "pendingInvites.expiresAt": { $gt: now } })].  Each dotted condition on
    an array path holds when some element satisfies it; the two conditions
    need not be met by the same element. *)
Definition findOneByInvite (c : list t) (tok : string) (now : Z) : option t :=
  List.find
    (fun p => existsb (fun i => Invite.token i =? tok) (pendingInvites p)
              && existsb (fun i => (now <? Invite.expiresAt i)%Z) (pendingInvites p))
    c.

(** [project.save()]: validation, then the pre-save hook, then the write of
    the document under its [_id].  [None] is a rejected save. *)
Definition save (c : list t) (p : t) : option (t * list t) :=
  if validate p then
    let p' := preSave p in
    Some (p', map (fun d => if _id d =? _id p' then p' else d) c)
  else None.

(** [Project.create(doc)]: a save of a new document; the unique indexes on
    [_id] and [key] reject a duplicate. *)
Definition create (c : list t) (p : t) : option (t * list t) :=
  if validate p
     && negb (existsb (fun d => _id d =? _id p) c)
     && negb (existsb (fun d => key d =? key p) c)
  then let p' := preSave p in Some (p', c ++ [p'])
  else None.

(** [Project.findByIdAndDelete(id)] *)
Definition findByIdAndDelete (c : list t) (id : ObjectId) : list t :=
  List.filter (fun d => negb (_id d =? id)) c.
End Project.

Module Issue.
Record t := mk {
  _id : ObjectId;
  key : string;
  title : string;
  description : string;
  status : string;
  priority : string;
  reporter : ObjectId;
  assignee : option ObjectId;
  projectId : ObjectId;
  tags : list string;
  dueDate : option Z;
  attachments : list ObjectId;
  comments : list ObjectId
}.

Definition statuses : list string := ["todo"; "inprogress"; "done"].
Definition priorities : list string := ["low"; "medium"; "high"; "urgent"].

Definition with_status (s : string) (i : t) : t :=
  mk (_id i) (key i) (title i) (description i) s (priority i) (reporter i)
     (assignee i) (projectId i) (tags i) (dueDate i) (attachments i) (comments i).
Definition with_assignee (a : option ObjectId) (i : t) : t :=
  mk (_id i) (key i) (title i) (description i) (status i) (priority i) (reporter i)
     a (projectId i) (tags i) (dueDate i) (attachments i) (comments i).

(** Schema validation run by [save] and [create]: required texts and the
    two enums. *)
Definition validate (i : t) : bool :=
  negb (key i =? "") && negb (title i =? "") && negb (description i =? "")
  && Js.includes statuses (status i) && Js.includes priorities (priority i).

(** [Issue.findById(id)] *)
Definition findById (c : list t) (id : ObjectId) : option t :=
  List.find (fun i => _id i =? id) c.

(** [Issue.countDocuments({ projectId })] *)
Definition countDocuments (c : list t) (pid : ObjectId) : nat :=
  List.length (List.filter (fun i => projectId i =? pid) c).

(** [issue.save()] *)
Definition save (c : list t) (i : t) : option (t * list t) :=
  if validate i
  then Some (i, map (fun d => if _id d =? _id i then i else d) c)
  else None.

(** [Issue.create(doc)]: the unique indexes on [_id] and [key] reject a
    duplicate. *)
Definition create (c : list t) (i : t) : option (t * list t) :=
  if validate i
     && negb (existsb (fun d => _id d =? _id i) c)
     && negb (existsb (fun d => key d =? key i) c)
  then Some (i, c ++ [i])
  else None.

(** [Issue.deleteMany({ projectId })] *)
Definition deleteMany (c : list t) (pid : ObjectId) : list t :=
  List.filter (fun i => negb (projectId i =? pid)) c.

(** [Issue.findByIdAndDelete(id)] *)
Definition findByIdAndDelete (c : list t) (id : ObjectId) : list t :=
  List.filter (fun i => negb (_id i =? id)) c.
End Issue.

Module Comment.
Record t := mk {
  _id : ObjectId;
  content : string;
  author : ObjectId;
  issueId : ObjectId;
  attachment : list ObjectId
}.

(** [Comment.deleteMany({ issueId })] *)
Definition deleteMany (c : list t) (iid : ObjectId) : list t :=
  List.filter (fun d => negb (issueId d =? iid)) c.
End Comment.

Module Attachment.
Record t := mk {
  _id : ObjectId;
  url : string;
  publicId : string;
  uploadedBy : ObjectId
}.

(** [Attachment.deleteMany({ _id: { $in: ids } })] *)
Definition deleteMany (c : list t) (ids : list ObjectId) : list t :=
  List.filter (fun d => negb (Js.includes ids (_id d))) c.
End Attachment.


(** ** The document store *)

Record Store := mkStore {
  users : list User.t;
  projects : list Project.t;
  issues : list Issue.t;
  comments : list Comment.t;
  attachments : list Attachment.t
}.

Definition emptyStore : Store := mkStore [] [] [] [] [].

Definition setProjects (l : list Project.t) (st : Store) : Store :=
  mkStore (users st) l (issues st) (comments st) (attachments st).
Definition setIssues (l : list Issue.t) (st : Store) : Store :=
  mkStore (users st) (projects st) l (comments st) (attachments st).
Definition setComments (l : list Comment.t) (st : Store) : Store :=
  mkStore (users st) (projects st) (issues st) l (attachments st).
Definition setAttachments (l : list Attachment.t) (st : Store) : Store :=
  mkStore (users st) (projects st) (issues st) (comments st) l.

(** ** Replies

    A handler either sends a JSON body or sets a status and throws; the
    error boundary renders a throw with no status set as a 500. *)

Inductive Status := OK | Created | BadRequest | Forbidden | NotFound | ServerError.

Inductive Body :=
| message (s : string)
| projectData (p : Project.t)
| issueData (i : Issue.t).

Inductive Reply :=
| json (s : Status) (b : Body)
| throw (s : Status) (m : string).

Definition succeeded (r : Reply) : bool :=
  match r with
  | json _ _ => true
  | throw _ _ => false
  end.

(** A query result that is a document rather than [null]. *)
Definition found {A} (o : option A) : bool :=
  match o with
  | Some _ => true
  | None => false
  end.

(** A route guard calls [next()] or throws. *)
Inductive Guard :=
| next
| denied (s : Status) (m : string).

Inductive Method := GET | POST | PUT | DELETE.

Definition isMember (project : Project.t) (user : User.t) : bool :=
  Js.some (fun member => member =? User._id user) (Project.member project).

(** ** Route guards (middleware/projectMiddleware.js)

    [req.user] is the user resolved by the authentication middleware. *)

Definition checkProjectOwner (st : Store) (user : User.t) (actualProjectId : ObjectId) : Guard :=
  match Project.findById (projects st) actualProjectId with
  | None => denied NotFound "Project not found"
  | Some project =>
    if negb (Project.owner project =? User._id user)
    then denied Forbidden "Access denied - Only project owner can perform this action"
    else next
  end.

Definition checkProjectMember (st : Store) (user : User.t) (actualProjectId : ObjectId) : Guard :=
  match Project.findById (projects st) actualProjectId with
  | None => denied NotFound "Project not found"
  | Some project =>
    if negb (isMember project user)
    then denied Forbidden "Access denied - Not a project member"
    else next
  end.

(** [issue.assignee?.toString() === req.user._id.toString()] *)
Definition isAssignee (issue : Issue.t) (user : User.t) : bool :=
  match Issue.assignee issue with
  | Some a => a =? User._id user
  | None => false
  end.

(** A populated [projectId] that resolves to no project makes the handler
    dereference [null]: an uncaught TypeError. *)
Definition checkIssuePermission (st : Store) (user : User.t) (method : Method) (id : ObjectId) : Guard :=
  match Issue.findById (issues st) id with
  | None => denied NotFound "Issue not found"
  | Some issue =>
    match Project.findById (projects st) (Issue.projectId issue) with
    | None => denied ServerError "TypeError"
    | Some project =>
      if negb (isMember project user)
      then denied Forbidden "Access denied - Not a project member"
      else
        let isProjectOwner := Project.owner project =? User._id user in
        let isReporter := Issue.reporter issue =? User._id user in
        match method with
        | GET => next
        | _ =>
          if negb isProjectOwner && negb isReporter && negb (isAssignee issue user)
          then denied Forbidden
                 "Access denied - Only project owner, reporter, or assignee can modify this issue"
          else next
        end
    end
  end.

Definition checkIssueDeletePermission (st : Store) (user : User.t) (id : ObjectId) : Guard :=
  match Issue.findById (issues st) id with
  | None => denied NotFound "Issue not found"
  | Some issue =>
    match Project.findById (projects st) (Issue.projectId issue) with
    | None => denied ServerError "TypeError"
    | Some project =>
      let isProjectOwner := Project.owner project =? User._id user in
      let isReporter := Issue.reporter issue =? User._id user in
      if negb isProjectOwner && negb isReporter
      then denied Forbidden
             "Access denied - Only project owner or issue reporter can delete this issue"
      else next
    end
  end.

(** ** Project controller (controller/projectController.js)

    The id of a new document, the random invite token, the clock and the
    outcome of the mail transport are inputs of the handler that uses them. *)

Definition createProject (st : Store) (user : User.t) (newId : ObjectId)
    (name description key : string) : Reply * Store :=
  match Project.findOneByKey (projects st) (Js.toUpperCase key) with
  | Some _ => (throw BadRequest "Project with this key already exists", st)
  | None =>
    match Project.create (projects st)
            (Project.mk newId name description (Js.toUpperCase key)
                        (User._id user) [User._id user] []) with
    | None => (throw ServerError "ValidationError", st)
    | Some (project, l) => (json Created (projectData project), setProjects l st)
    end
  end.

Definition updateProject (st : Store) (user : User.t) (id : ObjectId)
    (name description key : string) : Reply * Store :=
  match Project.findById (projects st) id with
  | None => (throw NotFound "Project not found", st)
  | Some project =>
    if negb (Project.owner project =? User._id user)
    then (throw Forbidden "Access denied - Only project owner can update project", st)
    else
      if negb (key =? "") && negb (Js.toUpperCase key =? Project.key project)
         && found (Project.findOneByKey (projects st) (Js.toUpperCase key))
      then (throw BadRequest "Project with this key already exists", st)
      else
        let project :=
          Project.with_text
            (Js.strOr name (Project.name project))
            (Js.strOr description (Project.description project))
            (if negb (key =? "") then Js.toUpperCase key else Project.key project)
            project in
        match Project.save (projects st) project with
        | None => (throw ServerError "ValidationError", st)
        | Some (updatedProject, l) => (json OK (projectData updatedProject), setProjects l st)
        end
  end.

Definition deleteProject (st : Store) (user : User.t) (id : ObjectId) : Reply * Store :=
  match Project.findById (projects st) id with
  | None => (throw NotFound "Project not found", st)
  | Some project =>
    if negb (Project.owner project =? User._id user)
    then (throw Forbidden "Access denied - Only project owner can delete project", st)
    else
      let st := setIssues (Issue.deleteMany (issues st) id) st in
      let st := setProjects (Project.findByIdAndDelete (projects st) id) st in
      (json OK (message "Project and associated issues deleted successfully"), st)
  end.

(** Seven days in milliseconds. *)
Definition inviteLifetime : Z := 7 * 24 * 60 * 60 * 1000.

Definition inviteMember (st : Store) (user : User.t) (id : ObjectId)
    (email role : string) (inviteToken : string) (now : Z) (emailSent : bool)
    : Reply * Store :=
  match Project.findById (projects st) id with
  | None => (throw NotFound "Project not found", st)
  | Some project =>
    if negb (Project.owner project =? User._id user)
    then (throw Forbidden "Access denied - Only project owner can invite members", st)
    else
      let alreadyMember :=
        match User.findOne (users st) email with
        | Some existingUser =>
          Js.some (fun memberId => memberId =? User._id existingUser) (Project.member project)
        | None => false
        end in
      if alreadyMember
      then (throw BadRequest "User is already a member of this project", st)
      else
        match Js.find (fun invite => Invite.email invite =? email)
                      (Project.pendingInvites project) with
        | Some _ => (throw BadRequest "Invitation already sent to this email", st)
        | None =>
          let expiresAt := (now + inviteLifetime)%Z in
          let project :=
            Project.with_pendingInvites
              (Js.push (Project.pendingInvites project)
                 (Invite.mk email (Js.strOr role "developer") (User._id user)
                            inviteToken expiresAt))
              project in
          match Project.save (projects st) project with
          | None => (throw ServerError "ValidationError", st)
          | Some (project, l) =>
            let st := setProjects l st in
            if emailSent
            then (json OK (message "Invitation sent successfully"), st)
            else
              (* Remove the invite if email failed *)
              let project :=
                Project.with_pendingInvites
                  (Js.filter (fun invite => negb (Invite.token invite =? inviteToken))
                             (Project.pendingInvites project))
                  project in
              match Project.save (projects st) project with
              | None => (throw ServerError "ValidationError", st)
              | Some (_, l) =>
                (throw ServerError "Failed to send invitation email", setProjects l st)
              end
          end
        end
  end.

Definition acceptInvitation (st : Store) (user : User.t) (token : string) (now : Z)
    : Reply * Store :=
  match Project.findOneByInvite (projects st) token now with
  | None => (throw BadRequest "Invalid or expired invitation token", st)
  | Some project =>
    match Js.find (fun inv => Invite.token inv =? token) (Project.pendingInvites project) with
    | None => (throw ServerError "TypeError", st)
    | Some invite =>
      if negb (Invite.email invite =? User.email user)
      then (throw Forbidden "This invitation is not for your email address", st)
      else
        let project :=
          if negb (isMember project user)
          then Project.with_member (Js.push (Project.member project) (User._id user)) project
          else project in
        (* Remove the used invitation *)
        let project :=
          Project.with_pendingInvites
            (Js.filter (fun inv => negb (Invite.token inv =? token))
                       (Project.pendingInvites project))
            project in
        match Project.save (projects st) project with
        | None => (throw ServerError "ValidationError", st)
        | Some (project, l) => (json OK (projectData project), setProjects l st)
        end
    end
  end.

Definition removeMember (st : Store) (user : User.t) (id memberId : ObjectId)
    : Reply * Store :=
  match Project.findById (projects st) id with
  | None => (throw NotFound "Project not found", st)
  | Some project =>
    if negb (Project.owner project =? User._id user)
    then (throw Forbidden "Access denied - Only project owner can remove members", st)
    else
      (* Prevent owner from removing themselves *)
      if memberId =? User._id user
      then (throw BadRequest "Project owner cannot remove themselves", st)
      else
        match Js.findIndex (fun member => member =? memberId) (Project.member project) with
        | None => (throw NotFound "Member not found in this project", st)
        | Some memberIndex =>
          let project :=
            Project.with_member (Js.splice1 memberIndex (Project.member project)) project in
          match Project.save (projects st) project with
          | None => (throw ServerError "ValidationError", st)
          | Some (_, l) => (json OK (message "Member removed successfully"), setProjects l st)
          end
        end
  end.

(** ** Issue controller (controller/issueController.js) *)

(** The body of an issue create or update.  A text field left out of the
    body is the empty string; [tags] and [dueDate] are [None] when left
    out, and [dueDate] is [Some None] for an explicit [null]. *)
Record IssueBody := mkIssueBody {
  title : string;
  description : string;
  status : string;
  priority : string;
  assignee : Js.value;
  tags : option (list string);
  dueDate : option (option Z)
}.

(** [some(member => member.toString() === assignee)] *)
Definition isAssigneeMember (project : Project.t) (assignee : Js.value) : bool :=
  Js.some (fun member => Js.eqStr member assignee) (Project.member project).

Definition createIssue (st : Store) (user : User.t) (newId projectId : ObjectId)
    (body : IssueBody) : Reply * Store :=
  match Project.findById (projects st) projectId with
  | None => (throw NotFound "Project not found", st)
  | Some project =>
    if negb (isMember project user)
    then (throw Forbidden "Access denied - Not a project member", st)
    else
      (* Validate assignee is a project member if provided *)
      if Js.truthy (assignee body) && negb (isAssigneeMember project (assignee body))
      then (throw BadRequest "Assignee must be a project member", st)
      else
        (* Generate unique key for issue *)
        let issueCount := Issue.countDocuments (issues st) projectId in
        let issueKey :=
          String.append (Project.key project)
            (String.append "-" (Js.numToString (issueCount + 1))) in
        match castObjectId (Js.or (assignee body) Js.null) with
        | None => (throw ServerError "ValidationError", st)
        | Some assignee' =>
          match Issue.create (issues st)
                  {| Issue._id := newId;
                     Issue.key := issueKey;
                     Issue.title := title body;
                     Issue.description := description body;
                     Issue.status := "todo";
                     Issue.priority := Js.strOr (priority body) "medium";
                     Issue.assignee := assignee';
                     Issue.reporter := User._id user;
                     Issue.projectId := projectId;
                     Issue.tags := match tags body with Some t => t | None => [] end;
                     Issue.dueDate :=
                       match dueDate body with Some (Some d) => Some d | _ => None end;
                     Issue.attachments := [];
                     Issue.comments := [] |} with
          | None => (throw ServerError "ValidationError", st)
          | Some (issue, l) => (json Created (issueData issue), setIssues l st)
          end
        end
  end.

Definition updateIssue (st : Store) (user : User.t) (id : ObjectId) (body : IssueBody)
    : Reply * Store :=
  match Issue.findById (issues st) id with
  | None => (throw NotFound "Issue not found", st)
  | Some issue =>
    match Project.findById (projects st) (Issue.projectId issue) with
    | None => (throw ServerError "TypeError", st)
    | Some project =>
      if negb (isMember project user)
      then (throw Forbidden "Access denied - Not a project member", st)
      else
        let isProjectOwner := Project.owner project =? User._id user in
        let isReporter := Issue.reporter issue =? User._id user in
        (* Only project owner, reporter, or assignee can update the issue *)
        if negb isProjectOwner && negb isReporter && negb (isAssignee issue user)
        then (throw Forbidden
                "Access denied - Only project owner, reporter, or assignee can update this issue",
              st)
        else
          (* Validate assignee is a project member if provided *)
          if Js.truthy (assignee body) && negb (isAssigneeMember project (assignee body))
          then (throw BadRequest "Assignee must be a project member", st)
          else
            match
              match assignee body with
              | Js.undefined => Some (Issue.assignee issue)
              | v => castObjectId v
              end
            with
            | None => (throw ServerError "ValidationError", st)
            | Some assignee' =>
              let issue :=
                {| Issue._id := Issue._id issue;
                   Issue.key := Issue.key issue;
                   Issue.title := Js.strOr (title body) (Issue.title issue);
                   Issue.description := Js.strOr (description body) (Issue.description issue);
                   Issue.status := Js.strOr (status body) (Issue.status issue);
                   Issue.priority := Js.strOr (priority body) (Issue.priority issue);
                   Issue.assignee := assignee';
                   Issue.reporter := Issue.reporter issue;
                   Issue.projectId := Issue.projectId issue;
                   Issue.tags :=
                     match tags body with Some t => t | None => Issue.tags issue end;
                   Issue.dueDate :=
                     match dueDate body with Some d => d | None => Issue.dueDate issue end;
                   Issue.attachments := Issue.attachments issue;
                   Issue.comments := Issue.comments issue |} in
              match Issue.save (issues st) issue with
              | None => (throw ServerError "ValidationError", st)
              | Some (updatedIssue, l) => (json OK (issueData updatedIssue), setIssues l st)
              end
            end
    end
  end.

Definition deleteIssue (st : Store) (user : User.t) (id : ObjectId) : Reply * Store :=
  match Issue.findById (issues st) id with
  | None => (throw NotFound "Issue not found", st)
  | Some issue =>
    match Project.findById (projects st) (Issue.projectId issue) with
    | None => (throw ServerError "TypeError", st)
    | Some project =>
      let isProjectOwner := Project.owner project =? User._id user in
      let isReporter := Issue.reporter issue =? User._id user in
      (* Only project owner or reporter can delete the issue *)
      if negb isProjectOwner && negb isReporter
      then (throw Forbidden
              "Access denied - Only project owner or issue reporter can delete this issue",
            st)
      else
        (* Delete all comments associated with this issue *)
        let st := setComments (Comment.deleteMany (comments st) id) st in
        (* Delete all attachments associated with this issue *)
        let st :=
          setAttachments (Attachment.deleteMany (attachments st) (Issue.attachments issue)) st in
        let st := setIssues (Issue.findByIdAndDelete (issues st) id) st in
        (json OK (message "Issue and associated data deleted successfully"), st)
    end
  end.

Definition assignIssue (st : Store) (user : User.t) (id : ObjectId)
    (assigneeId assignee : Js.value) : Reply * Store :=
  let targetAssignee := Js.or assigneeId assignee in
  match Issue.findById (issues st) id with
  | None => (throw NotFound "Issue not found", st)
  | Some issue =>
    match Project.findById (projects st) (Issue.projectId issue) with
    | None => (throw ServerError "TypeError", st)
    | Some project =>
      if negb (isMember project user)
      then (throw Forbidden "Access denied - Not a project member", st)
      else
        (* Validate assignee is a project member if provided *)
        if Js.truthy targetAssignee && negb (isAssigneeMember project targetAssignee)
        then (throw BadRequest "Assignee must be a project member", st)
        else
          (* Update assignee *)
          match castObjectId (Js.or targetAssignee Js.null) with
          | None => (throw ServerError "ValidationError", st)
          | Some assignee' =>
            match Issue.save (issues st) (Issue.with_assignee assignee' issue) with
            | None => (throw ServerError "ValidationError", st)
            | Some (issue, l) => (json OK (issueData issue), setIssues l st)
            end
          end
    end
  end.

Definition updateIssueStatus (st : Store) (user : User.t) (id : ObjectId) (status : string)
    : Reply * Store :=
  match Issue.findById (issues st) id with
  | None => (throw NotFound "Issue not found", st)
  | Some issue =>
    (* Check if user is the assignee *)
    if negb (found (Issue.assignee issue)) || negb (isAssignee issue user)
    then (throw Forbidden "Access denied - Only the assignee can update the status", st)
    else
      if negb (Js.includes Issue.statuses status)
      then (throw BadRequest "Invalid status value", st)
      else
        match Issue.save (issues st) (Issue.with_status status issue) with
        | None => (throw ServerError "ValidationError", st)
        | Some (issue, l) => (json OK (issueData issue), setIssues l st)
        end
  end.

(** ** Route tables (routes/projectRoutes.js, routes/issueRoutes.js)

    Every route runs the authentication middleware, then its guard, then
    the controller. *)

Definition guarded (st : Store) (g : Guard) (h : Reply * Store) : Reply * Store :=
  match g with
  | next => h
  | denied s m => (throw s m, st)
  end.

Inductive Request :=
| POST_projects (newId : ObjectId) (name description key : string)
| PUT_projects_id (id : ObjectId) (name description key : string)
| DELETE_projects_id (id : ObjectId)
| POST_projects_id_invite (id : ObjectId) (email role : string)
    (inviteToken : string) (now : Z) (emailSent : bool)
| POST_projects_accept_invite (token : string) (now : Z)
| DELETE_projects_id_members (id memberId : ObjectId)
| POST_projects_id_issues (newId projectId : ObjectId) (body : IssueBody)
| PUT_issues_id (id : ObjectId) (body : IssueBody)
| DELETE_issues_id (id : ObjectId)
| PUT_issues_id_assign (id : ObjectId) (assigneeId assignee : Js.value)
| PUT_issues_id_status (id : ObjectId) (status : string).

Definition route (st : Store) (user : User.t) (r : Request) : Reply * Store :=
  match r with
  | POST_projects newId name description key =>
    createProject st user newId name description key
  | PUT_projects_id id name description key =>
    guarded st (checkProjectOwner st user id) (updateProject st user id name description key)
  | DELETE_projects_id id =>
    guarded st (checkProjectOwner st user id) (deleteProject st user id)
  | POST_projects_id_invite id email role inviteToken now emailSent =>
    guarded st (checkProjectOwner st user id)
      (inviteMember st user id email role inviteToken now emailSent)
  | POST_projects_accept_invite token now =>
    acceptInvitation st user token now
  | DELETE_projects_id_members id memberId =>
    guarded st (checkProjectOwner st user id) (removeMember st user id memberId)
  | POST_projects_id_issues newId projectId body =>
    guarded st (checkProjectMember st user projectId) (createIssue st user newId projectId body)
  | PUT_issues_id id body =>
    guarded st (checkIssuePermission st user PUT id) (updateIssue st user id body)
  | DELETE_issues_id id =>
    guarded st (checkIssueDeletePermission st user id) (deleteIssue st user id)
  | PUT_issues_id_assign id assigneeId assignee =>
    guarded st (checkIssuePermission st user PUT id) (assignIssue st user id assigneeId assignee)
  | PUT_issues_id_status id status =>
    guarded st (checkIssuePermission st user PUT id) (updateIssueStatus st user id status)
  end.

(** The store after a sequence of authenticated requests, served one after
    the other. *)
Fixpoint serve (st : Store) (l : list (User.t * Request)) : Store :=
  match l with
  | [] => st
  | (user, r) :: l => serve (snd (route st user r)) l
  end.

(** ** A sample store

    Alice owns project DEMO; Bob and Carol are members.  Alice reported
    issue DEMO-1, which is assigned to Bob. *)

Definition alice : User.t := User.mk "u1" "alice@x.com" "manager".
Definition bob : User.t := User.mk "u2" "bob@x.com" "developer".
Definition carol : User.t := User.mk "u3" "carol@x.com" "developer".
Definition dave : User.t := User.mk "u4" "dave@x.com" "developer".

Definition demo : Project.t :=
  {| Project._id := "p1";
     Project.name := "Demo";
     Project.description := "A demo project";
     Project.key := "DEMO";
     Project.owner := "u1";
     Project.member := ["u1"; "u2"; "u3"];
     Project.pendingInvites := [] |}.

Definition demo1 : Issue.t :=
  {| Issue._id := "i1";
     Issue.key := "DEMO-1";
     Issue.title := "Crash on start";
     Issue.description := "Stack trace attached";
     Issue.status := "todo";
     Issue.priority := "medium";
     Issue.reporter := "u1";
     Issue.assignee := Some "u2";
     Issue.projectId := "p1";
     Issue.tags := [];
     Issue.dueDate := None;
     Issue.attachments := ["a1"];
     Issue.comments := ["c1"] |}.

(** Bob reported DEMO-2, which nobody is assigned to. *)
Definition demo2 : Issue.t :=
  {| Issue._id := "i2";
     Issue.key := "DEMO-2";
     Issue.title := "Slow search";
     Issue.description := "Takes ten seconds";
     Issue.status := "inprogress";
     Issue.priority := "high";
     Issue.reporter := "u2";
     Issue.assignee := None;
     Issue.projectId := "p1";
     Issue.tags := ["perf"];
     Issue.dueDate := None;
     Issue.attachments := [];
     Issue.comments := ["c2"] |}.

(** Attachment a1 hangs on DEMO-1 itself, a2 on a comment of DEMO-1 only,
    a3 on a comment of DEMO-2. *)
Definition sampleStore : Store :=
  {| users := [alice; bob; carol; dave];
     projects := [demo];
     issues := [demo1; demo2];
     comments :=
       [ Comment.mk "c1" "Here is the log" "u2" "i1" ["a2"];
         Comment.mk "c2" "Profile attached" "u3" "i2" ["a3"] ];
     attachments :=
       [ Attachment.mk "a1" "https://files/a1.png" "files/a1" "u1";
         Attachment.mk "a2" "https://files/a2.pdf" "files/a2" "u2";
         Attachment.mk "a3" "https://files/a3.pdf" "files/a3" "u3" ] |}.

Definition sampleBody (assignee : Js.value) : IssueBody :=
  {| title := "Typo in footer";
     description := "See the about page";
     status := "";
     priority := "";
     assignee := assignee;
     tags := None;
     dueDate := None |}.

(** The sample store after Alice removed Bob from the project: Bob is
    still the assignee of DEMO-1. *)
Definition storeWithoutBob : Store :=
  snd (route sampleStore alice (DELETE_projects_id_members "p1" "u2")).

(** The project after Bob's removal. *)
Definition demoWithoutBob : Project.t := Project.with_member ["u1"; "u3"] demo.

(** The sample store after Alice invited dave@x.com at time 1000, with the
    token "tok1" and a mail that went out. *)
Definition invitedStore : Store :=
  Eval vm_compute in
    snd (route sampleStore alice
           (POST_projects_id_invite "p1" "dave@x.com" "" "tok1" 1000 true)).

(** Dave's invite and the project holding it. *)
Definition daveInvite : Invite.t :=
  {| Invite.email := "dave@x.com";
     Invite.role := "developer";
     Invite.invitedBy := "u1";
     Invite.token := "tok1";
     Invite.expiresAt := 604801000 |}.

Definition demoInvited : Project.t := Project.with_pendingInvites [daveInvite] demo.

(** The project and the store after Dave accepted at time 2000. *)
Definition demoJoined : Project.t := Project.with_member ["u1"; "u2"; "u3"; "u4"] demo.

Definition joinedStore : Store := setProjects [demoJoined] sampleStore.


(** ** Predicates of the properties *)

(** The owner of a project is one of its members. *)
Definition ownerIsMember (p : Project.t) : Prop :=
  In (Project.owner p) (Project.member p).

(** [written st st']: every project document of [st'] is a document of
    [st] or has its owner among its members. *)
Definition written (st st' : Store) : Prop :=
  forall p, In p (projects st') -> In p (projects st) \/ ownerIsMember p.

(** The issue-actor relation: project owner, reporter or current assignee. *)
Definition isIssueActor (issue : Issue.t) (project : Project.t) (user : User.t) : bool :=
  (Project.owner project =? User._id user)
  || (Issue.reporter issue =? User._id user)
  || isAssignee issue user.

(** A body value that names somebody outside the project: a non-empty
    string that is no member's id. *)
Definition refusedAssignee (project : Project.t) (v : Js.value) : Prop :=
  exists a, v = Js.str a /\ a <> "" /\ ~ In a (Project.member project).

(** [holdsToken p tok]: a pending invite of [p] carries the token. *)
Definition holdsToken (p : Project.t) (tok : string) : Prop :=
  exists inv, In inv (Project.pendingInvites p) /\ Invite.token inv = tok.

(** A token that is valid at [now]: some project holds an unexpired invite
    with it. *)
Definition validToken (st : Store) (tok : string) (now : Z) : Prop :=
  exists p inv,
    In p (projects st) /\ In inv (Project.pendingInvites p)
    /\ Invite.token inv = tok /\ (now < Invite.expiresAt inv)%Z.

(** The random tokens do not collide: at most one project document holds
    the token. *)
Definition tokenInOneProject (st : Store) (tok : string) : Prop :=
  forall p q, In p (projects st) -> In q (projects st) ->
              holdsToken p tok -> holdsToken q tok -> p = q.

(** Destructs the scrutinee of the first [match] or [if] of the goal. *)
Ltac break_match :=
  match goal with
  | |- context [match ?x with _ => _ end] =>
    let E := fresh "E" in destruct x eqn:E
  end.

(** ** Further model methods

    Methods of the Mongoose models that the comment and attachment
    controllers and the read handlers call. *)

(** A reply whose body is of type [A]. *)
Inductive Answer (A : Type) :=
| sent (s : Status) (data : A)
| failed (s : Status) (m : string).

Arguments sent {A} s data.
Arguments failed {A} s m.

Definition delivered {A} (r : Answer A) : bool :=
  match r with
  | sent _ _ => true
  | failed _ _ => false
  end.

Module Comments.
(** The schema requires [content]. *)
Definition validate (c : Comment.t) : bool := negb (Comment.content c =? "").

(** [Comment.findById(id)] *)
Definition findById (l : list Comment.t) (id : ObjectId) : option Comment.t :=
  List.find (fun c => Comment._id c =? id) l.

(** [Comment.create(doc)] *)
Definition create (l : list Comment.t) (c : Comment.t) : option (Comment.t * list Comment.t) :=
  if validate c && negb (existsb (fun d => Comment._id d =? Comment._id c) l)
  then Some (c, l ++ [c])
  else None.

(** [comment.save()] *)
Definition save (l : list Comment.t) (c : Comment.t) : option (Comment.t * list Comment.t) :=
  if validate c
  then Some (c, map (fun d => if Comment._id d =? Comment._id c then c else d) l)
  else None.

(** [Comment.findByIdAndDelete(id)] *)
Definition findByIdAndDelete (l : list Comment.t) (id : ObjectId) : list Comment.t :=
  List.filter (fun d => negb (Comment._id d =? id)) l.

(** [Comment.find({ issueId })] and [Comment.find({ author })] *)
Definition findByIssue (l : list Comment.t) (iid : ObjectId) : list Comment.t :=
  List.filter (fun d => Comment.issueId d =? iid) l.
Definition findByAuthor (l : list Comment.t) (uid : ObjectId) : list Comment.t :=
  List.filter (fun d => Comment.author d =? uid) l.

Definition with_text (content : string) (attachment : list ObjectId) (c : Comment.t)
    : Comment.t :=
  Comment.mk (Comment._id c) content (Comment.author c) (Comment.issueId c) attachment.
End Comments.

Module Attachments.
(** [Attachment.findById(id)] *)
Definition findById (l : list Attachment.t) (id : ObjectId) : option Attachment.t :=
  List.find (fun d => Attachment._id d =? id) l.

(** [Attachment.find({ _id: { $in: ids }, uploadedBy })]: each stored
    document that meets both conditions, once.  [ids] are ids: the query
    casts the entries of the request's array, and throws a CastError for
    an entry that renders none; that case is left out here, and what is
    proved of the reply to a list is proved for lists of ids of stored
    attachments. *)
Definition findOwned (l : list Attachment.t) (ids : list ObjectId) (uid : ObjectId)
    : list Attachment.t :=
  List.filter
    (fun d => Js.includes ids (Attachment._id d) && (Attachment.uploadedBy d =? uid)) l.

(** [Attachment.find({ uploadedBy })] *)
Definition findByUploader (l : list Attachment.t) (uid : ObjectId) : list Attachment.t :=
  List.filter (fun d => Attachment.uploadedBy d =? uid) l.

(** [Attachment.findByIdAndDelete(id)] *)
Definition findByIdAndDelete (l : list Attachment.t) (id : ObjectId) : list Attachment.t :=
  List.filter (fun d => negb (Attachment._id d =? id)) l.

(** [Attachment.create(doc)]: [url] and [publicId] are required. *)
Definition create (l : list Attachment.t) (a : Attachment.t)
    : option (Attachment.t * list Attachment.t) :=
  if negb (Attachment.url a =? "") && negb (Attachment.publicId a =? "")
     && negb (existsb (fun d => Attachment._id d =? Attachment._id a) l)
  then Some (a, l ++ [a])
  else None.
End Attachments.

Module Issues.
Definition with_comments (c : list ObjectId) (i : Issue.t) : Issue.t :=
  Issue.mk (Issue._id i) (Issue.key i) (Issue.title i) (Issue.description i)
           (Issue.status i) (Issue.priority i) (Issue.reporter i) (Issue.assignee i)
           (Issue.projectId i) (Issue.tags i) (Issue.dueDate i) (Issue.attachments i) c.

(** An update of the first document that meets [f], as [findOneAndUpdate]
    does. *)
Fixpoint updateFirst (f : Issue.t -> bool) (g : Issue.t -> Issue.t) (l : list Issue.t)
    : list Issue.t :=
  match l with
  | [] => []
  | x :: r => if f x then g x :: r else x :: updateFirst f g r
  end.

(** [Issue.findByIdAndUpdate(id, { $pull: { comments: cid } })] *)
Definition pullComment (l : list Issue.t) (id cid : ObjectId) : list Issue.t :=
  updateFirst (fun i => Issue._id i =? id)
    (fun i => with_comments (Js.filter (fun c => negb (c =? cid)) (Issue.comments i)) i) l.

(** [Issue.find({ projectId })] *)
Definition findByProject (l : list Issue.t) (pid : ObjectId) : list Issue.t :=
  List.filter (fun i => Issue.projectId i =? pid) l.
End Issues.

Module Projects.
(** [Project.find({ member: uid })]: the array path matches when some
    element equals the id. *)
Definition findByMember (l : list Project.t) (uid : ObjectId) : list Project.t :=
  List.filter (fun p => Js.some (fun m => m =? uid) (Project.member p)) l.

(** [Project.find({ _id: { $in: ids }, owner })].  As for attachments,
    [ids] are ids, and what is proved of the reply to an array is proved
    for arrays of ids of stored projects. *)
Definition findOwned (l : list Project.t) (ids : list ObjectId) (uid : ObjectId)
    : list Project.t :=
  List.filter (fun p => Js.includes ids (Project._id p) && (Project.owner p =? uid)) l.
End Projects.

(** ** Further route guards (middleware/projectMiddleware.js) *)

Definition getProjectFromIssue (st : Store) (user : User.t) (issueId : ObjectId) : Guard :=
  match Issue.findById (issues st) issueId with
  | None => denied NotFound "Issue not found"
  | Some issue =>
    match Project.findById (projects st) (Issue.projectId issue) with
    | None => denied ServerError "TypeError"
    | Some project =>
      if negb (isMember project user)
      then denied Forbidden "Access denied - Not a project member"
      else next
    end
  end.

(** The comment with its populated issue and the issue's populated
    project; a reference that resolves to nothing is dereferenced as
    [null]. *)
Definition populateComment (st : Store) (comment : Comment.t) : option (Issue.t * Project.t) :=
  match Issue.findById (issues st) (Comment.issueId comment) with
  | None => None
  | Some issue =>
    match Project.findById (projects st) (Issue.projectId issue) with
    | None => None
    | Some project => Some (issue, project)
    end
  end.

Definition checkCommentPermission (st : Store) (user : User.t) (method : Method)
    (id : ObjectId) : Guard :=
  match Comments.findById (comments st) id with
  | None => denied NotFound "Comment not found"
  | Some comment =>
    match populateComment st comment with
    | None => denied ServerError "TypeError"
    | Some (_, project) =>
      if negb (isMember project user)
      then denied Forbidden "Access denied - Not a project member"
      else
        let isProjectOwner := Project.owner project =? User._id user in
        let isCommentAuthor := Comment.author comment =? User._id user in
        match method with
        | GET => next
        | _ =>
          if negb isProjectOwner && negb isCommentAuthor
          then denied Forbidden
                 "Access denied - Only project owner or comment author can modify this comment"
          else next
        end
    end
  end.

(** [Array.prototype.join] *)
Fixpoint join (sep : string) (l : list string) : string :=
  match l with
  | [] => ""
  | [x] => x
  | x :: r => String.append x (String.append sep (join sep r))
  end.

(** [checkRole(roles)]; [req.user] may be missing. *)
Definition checkRole (roles : list string) (user : option User.t) : Guard :=
  match user with
  | Some u =>
    if negb (Js.includes roles (User.role u))
    then denied Forbidden
           (String.append "Access denied - Requires role: " (join " or " roles))
    else next
  | None =>
    denied Forbidden (String.append "Access denied - Requires role: " (join " or " roles))
  end.

Definition checkAdmin : option User.t -> Guard := checkRole ["admin"].
Definition checkAdminOrManager : option User.t -> Guard := checkRole ["admin"; "manager"].


(** ** Comment controller (controller/commentController.js) *)

Definition guardedA {A} (st : Store) (g : Guard) (h : Answer A * Store) : Answer A * Store :=
  match g with
  | next => h
  | denied s m => (failed s m, st)
  end.

Definition storedAttachments (st : Store) : list Attachment.t := attachments st.
Definition storedComments (st : Store) : list Comment.t := comments st.

(** [attachments && attachments.length > 0] followed by
    [validAttachments.length !== attachments.length]. *)
Definition attachmentsRejected (st : Store) (user : User.t)
    (attachments : option (list ObjectId)) : bool :=
  match attachments with
  | Some (a :: r) =>
    negb (List.length (Attachments.findOwned (storedAttachments st) (a :: r) (User._id user))
          =? List.length (a :: r))%nat
  | _ => false
  end.

Definition createComment (st : Store) (user : User.t) (newId issueId : ObjectId)
    (content : string) (attachments : option (list ObjectId)) : Answer Comment.t * Store :=
  match Issue.findById (issues st) issueId with
  | None => (failed NotFound "Issue not found", st)
  | Some issue =>
    match Project.findById (projects st) (Issue.projectId issue) with
    | None => (failed ServerError "TypeError", st)
    | Some project =>
      if negb (isMember project user)
      then (failed Forbidden "Access denied - Not a project member", st)
      else
        (* Validate attachments if provided *)
        if attachmentsRejected st user attachments
        then (failed BadRequest "Some attachments are invalid or not owned by you", st)
        else
          match Comments.create (storedComments st)
                  {| Comment._id := newId;
                     Comment.content := content;
                     Comment.author := User._id user;
                     Comment.issueId := issueId;
                     Comment.attachment :=
                       match attachments with Some l => l | None => [] end |} with
          | None => (failed ServerError "ValidationError", st)
          | Some (comment, l) =>
            let st := setComments l st in
            (* Add comment to issue *)
            match Issue.save (issues st)
                    (Issues.with_comments
                       (Js.push (Issue.comments issue) (Comment._id comment)) issue) with
            | None => (failed ServerError "ValidationError", st)
            | Some (_, li) => (sent Created comment, setIssues li st)
            end
          end
    end
  end.

Definition getComment (st : Store) (user : User.t) (id : ObjectId) : Answer Comment.t :=
  match Comments.findById (storedComments st) id with
  | None => failed NotFound "Comment not found"
  | Some comment =>
    match populateComment st comment with
    | None => failed ServerError "TypeError"
    | Some (_, project) =>
      if negb (isMember project user)
      then failed Forbidden "Access denied - Not a project member"
      else sent OK comment
    end
  end.

Definition updateComment (st : Store) (user : User.t) (id : ObjectId)
    (content : string) (attachments : option (list ObjectId)) : Answer Comment.t * Store :=
  match Comments.findById (storedComments st) id with
  | None => (failed NotFound "Comment not found", st)
  | Some comment =>
    match populateComment st comment with
    | None => (failed ServerError "TypeError", st)
    | Some (_, project) =>
      let isProjectOwner := Project.owner project =? User._id user in
      let isCommentAuthor := Comment.author comment =? User._id user in
      (* Only project owner or comment author can update the comment *)
      if negb isProjectOwner && negb isCommentAuthor
      then (failed Forbidden
              "Access denied - Only project owner or comment author can update this comment",
            st)
      else
        if attachmentsRejected st user attachments
        then (failed BadRequest "Some attachments are invalid or not owned by you", st)
        else
          let comment :=
            Comments.with_text
              (Js.strOr content (Comment.content comment))
              (match attachments with Some l => l | None => Comment.attachment comment end)
              comment in
          match Comments.save (storedComments st) comment with
          | None => (failed ServerError "ValidationError", st)
          | Some (updatedComment, l) => (sent OK updatedComment, setComments l st)
          end
    end
  end.

Definition deleteComment (st : Store) (user : User.t) (id : ObjectId)
    : Answer string * Store :=
  match Comments.findById (storedComments st) id with
  | None => (failed NotFound "Comment not found", st)
  | Some comment =>
    match populateComment st comment with
    | None => (failed ServerError "TypeError", st)
    | Some (issue, project) =>
      let isProjectOwner := Project.owner project =? User._id user in
      let isCommentAuthor := Comment.author comment =? User._id user in
      (* Only project owner or comment author can delete the comment *)
      if negb isProjectOwner && negb isCommentAuthor
      then (failed Forbidden
              "Access denied - Only project owner or comment author can delete this comment",
            st)
      else
        (* Remove comment from issue's comments array *)
        let st :=
          setIssues (Issues.pullComment (issues st) (Issue._id issue) (Comment._id comment))
                    st in
        (* Delete associated attachments *)
        let st :=
          match Comment.attachment comment with
          | [] => st
          | l => setAttachments (Attachment.deleteMany (storedAttachments st) l) st
          end in
        let st := setComments (Comments.findByIdAndDelete (storedComments st) id) st in
        (sent OK "Comment and associated attachments deleted successfully", st)
    end
  end.

(** ** Read handlers of the project and issue controllers *)

(** The collections are in creation order: sorting by [createdAt]
    descending reverses them. *)
Definition getProjects (st : Store) (user : User.t) : Answer (list Project.t) :=
  sent OK (rev (Projects.findByMember (projects st) (User._id user))).

Definition getProject (st : Store) (user : User.t) (id : ObjectId) : Reply :=
  match Project.findById (projects st) id with
  | None => throw NotFound "Project not found"
  | Some project =>
    if negb (isMember project user)
    then throw Forbidden "Access denied - Not a project member"
    else json OK (projectData project)
  end.

Record Stats := mkStats {
  totalIssues : nat;
  todoIssues : nat;
  inProgressIssues : nat;
  doneIssues : nat;
  highPriorityIssues : nat;
  memberCount : nat
}.

Definition getProjectStats (st : Store) (user : User.t) (id : ObjectId) : Answer Stats :=
  match Project.findById (projects st) id with
  | None => failed NotFound "Project not found"
  | Some project =>
    if negb (isMember project user)
    then failed Forbidden "Access denied - Not a project member"
    else
      let issues := Issues.findByProject (issues st) id in
      sent OK
        {| totalIssues := List.length issues;
           todoIssues := List.length (Js.filter (fun issue => Issue.status issue =? "todo") issues);
           inProgressIssues :=
             List.length (Js.filter (fun issue => Issue.status issue =? "inprogress") issues);
           doneIssues := List.length (Js.filter (fun issue => Issue.status issue =? "done") issues);
           highPriorityIssues :=
             List.length
               (Js.filter (fun issue => (Issue.priority issue =? "high")
                                        || (Issue.priority issue =? "urgent")) issues);
           memberCount := List.length (Project.member project) |}
  end.

Definition getIssue (st : Store) (user : User.t) (id : ObjectId) : Reply :=
  match Issue.findById (issues st) id with
  | None => throw NotFound "Issue not found"
  | Some issue =>
    match Project.findById (projects st) (Issue.projectId issue) with
    | None => throw ServerError "TypeError"
    | Some project =>
      if negb (isMember project user)
      then throw Forbidden "Access denied - Not a project member"
      else json OK (issueData issue)
    end
  end.

(** [GET /:id] of the two routers: the guard for a read, then the handler. *)
Definition GET_projects_id (st : Store) (user : User.t) (id : ObjectId) : Reply :=
  match checkProjectMember st user id with
  | next => getProject st user id
  | denied s m => throw s m
  end.

Definition GET_issues_id (st : Store) (user : User.t) (id : ObjectId) : Reply :=
  match checkIssuePermission st user GET id with
  | next => getIssue st user id
  | denied s m => throw s m
  end.

(** ** Paged listings

    [pageNum] and [limitNum] are the parsed query parameters, both at
    least 1. *)

Record Page (A : Type) := mkPage {
  count : nat;
  total : nat;
  totalPages : nat;
  currentPage : nat;
  data : list A
}.

Arguments mkPage {A}.
Arguments count {A}.
Arguments total {A}.
Arguments totalPages {A}.
Arguments currentPage {A}.
Arguments data {A}.

(** [Math.ceil(total / limitNum)] *)
Definition ceilDiv (total limitNum : nat) : nat := (total + limitNum - 1) / limitNum.

(** [.skip((pageNum - 1) * limitNum).limit(limitNum)] over the sorted
    matches, with the count of all matches. *)
Definition paginate {A} (matches : list A) (pageNum limitNum : positive) : Page A :=
  let skip := (Pos.to_nat pageNum - 1) * Pos.to_nat limitNum in
  let found := firstn (Pos.to_nat limitNum) (skipn skip matches) in
  {| count := List.length found;
     total := List.length matches;
     totalPages := ceilDiv (List.length matches) (Pos.to_nat limitNum);
     currentPage := Pos.to_nat pageNum;
     data := found |}.

(** [if (status) filter.status = status; if (priority) filter.priority =
    priority], an empty or missing query parameter being falsy. *)
Definition issueFilter (status priority : string) (i : Issue.t) : bool :=
  ((status =? "") || (Issue.status i =? status))
  && ((priority =? "") || (Issue.priority i =? priority)).

Definition getMyAssignedIssues (st : Store) (user : User.t) (status priority : string)
    (pageNum limitNum : positive) : Answer (Page Issue.t) :=
  sent OK
    (paginate
       (rev (List.filter
               (fun i => isAssignee i user && issueFilter status priority i) (issues st)))
       pageNum limitNum).

Definition getMyReportedIssues (st : Store) (user : User.t) (status priority : string)
    (pageNum limitNum : positive) : Answer (Page Issue.t) :=
  sent OK
    (paginate
       (rev (List.filter
               (fun i => (Issue.reporter i =? User._id user) && issueFilter status priority i)
               (issues st)))
       pageNum limitNum).

Definition getIssueComments (st : Store) (user : User.t) (issueId : ObjectId)
    (pageNum limitNum : positive) : Answer (Page Comment.t) :=
  match Issue.findById (issues st) issueId with
  | None => failed NotFound "Issue not found"
  | Some issue =>
    match Project.findById (projects st) (Issue.projectId issue) with
    | None => failed ServerError "TypeError"
    | Some project =>
      if negb (isMember project user)
      then failed Forbidden "Access denied - Not a project member"
      else sent OK (paginate (Comments.findByIssue (storedComments st) issueId) pageNum limitNum)
    end
  end.

Definition getMyComments (st : Store) (user : User.t) (pageNum limitNum : positive)
    : Answer (Page Comment.t) :=
  sent OK (paginate (rev (Comments.findByAuthor (storedComments st) (User._id user)))
                    pageNum limitNum).

Definition getMyAttachments (st : Store) (user : User.t) (pageNum limitNum : positive)
    : Answer (Page Attachment.t) :=
  sent OK (paginate (rev (Attachments.findByUploader (storedAttachments st) (User._id user)))
                    pageNum limitNum).

(** ** Attachment controller (controller/attachmentController.js)

    The outcome of the object store is an input: the result of the upload
    ([None] when it threw) and whether the destroy call returned. *)

Module Upload.
(** [req.files.file] *)
Record file := mkFile {
  name : string;
  mimetype : string;
  size : Z
}.

(** The result of [cloudinary.v2.uploader.upload]. *)
Record result := mkResult {
  secure_url : string;
  public_id : string;
  resource_type : string
}.

(** The created attachment: the stored document with the fields of the
    schema that no other handler reads. *)
Record created := mkCreated {
  stored : Attachment.t;
  type : string;
  originalFilename : string;
  mimeType : string;
  fileSize : Z
}.
End Upload.

Definition maxSize : Z := 25 * 1024 * 1024.

Definition validTypes : list string :=
  ["image/jpeg"; "image/png"; "image/gif"; "application/pdf"; "video/mp4"].

Definition uploadAttachment (st : Store) (user : User.t) (newId : ObjectId)
    (file : option Upload.file) (result : option Upload.result)
    : Answer Upload.created * Store :=
  match file with
  | None => (failed BadRequest "No file uploaded", st)
  | Some file =>
    (* Validate file size *)
    if (maxSize <? Upload.size file)%Z
    then (failed BadRequest "File size too large (max 25MB)", st)
    else
      (* Validate file type *)
      if negb (Js.includes validTypes (Upload.mimetype file))
      then (failed BadRequest
              "Invalid file type. Only images, PDFs, and MP4 videos are allowed", st)
      else
        match result with
        | None => (failed ServerError "File upload failed", st)
        | Some result =>
          (* Determine attachment type based on Cloudinary response *)
          let attachmentType :=
            if Upload.resource_type result =? "image" then "image"
            else if Upload.resource_type result =? "video" then "video"
            else "file" in
          (* Create attachment record; [originalFilename] is required *)
          match
            if Upload.name file =? "" then None
            else Attachments.create (storedAttachments st)
                   {| Attachment._id := newId;
                      Attachment.url := Upload.secure_url result;
                      Attachment.publicId := Upload.public_id result;
                      Attachment.uploadedBy := User._id user |}
          with
          | None => (failed ServerError "File upload failed", st)
          | Some (attachment, l) =>
            (sent Created
               {| Upload.stored := attachment;
                  Upload.type := attachmentType;
                  Upload.originalFilename := Upload.name file;
                  Upload.mimeType := Upload.mimetype file;
                  Upload.fileSize := Upload.size file |},
             setAttachments l st)
          end
        end
  end.

Definition deleteAttachment (st : Store) (user : User.t) (id : ObjectId) (destroyed : bool)
    : Answer string * Store :=
  match Attachments.findById (storedAttachments st) id with
  | None => (failed NotFound "Attachment not found", st)
  | Some attachment =>
    (* Check if user is the uploader or admin *)
    let isOwner := Attachment.uploadedBy attachment =? User._id user in
    let isAdmin := User.role user =? "admin" in
    if negb isOwner && negb isAdmin
    then (failed Forbidden "Not authorized to delete this attachment", st)
    else
      if destroyed
      then
        (sent OK "Attachment deleted successfully",
         setAttachments (Attachments.findByIdAndDelete (storedAttachments st) id) st)
      else (failed ServerError "Failed to delete attachment", st)
  end.

(** ** Route tables as data (routes/*Routes.js)

    A router tries its routes in the order of registration and runs the
    first whose method and path match; a path is its list of segments. *)

Inductive Segment :=
| lit (s : string)
| param (name : string).

Record RouteEntry := mkRoute {
  verb : Method;
  pattern : list Segment;
  guard : string;
  controller : string
}.

Definition Method_eqb (a b : Method) : bool :=
  match a, b with
  | GET, GET | POST, POST | PUT, PUT | DELETE, DELETE => true
  | _, _ => false
  end.

(** A literal matches without regard to case, a parameter matches any
    segment. *)
Fixpoint matchPath (pattern : list Segment) (path : list string) : bool :=
  match pattern, path with
  | [], [] => true
  | lit s :: pattern, x :: path =>
    (Js.toUpperCase s =? Js.toUpperCase x) && matchPath pattern path
  | param _ :: pattern, x :: path => matchPath pattern path
  | _, _ => false
  end.

Definition dispatch (table : list RouteEntry) (m : Method) (path : list string)
    : option RouteEntry :=
  List.find (fun e => Method_eqb (verb e) m && matchPath (pattern e) path) table.

Definition projectRoutes : list RouteEntry :=
  [ mkRoute POST [] "" "createProject";
    mkRoute GET [] "" "getProjects";
    mkRoute POST [lit "accept-invite"; param "token"] "" "acceptInvitation";
    mkRoute GET [param "id"] "checkProjectMember" "getProject";
    mkRoute PUT [param "id"] "checkProjectOwner" "updateProject";
    mkRoute DELETE [param "id"] "checkProjectOwner" "deleteProject";
    mkRoute GET [param "id"; lit "stats"] "checkProjectMember" "getProjectStats";
    mkRoute POST [param "id"; lit "invite"] "checkProjectOwner" "inviteMember";
    mkRoute DELETE [param "id"; lit "members"; param "memberId"]
            "checkProjectOwner" "removeMember" ].

Definition issueRoutes : list RouteEntry :=
  [ mkRoute POST [lit "projects"; param "projectId"; lit "issues"]
            "checkProjectMember" "createIssue";
    mkRoute GET [lit "projects"; param "projectId"; lit "issues"]
            "checkProjectMember" "getProjectIssues";
    mkRoute GET [param "id"] "checkIssuePermission" "getIssue";
    mkRoute PUT [param "id"] "checkIssuePermission" "updateIssue";
    mkRoute DELETE [param "id"] "checkIssueDeletePermission" "deleteIssue";
    mkRoute PUT [param "id"; lit "assign"] "checkIssuePermission" "assignIssue";
    mkRoute PUT [param "id"; lit "status"] "checkIssuePermission" "updateIssueStatus";
    mkRoute GET [lit "assigned-to-me"] "" "getMyAssignedIssues";
    mkRoute GET [lit "reported-by-me"] "" "getMyReportedIssues" ].

Definition commentRoutes : list RouteEntry :=
  [ mkRoute POST [lit "issues"; param "issueId"; lit "comments"]
            "getProjectFromIssue" "createComment";
    mkRoute GET [lit "issues"; param "issueId"; lit "comments"]
            "getProjectFromIssue" "getIssueComments";
    mkRoute GET [param "id"] "checkCommentPermission" "getComment";
    mkRoute PUT [param "id"] "checkCommentPermission" "updateComment";
    mkRoute DELETE [param "id"] "checkCommentPermission" "deleteComment";
    mkRoute GET [lit "my-comments"] "" "getMyComments" ].

(** ** Comment routes (routes/commentRoutes.js) *)

Definition POST_comments (st : Store) (user : User.t) (newId issueId : ObjectId)
    (content : string) (attachments : option (list ObjectId)) : Answer Comment.t * Store :=
  guardedA st (getProjectFromIssue st user issueId)
    (createComment st user newId issueId content attachments).

Definition GET_comments (st : Store) (user : User.t) (id : ObjectId) : Answer Comment.t :=
  match checkCommentPermission st user GET id with
  | next => getComment st user id
  | denied s m => failed s m
  end.

Definition PUT_comments (st : Store) (user : User.t) (id : ObjectId)
    (content : string) (attachments : option (list ObjectId)) : Answer Comment.t * Store :=
  guardedA st (checkCommentPermission st user PUT id)
    (updateComment st user id content attachments).

Definition DELETE_comments (st : Store) (user : User.t) (id : ObjectId)
    : Answer string * Store :=
  guardedA st (checkCommentPermission st user DELETE id) (deleteComment st user id).

(** ** All writing routes

    The routes of the project and issue routers, the comment routes with
    their guards, and the upload. *)

Inductive Action :=
| tracker (r : Request)
| POST_issues_issueId_comments (newId issueId : ObjectId) (content : string)
    (attachments : option (list ObjectId))
| PUT_comments_id (id : ObjectId) (content : string) (attachments : option (list ObjectId))
| DELETE_comments_id (id : ObjectId)
| POST_attachments (newId : ObjectId) (file : option Upload.file)
    (result : option Upload.result).

Definition perform (st : Store) (user : User.t) (a : Action) : Store :=
  match a with
  | tracker r => snd (route st user r)
  | POST_issues_issueId_comments newId issueId content attachments =>
    snd (POST_comments st user newId issueId content attachments)
  | PUT_comments_id id content attachments =>
    snd (PUT_comments st user id content attachments)
  | DELETE_comments_id id => snd (DELETE_comments st user id)
  | POST_attachments newId file result =>
    snd (uploadAttachment st user newId file result)
  end.

Fixpoint run (st : Store) (l : list (User.t * Action)) : Store :=
  match l with
  | [] => st
  | (user, a) :: l => run (perform st user a) l
  end.

(** ** Predicates of the further properties *)



(** The store after Alice created project DEMO and two issues in it and
    then deleted the first issue. *)
Definition storeAfterDeletion : Store :=
  Eval vm_compute in
    serve emptyStore
      [ (alice, POST_projects "p1" "Demo" "A demo project" "DEMO");
        (alice, POST_projects_id_issues "i1" "p1" (sampleBody Js.undefined));
        (alice, POST_projects_id_issues "i2" "p1" (sampleBody Js.undefined));
        (alice, DELETE_issues_id "i1") ].

(** The invited store after Alice also invited erin@x.com at time
    700000000, when Dave's invite had expired. *)
Definition reinvitedStore : Store :=
  Eval vm_compute in
    snd (route invitedStore alice
           (POST_projects_id_invite "p1" "erin@x.com" "" "tok2" 700000000 true)).

Definition erinInvite : Invite.t :=
  {| Invite.email := "erin@x.com";
     Invite.role := "developer";
     Invite.invitedBy := "u1";
     Invite.token := "tok2";
     Invite.expiresAt := 1304800000 |}.

Definition demoReinvited : Project.t :=
  Project.with_pendingInvites [daveInvite; erinInvite] demo.

(** ** Well-formed stores *)

(** A project document as the handlers leave it: valid for the schema,
    each member listed once, the owner among them, the key in upper case. *)
Definition soundProject (p : Project.t) : Prop :=
  Project.validate p = true
  /\ NoDup (Project.member p)
  /\ ownerIsMember p
  /\ Js.toUpperCase (Project.key p) = Project.key p.

Definition soundProjects (c : list Project.t) : Prop :=
  NoDup (map Project._id c)
  /\ NoDup (map Project.key c)
  /\ forall p, In p c -> soundProject p.

Definition soundIssues (c : list Issue.t) : Prop :=
  NoDup (map Issue._id c)
  /\ NoDup (map Issue.key c)
  /\ forall i, In i c -> Issue.validate i = true.

Definition soundComments (c : list Comment.t) : Prop :=
  NoDup (map Comment._id c)
  /\ forall d, In d c -> Comments.validate d = true.

(** Every issue lies in a stored project. *)
Definition issuesHaveProject (st : Store) : Prop :=
  forall i, In i (issues st) -> In (Issue.projectId i) (map Project._id (projects st)).

Record wellFormed (st : Store) : Prop := mkWellFormed {
  wf_projects : soundProjects (projects st);
  wf_issues : soundIssues (issues st);
  wf_comments : soundComments (comments st);
  wf_attachments : NoDup (map Attachment._id (attachments st));
  wf_refs : issuesHaveProject st
}.

(** * Properties *)

(** ** Array helpers *)

Lemma includes_In (l : list string) (s : string) :
  Js.includes l s = true <-> In s l.
Proof.
  unfold Js.includes. rewrite existsb_exists. split.
  - intros [x [Hx Heq]]. apply String.eqb_eq in Heq. now subst.
  - intros H. exists s. split; [assumption | apply String.eqb_refl].
Qed.

Lemma some_eqb_In (l : list string) (s : string) :
  Js.some (fun x => x =? s) l = true <-> In s l.
Proof.
  unfold Js.some. rewrite existsb_exists. split.
  - intros [x [Hx Heq]]. apply String.eqb_eq in Heq. now subst.
  - intros H. exists s. split; [assumption | apply String.eqb_refl].
Qed.

Lemma isMember_In (project : Project.t) (user : User.t) :
  isMember project user = true <-> In (User._id user) (Project.member project).
Proof. apply some_eqb_In. Qed.

Lemma In_splice1 {A} (i : nat) (l : list A) (x : A) :
  In x (Js.splice1 i l) -> In x l.
Proof.
  revert i. induction l as [|a l IH]; intros i H; simpl in *.
  - destruct i; assumption.
  - destruct i; simpl in *; [now right|]. destruct H; [now left | right; eauto].
Qed.

(** ** The pre-save hook and the saved documents *)

Lemma preSave_ownerIsMember (p : Project.t) : ownerIsMember (Project.preSave p).
Proof.
  unfold ownerIsMember, Project.preSave.
  destruct (Js.includes (Project.member p) (Project.owner p)) eqn:E; simpl.
  - now apply includes_In.
  - now left.
Qed.

Lemma preSave_fields (p : Project.t) :
  Project._id (Project.preSave p) = Project._id p
  /\ Project.owner (Project.preSave p) = Project.owner p
  /\ Project.pendingInvites (Project.preSave p) = Project.pendingInvites p
  /\ Project.key (Project.preSave p) = Project.key p.
Proof. unfold Project.preSave. destruct (negb _); simpl; auto. Qed.

Lemma preSave_id (p : Project.t) : ownerIsMember p -> Project.preSave p = p.
Proof.
  unfold ownerIsMember, Project.preSave. intros H.
  apply includes_In in H. now rewrite H.
Qed.

(** Every document of the collection after a save is an old one or the
    saved one, and the saved one went through the hook. *)
Lemma save_docs c p p' l :
  Project.save c p = Some (p', l) ->
  p' = Project.preSave p /\ forall q, In q l -> In q c \/ q = p'.
Proof.
  unfold Project.save. destruct (Project.validate p); [|discriminate].
  intros H. injection H as <- <-. split; [reflexivity|].
  intros q Hq. apply in_map_iff in Hq. destruct Hq as [d [Hd Hin]].
  destruct (_ =? _); subst; auto.
Qed.

Lemma create_docs c p p' l :
  Project.create c p = Some (p', l) ->
  p' = Project.preSave p /\ l = c ++ [p'].
Proof.
  unfold Project.create. destruct (_ && _); [|discriminate].
  intros H. now injection H as <- <-.
Qed.

Lemma written_refl st : written st st.
Proof. intros p H. now left. Qed.

Lemma written_trans st1 st2 st3 : written st1 st2 -> written st2 st3 -> written st1 st3.
Proof.
  intros H12 H23 p Hp. destruct (H23 p Hp) as [H|H]; [auto | now right].
Qed.

Lemma written_save st p p' l :
  Project.save (projects st) p = Some (p', l) -> written st (setProjects l st).
Proof.
  intros H p0 Hp0. apply save_docs in H. destruct H as [-> Hl].
  simpl in Hp0. destruct (Hl _ Hp0) as [?| ->]; [now left|].
  right. apply preSave_ownerIsMember.
Qed.

Lemma written_create st p p' l :
  Project.create (projects st) p = Some (p', l) -> written st (setProjects l st).
Proof.
  intros H p0 Hp0. apply create_docs in H. destruct H as [-> ->].
  simpl in Hp0. apply in_app_or in Hp0. destruct Hp0 as [?|[<-|[]]]; [now left|].
  right. apply preSave_ownerIsMember.
Qed.

Lemma written_same st st' : projects st' = projects st -> written st st'.
Proof. intros E p H. left. now rewrite <- E. Qed.

Lemma written_setIssues st l : written st (setIssues l st).
Proof. now apply written_same. Qed.

Create HintDb store.
#[local] Hint Resolve written_refl written_setIssues : store.

(** Walks through the branches of a handler; the branches that write
    nothing are closed on the way. *)
Ltac handler_cases :=
  repeat (simpl; first [ apply written_refl | break_match ]).

Lemma createProject_written st user newId name description key :
  written st (snd (createProject st user newId name description key)).
Proof.
  unfold createProject. handler_cases. eapply written_create; eauto.
Qed.

Lemma updateProject_written st user id name description key :
  written st (snd (updateProject st user id name description key)).
Proof.
  unfold updateProject. handler_cases. eapply written_save; eauto.
Qed.

Lemma deleteProject_written st user id :
  written st (snd (deleteProject st user id)).
Proof.
  unfold deleteProject. handler_cases.
  intros p Hp. simpl in Hp. left. unfold Project.findByIdAndDelete in Hp.
  now apply filter_In in Hp.
Qed.

Lemma inviteMember_written st user id email role inviteToken now emailSent :
  written st (snd (inviteMember st user id email role inviteToken now emailSent)).
Proof.
  unfold inviteMember, Js.find.
  repeat (simpl; first [ apply written_refl | break_match ]);
    try (eapply written_save; eassumption).
  eapply written_trans; [eapply written_save; eassumption|].
  intros q Hq. simpl in Hq.
  match goal with
  | H : Project.save l _ = Some _ |- _ => apply save_docs in H; destruct H as [-> Hl]
  end.
  destruct (Hl _ Hq) as [?| ->]; [now left | right; apply preSave_ownerIsMember].
Qed.

Lemma acceptInvitation_written st user token now :
  written st (snd (acceptInvitation st user token now)).
Proof.
  unfold acceptInvitation, Js.find. handler_cases; eapply written_save; eauto.
Qed.

Lemma removeMember_written st user id memberId :
  written st (snd (removeMember st user id memberId)).
Proof.
  unfold removeMember. handler_cases. eapply written_save; eauto.
Qed.

Lemma guarded_written st g h : written st (snd h) -> written st (snd (guarded st g h)).
Proof. destruct g; simpl; auto with store. Qed.

Lemma route_written st user r : written st (snd (route st user r)).
Proof.
  destruct r; unfold route; try apply guarded_written.
  - apply createProject_written.
  - apply updateProject_written.
  - apply deleteProject_written.
  - apply inviteMember_written.
  - apply acceptInvitation_written.
  - apply removeMember_written.
  - unfold createIssue. handler_cases; simpl; auto with store.
  - unfold updateIssue. handler_cases; simpl; auto with store.
  - unfold deleteIssue. handler_cases; simpl; now apply written_same.
  - unfold assignIssue. handler_cases; simpl; auto with store.
  - unfold updateIssueStatus. handler_cases; simpl; auto with store.
Qed.

Lemma route_ownerIsMember st user r :
  Forall ownerIsMember (projects st) ->
  Forall ownerIsMember (projects (snd (route st user r))).
Proof.
  intros H. apply Forall_forall. intros p Hp.
  destruct (route_written st user r p Hp) as [Hin|Hw]; [|assumption].
  rewrite Forall_forall in H. now apply H.
Qed.

Lemma serve_ownerIsMember l : forall st,
  Forall ownerIsMember (projects st) ->
  Forall ownerIsMember (projects (serve st l)).
Proof.
  induction l as [|[user r] l IH]; intros st H; simpl; [assumption|].
  apply IH. now apply route_ownerIsMember.
Qed.

Lemma createProject_members st user newId name description key p st' :
  createProject st user newId name description key = (json Created (projectData p), st') ->
  Project.owner p = User._id user /\ Project.member p = [User._id user].
Proof.
  unfold createProject.
  destruct (Project.findOneByKey _ _); [discriminate|].
  destruct (Project.create _ _) as [[q l]|] eqn:E; [|discriminate].
  intros H. injection H as <- <-.
  apply create_docs in E. destruct E as [-> _].
  rewrite preSave_id; [simpl; auto | unfold ownerIsMember; simpl; auto].
Qed.

Lemma removeMember_owner_self st user id project :
  Project.findById (projects st) id = Some project ->
  Project.owner project = User._id user ->
  route st user (DELETE_projects_id_members id (User._id user))
  = (throw BadRequest "Project owner cannot remove themselves", st).
Proof.
  intros Hf Ho. unfold route, checkProjectOwner, removeMember.
  rewrite Hf, Ho, String.eqb_refl. reflexivity.
Qed.

(** C1.  Owner membership: every project document that a request writes
    (create, update, invite, accept-invite, remove-member) has its owner in
    its member list, whatever the store was before; hence the invariant
    holds in every store reached from the empty one and is kept by every
    request.  The three mechanisms: [createProject] starts the member list
    as the owner alone, every save runs the hook that puts a missing owner
    back, and the owner asking to remove themselves is refused with a 400
    and no write. *)
Theorem owner_always_member :
  (forall st user r p,
      In p (projects (snd (route st user r))) -> ~ In p (projects st) -> ownerIsMember p)
  /\ (forall l, Forall ownerIsMember (projects (serve emptyStore l)))
  /\ (forall st l,
        Forall ownerIsMember (projects st) -> Forall ownerIsMember (projects (serve st l)))
  /\ (forall st user newId name description key p st',
        route st user (POST_projects newId name description key)
        = (json Created (projectData p), st') ->
        Project.owner p = User._id user /\ Project.member p = [User._id user])
  /\ (forall c p p' l, Project.save c p = Some (p', l) -> ownerIsMember p')
  /\ (forall st user id project,
        Project.findById (projects st) id = Some project ->
        Project.owner project = User._id user ->
        route st user (DELETE_projects_id_members id (User._id user))
        = (throw BadRequest "Project owner cannot remove themselves", st)).
Proof.
  repeat split.
  - intros st user r p Hp Hn. destruct (route_written st user r p Hp); [contradiction | assumption].
  - intros l. apply serve_ownerIsMember. constructor.
  - intros st l. apply serve_ownerIsMember.
  - eapply createProject_members; eassumption.
  - eapply createProject_members; eassumption.
  - intros c p p' l H. apply save_docs in H. destruct H as [-> _]. apply preSave_ownerIsMember.
  - apply removeMember_owner_self.
Qed.

Lemma owner_always_member_witness : ownerIsMember demoWithoutBob.
Proof.
  apply (proj1 owner_always_member sampleStore alice
               (DELETE_projects_id_members "p1" "u2") demoWithoutBob).
  - vm_compute. left. reflexivity.
  - simpl. intros [H|[]]. discriminate H.
Defined.

(** ** Assignee validation *)

Lemma isAssigneeMember_str project a :
  isAssigneeMember project (Js.str a) = true <-> In a (Project.member project).
Proof. unfold isAssigneeMember. simpl. apply some_eqb_In. Qed.

Lemma refusedAssignee_check project v :
  refusedAssignee project v ->
  Js.truthy v && negb (isAssigneeMember project v) = true.
Proof.
  intros [a [-> [Hne Hnin]]]. simpl.
  apply String.eqb_neq in Hne. rewrite Hne. simpl.
  destruct (isAssigneeMember project (Js.str a)) eqn:E; [|reflexivity].
  apply isAssigneeMember_str in E. contradiction.
Qed.

(** What is stored for a body value that passed the membership test. *)
Lemma checked_assignee_member project v o a :
  Js.truthy v && negb (isAssigneeMember project v) = false ->
  castObjectId (Js.or v Js.null) = Some o ->
  o = Some a -> In a (Project.member project).
Proof.
  destruct v as [| |s]; simpl; try (intros _ H; injection H as <-; discriminate).
  unfold Js.or. simpl. destruct (s =? "") eqn:Es; simpl.
  - intros _ H. injection H as <-. discriminate.
  - rewrite Es. intros Hc H. injection H as <-. intros Ha. injection Ha as <-.
    apply isAssigneeMember_str. now destruct (isAssigneeMember project (Js.str s)).
Qed.

Lemma createIssue_refuses st user newId projectId body project :
  Project.findById (projects st) projectId = Some project ->
  isMember project user = true ->
  refusedAssignee project (assignee body) ->
  createIssue st user newId projectId body
  = (throw BadRequest "Assignee must be a project member", st).
Proof.
  intros Hf Hm Hr. unfold createIssue. rewrite Hf, Hm. simpl.
  now rewrite (refusedAssignee_check _ _ Hr).
Qed.

Lemma createIssue_assignee st user newId projectId body project s i st' a :
  Project.findById (projects st) projectId = Some project ->
  createIssue st user newId projectId body = (json s (issueData i), st') ->
  Issue.assignee i = Some a -> In a (Project.member project).
Proof.
  intros Hf. unfold createIssue. rewrite Hf.
  destruct (negb (isMember project user)); [discriminate|].
  destruct (Js.truthy _ && _) eqn:Hc; [discriminate|].
  destruct (castObjectId _) as [o|] eqn:Ho; [|discriminate].
  destruct (Issue.create _ _) as [[j l]|] eqn:Ec; [|discriminate].
  intros H. injection H as _ <- _.
  unfold Issue.create in Ec. destruct (_ && _) in Ec; [|discriminate].
  injection Ec as <- _. simpl. intros Ha.
  eapply checked_assignee_member; eassumption.
Qed.

Lemma not_actor_check issue project user :
  negb (Project.owner project =? User._id user)
  && negb (Issue.reporter issue =? User._id user)
  && negb (isAssignee issue user)
  = negb (isIssueActor issue project user).
Proof.
  unfold isIssueActor.
  destruct (_ =? _), (_ =? _), (isAssignee issue user); reflexivity.
Qed.

Lemma issue_save_doc c i i' l :
  Issue.save c i = Some (i', l) ->
  i' = i /\ Issue.validate i = true
  /\ l = map (fun d => if Issue._id d =? Issue._id i then i else d) c.
Proof.
  unfold Issue.save. destruct (Issue.validate i); [|discriminate].
  intros H. now injection H as <- <-.
Qed.

Lemma updateIssue_refuses st user id body issue project :
  Issue.findById (issues st) id = Some issue ->
  Project.findById (projects st) (Issue.projectId issue) = Some project ->
  isMember project user = true ->
  isIssueActor issue project user = true ->
  refusedAssignee project (assignee body) ->
  updateIssue st user id body
  = (throw BadRequest "Assignee must be a project member", st).
Proof.
  intros Hi Hp Hm Ha Hr. unfold updateIssue. rewrite Hi, Hp, Hm. simpl.
  rewrite not_actor_check, Ha. simpl.
  now rewrite (refusedAssignee_check _ _ Hr).
Qed.

Lemma updateIssue_assignee st user id body issue project s i st' a :
  Issue.findById (issues st) id = Some issue ->
  Project.findById (projects st) (Issue.projectId issue) = Some project ->
  assignee body <> Js.undefined ->
  updateIssue st user id body = (json s (issueData i), st') ->
  Issue.assignee i = Some a -> In a (Project.member project).
Proof.
  intros Hi Hp Hu. unfold updateIssue. rewrite Hi, Hp.
  destruct (negb (isMember project user)); [discriminate|].
  destruct (_ && _ && _); [discriminate|].
  destruct (Js.truthy _ && _) eqn:Hc; [discriminate|].
  destruct (assignee body) as [| |v] eqn:Ev; [contradiction| |].
  - simpl. destruct (Issue.save _ _) as [[j l]|] eqn:Es; [|discriminate].
    intros H. injection H as _ <- _. apply issue_save_doc in Es.
    destruct Es as [-> _]. simpl. discriminate.
  - destruct (castObjectId (Js.str v)) as [o|] eqn:Ho; [|discriminate].
    destruct (Issue.save _ _) as [[j l]|] eqn:Es; [|discriminate].
    intros H. injection H as _ <- _. apply issue_save_doc in Es.
    destruct Es as [-> _]. simpl. intros Ha.
    apply (checked_assignee_member project (Js.str v) o a); auto.
    unfold Js.or, Js.truthy, castObjectId in *. revert Ho. cbn.
    destruct (v =? "") eqn:E; simpl; rewrite ?E; intros H; [discriminate H | exact H].
Qed.

Lemma assignIssue_refuses st user id assigneeId assignee issue project :
  Issue.findById (issues st) id = Some issue ->
  Project.findById (projects st) (Issue.projectId issue) = Some project ->
  isMember project user = true ->
  refusedAssignee project (Js.or assigneeId assignee) ->
  assignIssue st user id assigneeId assignee
  = (throw BadRequest "Assignee must be a project member", st).
Proof.
  intros Hi Hp Hm Hr. unfold assignIssue. rewrite Hi, Hp, Hm. simpl.
  now rewrite (refusedAssignee_check _ _ Hr).
Qed.

Lemma assignIssue_assignee st user id assigneeId assignee issue project s i st' a :
  Issue.findById (issues st) id = Some issue ->
  Project.findById (projects st) (Issue.projectId issue) = Some project ->
  assignIssue st user id assigneeId assignee = (json s (issueData i), st') ->
  Issue.assignee i = Some a -> In a (Project.member project).
Proof.
  intros Hi Hp. unfold assignIssue. rewrite Hi, Hp.
  destruct (negb (isMember project user)); [discriminate|].
  destruct (Js.truthy _ && _) eqn:Hc; [discriminate|].
  destruct (castObjectId _) as [o|] eqn:Ho; [|discriminate].
  destruct (Issue.save _ _) as [[j l]|] eqn:Es; [|discriminate].
  intros H. injection H as _ <- _. apply issue_save_doc in Es.
  destruct Es as [-> _]. simpl. intros Ha.
  eapply checked_assignee_member; eassumption.
Qed.

Lemma guarded_next st g h : g = next -> guarded st g h = h.
Proof. now intros ->. Qed.

Lemma guarded_json st g h s b st' :
  guarded st g h = (json s b, st') -> g = next /\ h = (json s b, st').
Proof. destruct g; simpl; [auto | discriminate]. Qed.

Lemma checkProjectMember_next st user projectId project :
  Project.findById (projects st) projectId = Some project ->
  checkProjectMember st user projectId = next ->
  isMember project user = true.
Proof.
  intros Hp. unfold checkProjectMember. rewrite Hp.
  now destruct (isMember project user).
Qed.

Lemma checkIssuePermission_write st user id issue project :
  Issue.findById (issues st) id = Some issue ->
  Project.findById (projects st) (Issue.projectId issue) = Some project ->
  checkIssuePermission st user PUT id =
    if negb (isMember project user)
    then denied Forbidden "Access denied - Not a project member"
    else if negb (isIssueActor issue project user)
         then denied Forbidden
                "Access denied - Only project owner, reporter, or assignee can modify this issue"
         else next.
Proof.
  intros Hi Hp. unfold checkIssuePermission. rewrite Hi, Hp.
  destruct (negb (isMember project user)); [reflexivity|].
  now rewrite not_actor_check.
Qed.

Lemma checkIssuePermission_next st user id issue project :
  Issue.findById (issues st) id = Some issue ->
  Project.findById (projects st) (Issue.projectId issue) = Some project ->
  checkIssuePermission st user PUT id = next ->
  isMember project user = true /\ isIssueActor issue project user = true.
Proof.
  intros Hi Hp. rewrite (checkIssuePermission_write _ user _ _ _ Hi Hp).
  destruct (isMember project user), (isIssueActor issue project user);
    simpl; intros H; try discriminate H; auto.
Qed.

(** C2 as stated fails: the empty string is a non-null assignee that is no
    member's id, and neither [createIssue] nor [assignIssue] answers 400;
    both store [null], and the second clears the assignee Bob. *)
Lemma empty_assignee_not_refused :
  Js.str "" <> Js.null
  /\ ~ In "" (Project.member demo)
  /\ (exists i st',
        route sampleStore alice (POST_projects_id_issues "i3" "p1" (sampleBody (Js.str "")))
        = (json Created (issueData i), st')
        /\ Issue.assignee i = None)
  /\ route sampleStore alice (PUT_issues_id_assign "i1" Js.undefined (Js.str ""))
     = (json OK (issueData (Issue.with_assignee None demo1)),
        setIssues [Issue.with_assignee None demo1; demo2] sampleStore).
Proof.
  split; [discriminate|]. split.
  - simpl. intros [H|[H|[H|[]]]]; discriminate H.
  - split; [eexists; eexists; split|]; vm_compute; reflexivity.
Qed.

(** C2, amended.  A request that passed its route guard and names as
    assignee a non-empty string that is no member's id is answered 400
    "Assignee must be a project member" with the store unchanged, by each
    of create, update and assign; and whenever one of the three writes an
    issue with a non-null assignee it set, that assignee is a member of
    the parent project at that moment. *)
Theorem assignee_checked_against_members :
  (forall st user newId projectId body project,
      Project.findById (projects st) projectId = Some project ->
      checkProjectMember st user projectId = next ->
      refusedAssignee project (assignee body) ->
      route st user (POST_projects_id_issues newId projectId body)
      = (throw BadRequest "Assignee must be a project member", st))
  /\ (forall st user id body issue project,
        Issue.findById (issues st) id = Some issue ->
        Project.findById (projects st) (Issue.projectId issue) = Some project ->
        checkIssuePermission st user PUT id = next ->
        refusedAssignee project (assignee body) ->
        route st user (PUT_issues_id id body)
        = (throw BadRequest "Assignee must be a project member", st))
  /\ (forall st user id assigneeId assignee issue project,
        Issue.findById (issues st) id = Some issue ->
        Project.findById (projects st) (Issue.projectId issue) = Some project ->
        checkIssuePermission st user PUT id = next ->
        refusedAssignee project (Js.or assigneeId assignee) ->
        route st user (PUT_issues_id_assign id assigneeId assignee)
        = (throw BadRequest "Assignee must be a project member", st))
  /\ (forall st user newId projectId body project s i st' a,
        Project.findById (projects st) projectId = Some project ->
        route st user (POST_projects_id_issues newId projectId body)
        = (json s (issueData i), st') ->
        Issue.assignee i = Some a -> In a (Project.member project))
  /\ (forall st user id body issue project s i st' a,
        Issue.findById (issues st) id = Some issue ->
        Project.findById (projects st) (Issue.projectId issue) = Some project ->
        assignee body <> Js.undefined ->
        route st user (PUT_issues_id id body) = (json s (issueData i), st') ->
        Issue.assignee i = Some a -> In a (Project.member project))
  /\ (forall st user id assigneeId assignee issue project s i st' a,
        Issue.findById (issues st) id = Some issue ->
        Project.findById (projects st) (Issue.projectId issue) = Some project ->
        route st user (PUT_issues_id_assign id assigneeId assignee)
        = (json s (issueData i), st') ->
        Issue.assignee i = Some a -> In a (Project.member project)).
Proof.
  repeat apply conj.
  - intros st user newId projectId body project Hp Hg Hr. simpl.
    rewrite (guarded_next _ _ _ Hg).
    eapply createIssue_refuses; eauto using checkProjectMember_next.
  - intros st user id body issue project Hi Hp Hg Hr. simpl.
    rewrite (guarded_next _ _ _ Hg).
    destruct (checkIssuePermission_next _ _ _ _ _ Hi Hp Hg).
    eapply updateIssue_refuses; eauto.
  - intros st user id assigneeId assignee issue project Hi Hp Hg Hr. simpl.
    rewrite (guarded_next _ _ _ Hg).
    destruct (checkIssuePermission_next _ _ _ _ _ Hi Hp Hg).
    eapply assignIssue_refuses; eauto.
  - intros st user newId projectId body project s i st' a Hp H. simpl in H.
    apply guarded_json in H. destruct H as [_ H].
    eapply createIssue_assignee; eauto.
  - intros st user id body issue project s i st' a Hi Hp Hu H. simpl in H.
    apply guarded_json in H. destruct H as [_ H].
    eapply updateIssue_assignee; eauto.
  - intros st user id assigneeId assignee issue project s i st' a Hi Hp H. simpl in H.
    apply guarded_json in H. destruct H as [_ H].
    eapply assignIssue_assignee; eauto.
Qed.

Lemma assignee_checked_against_members_witness :
  route sampleStore alice (POST_projects_id_issues "i3" "p1" (sampleBody (Js.str "u9")))
  = (throw BadRequest "Assignee must be a project member", sampleStore).
Proof.
  apply (proj1 assignee_checked_against_members sampleStore alice "i3" "p1"
               (sampleBody (Js.str "u9")) demo).
  - reflexivity.
  - reflexivity.
  - exists "u9". split; [reflexivity|]. split; [discriminate|].
    simpl. intros [H|[H|[H|[]]]]; discriminate H.
Defined.

(** ** Status updates *)

Lemma isAssignee_true issue user :
  isAssignee issue user = true <-> Issue.assignee issue = Some (User._id user).
Proof.
  unfold isAssignee. destruct (Issue.assignee issue) as [a|]; split; intros H;
    try discriminate H.
  - apply String.eqb_eq in H. now subst.
  - injection H as ->. apply String.eqb_refl.
Qed.

Lemma assignee_check issue user :
  negb (found (Issue.assignee issue)) || negb (isAssignee issue user)
  = negb (isAssignee issue user).
Proof. unfold isAssignee. now destruct (Issue.assignee issue). Qed.

Lemma isAssignee_actor issue project user :
  isAssignee issue user = true -> isIssueActor issue project user = true.
Proof. unfold isIssueActor. intros ->. apply orb_true_r. Qed.

Lemma validate_with_status issue status :
  Issue.validate issue = true ->
  Js.includes Issue.statuses status = true ->
  Issue.validate (Issue.with_status status issue) = true.
Proof.
  unfold Issue.validate. simpl. intros H Hs.
  apply andb_true_iff in H. destruct H as [H1 Hp].
  apply andb_true_iff in H1. destruct H1 as [H2 _].
  now rewrite H2, Hs, Hp.
Qed.

(** The controller on its own: the assignee test, then the enum test, then
    the save. *)
Lemma updateIssueStatus_cases st user id status issue :
  Issue.findById (issues st) id = Some issue ->
  Issue.validate issue = true ->
  updateIssueStatus st user id status =
    if negb (isAssignee issue user)
    then (throw Forbidden "Access denied - Only the assignee can update the status", st)
    else if negb (Js.includes Issue.statuses status)
         then (throw BadRequest "Invalid status value", st)
         else (json OK (issueData (Issue.with_status status issue)),
               setIssues
                 (map (fun d => if Issue._id d =? Issue._id issue
                                then Issue.with_status status issue else d)
                      (issues st))
                 st).
Proof.
  intros Hi Hv. unfold updateIssueStatus. rewrite Hi, assignee_check.
  destruct (negb (isAssignee issue user)); [reflexivity|].
  destruct (Js.includes Issue.statuses status) eqn:Hs; [|reflexivity]. simpl.
  unfold Issue.save. now rewrite (validate_with_status _ _ Hv Hs).
Qed.

(** C3 as stated fails on the route: Bob is the current assignee of DEMO-1
    and asks for the valid status "done", but he is no longer a member of
    the project and the guard of the route answers 403. *)
Lemma removed_assignee_status_forbidden :
  Issue.findById (issues storeWithoutBob) "i1" = Some demo1
  /\ Issue.assignee demo1 = Some (User._id bob)
  /\ In "done" Issue.statuses
  /\ route storeWithoutBob bob (PUT_issues_id_status "i1" "done")
     = (throw Forbidden "Access denied - Not a project member", storeWithoutBob).
Proof.
  repeat split; try reflexivity. simpl. tauto.
Qed.

(** C3, amended.  For a stored issue of a stored project, the status route
    succeeds if and only if the caller is a current member of the project,
    is the issue's current assignee, and asks for one of todo, inprogress,
    done.  Whoever is not the assignee gets a 403, the assignee (a member)
    asking for another value gets the 400 "Invalid status value", and a
    request that does not succeed leaves the store as it was; a successful
    one stores the requested status. *)
Theorem status_update_by_member_assignee st user id status issue project :
  Issue.findById (issues st) id = Some issue ->
  Project.findById (projects st) (Issue.projectId issue) = Some project ->
  Issue.validate issue = true ->
  let reply := route st user (PUT_issues_id_status id status) in
  (succeeded (fst reply) = true <->
     In (User._id user) (Project.member project)
     /\ Issue.assignee issue = Some (User._id user)
     /\ In status Issue.statuses)
  /\ (Issue.assignee issue <> Some (User._id user) ->
      exists m, reply = (throw Forbidden m, st))
  /\ (In (User._id user) (Project.member project) ->
      Issue.assignee issue = Some (User._id user) ->
      ~ In status Issue.statuses ->
      reply = (throw BadRequest "Invalid status value", st))
  /\ (succeeded (fst reply) = false -> snd reply = st)
  /\ (succeeded (fst reply) = true ->
      exists st', reply = (json OK (issueData (Issue.with_status status issue)), st')
                  /\ Issue.findById (issues st') id = Some (Issue.with_status status issue)).
Proof.
  intros Hi Hp Hv reply. subst reply. unfold route.
  rewrite (checkIssuePermission_write _ user _ _ _ Hi Hp).
  rewrite (updateIssueStatus_cases _ user _ status _ Hi Hv).
  pose proof (isMember_In project user) as Hm.
  pose proof (isAssignee_true issue user) as Ha.
  pose proof (includes_In Issue.statuses status) as Hs.
  pose proof (isAssignee_actor issue project user) as Hact.
  destruct (isMember project user); cbn [negb fst snd succeeded guarded].
  2:{ assert (~ In (User._id user) (Project.member project)) as Hn
        by (intros H; apply Hm in H; discriminate H).
      split; [split; [discriminate | tauto]|].
      split; [eauto|]. split; [tauto|]. split; [reflexivity | discriminate]. }
  destruct (isAssignee issue user); cbn [negb fst snd succeeded guarded].
  2:{ assert (Issue.assignee issue <> Some (User._id user)) as Hn
        by (intros H; apply Ha in H; discriminate H).
      destruct (isIssueActor issue project user); cbn [negb fst snd succeeded guarded];
        (split; [split; [discriminate | tauto]|]);
        (split; [eauto|]); (split; [tauto|]); (split; [reflexivity | discriminate]). }
  rewrite (Hact eq_refl). cbn [negb fst snd succeeded guarded].
  assert (Issue.assignee issue = Some (User._id user)) as Hy by now apply Ha.
  assert (In (User._id user) (Project.member project)) as Hy' by now apply Hm.
  destruct (Js.includes Issue.statuses status); cbn [negb fst snd succeeded guarded].
  2:{ assert (~ In status Issue.statuses) as Hn
        by (intros H; apply Hs in H; discriminate H).
      split; [split; [discriminate | tauto]|].
      split; [tauto|]. split; [reflexivity|]. split; [reflexivity | discriminate]. }
  assert (In status Issue.statuses) as Hy'' by now apply Hs.
  split; [tauto|]. split; [tauto|]. split; [tauto|]. split; [discriminate|].
  - intros _. eexists. split; [reflexivity|]. simpl.
    unfold Issue.findById in *. clear - Hi.
    induction (issues st) as [|d l IH]; simpl in *; [discriminate|].
    destruct (Issue._id d =? id) eqn:E.
    + injection Hi as ->. rewrite String.eqb_refl. simpl. now rewrite E.
    + destruct (Issue._id d =? Issue._id issue) eqn:E2; simpl.
      * apply String.eqb_eq in E2.
        assert (Issue._id issue = id) as <-.
        { apply find_some in Hi. destruct Hi as [_ Hi']. now apply String.eqb_eq in Hi'. }
        rewrite E2, String.eqb_refl in E. discriminate E.
      * rewrite E. auto.
Qed.

Lemma status_update_by_member_assignee_witness :
  exists st',
    route sampleStore bob (PUT_issues_id_status "i1" "done")
    = (json OK (issueData (Issue.with_status "done" demo1)), st')
    /\ Issue.findById (issues st') "i1" = Some (Issue.with_status "done" demo1).
Proof.
  destruct (status_update_by_member_assignee sampleStore bob "i1" "done" demo1 demo
              eq_refl eq_refl eq_refl) as [_ [_ [_ [_ H]]]].
  apply H. reflexivity.
Defined.

(** ** Reassignment *)

(** The guard of [PUT /:id/assign] turns away a member who is no actor of
    the issue, before the controller runs. *)
Lemma assign_route_requires_actor st user id assigneeId assignee issue project :
  Issue.findById (issues st) id = Some issue ->
  Project.findById (projects st) (Issue.projectId issue) = Some project ->
  isMember project user = true ->
  isIssueActor issue project user = false ->
  route st user (PUT_issues_id_assign id assigneeId assignee)
  = (throw Forbidden
       "Access denied - Only project owner, reporter, or assignee can modify this issue", st).
Proof.
  intros Hi Hp Hm Ha. unfold route.
  rewrite (checkIssuePermission_write _ user _ _ _ Hi Hp), Hm, Ha. reflexivity.
Qed.

(** The controller on its own asks for membership only. *)
Lemma assignIssue_member_only st user id a issue project :
  Issue.findById (issues st) id = Some issue ->
  Project.findById (projects st) (Issue.projectId issue) = Some project ->
  Issue.validate issue = true ->
  isMember project user = true ->
  a <> "" -> In a (Project.member project) ->
  fst (assignIssue st user id (Js.str a) Js.undefined)
  = json OK (issueData (Issue.with_assignee (Some a) issue)).
Proof.
  intros Hi Hp Hv Hm Hne Hin. unfold assignIssue. rewrite Hi, Hp, Hm.
  apply String.eqb_neq in Hne.
  assert (Js.or (Js.str a) Js.undefined = Js.str a) as ->
    by (unfold Js.or, Js.truthy; now rewrite Hne).
  apply isAssigneeMember_str in Hin. unfold Js.truthy. rewrite Hne, Hin.
  cbn [negb andb]. unfold Js.or, Js.truthy. rewrite Hne. cbn [negb castObjectId].
  rewrite Hne. unfold Issue.save.
  assert (Issue.validate (Issue.with_assignee (Some a) issue) = true) as -> by exact Hv.
  reflexivity.
Qed.

(** C4 fails on the code.  Carol is a member of the project, and neither
    its owner nor the reporter nor the assignee of DEMO-1; her request to
    take the issue is answered 403 by the guard of the route, although the
    controller alone would have accepted it. *)
Theorem plain_member_cannot_reassign :
  isMember demo carol = true
  /\ isIssueActor demo1 demo carol = false
  /\ route sampleStore carol (PUT_issues_id_assign "i1" (Js.str "u3") Js.undefined)
     = (throw Forbidden
          "Access denied - Only project owner, reporter, or assignee can modify this issue",
        sampleStore)
  /\ route sampleStore carol (PUT_issues_id_assign "i1" Js.null Js.undefined)
     = (throw Forbidden
          "Access denied - Only project owner, reporter, or assignee can modify this issue",
        sampleStore)
  /\ fst (assignIssue sampleStore carol "i1" (Js.str "u3") Js.undefined)
     = json OK (issueData (Issue.with_assignee (Some "u3") demo1)).
Proof. repeat split; reflexivity. Qed.

(** ** Invitations *)

Lemma find_found {A} (f : A -> bool) (l : list A) (x : A) :
  In x l -> f x = true -> exists y, List.find f l = Some y.
Proof.
  intros Hin Hf. destruct (List.find f l) as [y|] eqn:E; [eauto|].
  rewrite (find_none f l E x Hin) in Hf. discriminate Hf.
Qed.

Lemma holdsToken_existsb p tok :
  existsb (fun i => Invite.token i =? tok) (Project.pendingInvites p) = true
  <-> holdsToken p tok.
Proof.
  rewrite existsb_exists. unfold holdsToken.
  split; intros [i [Hi Ht]]; exists i; split; auto.
  - now apply String.eqb_eq.
  - now apply String.eqb_eq.
Qed.

Lemma findOneByInvite_some c tok now p :
  Project.findOneByInvite c tok now = Some p ->
  In p c /\ holdsToken p tok.
Proof.
  unfold Project.findOneByInvite. intros H. apply find_some in H.
  destruct H as [Hin H]. apply andb_true_iff in H. destruct H as [H _].
  split; [assumption | now apply holdsToken_existsb].
Qed.

Lemma findOneByInvite_valid st tok now :
  validToken st tok now ->
  exists p, Project.findOneByInvite (projects st) tok now = Some p.
Proof.
  intros [p [inv [Hp [Hinv [Ht He]]]]]. unfold Project.findOneByInvite.
  apply (find_found _ _ p Hp). apply andb_true_iff. split.
  - apply holdsToken_existsb. now exists inv.
  - apply existsb_exists. exists inv. split; [assumption | now apply Z.ltb_lt].
Qed.

Lemma findOneByInvite_none c tok now :
  (forall p, In p c -> ~ holdsToken p tok) ->
  Project.findOneByInvite c tok now = None.
Proof.
  intros H. destruct (Project.findOneByInvite c tok now) as [p|] eqn:E; [|reflexivity].
  apply findOneByInvite_some in E. destruct E as [Hin Hh]. now apply H in Hin.
Qed.

Lemma find_invite p tok :
  holdsToken p tok ->
  exists inv, Js.find (fun inv => Invite.token inv =? tok) (Project.pendingInvites p) = Some inv
              /\ In inv (Project.pendingInvites p) /\ Invite.token inv = tok.
Proof.
  intros [i [Hi Ht]]. unfold Js.find.
  destruct (find_found (fun inv => Invite.token inv =? tok) _ i Hi) as [inv E].
  - now apply String.eqb_eq.
  - exists inv. split; [assumption|]. apply find_some in E.
    destruct E as [? E]. apply String.eqb_eq in E. auto.
Qed.

(** C5.  A token that is valid and unexpired, presented by a user whose
    email differs (as a string, case included) from the email of every
    invite carrying that token, is answered 403 and nothing is written:
    the store, with the pending invite and the member lists, is the one
    before the call. *)
Theorem accept_other_email_forbidden st user token now :
  validToken st token now ->
  (forall p inv, In p (projects st) -> In inv (Project.pendingInvites p) ->
                 Invite.token inv = token -> Invite.email inv <> User.email user) ->
  route st user (POST_projects_accept_invite token now)
  = (throw Forbidden "This invitation is not for your email address", st).
Proof.
  intros Hv Hne. unfold route, acceptInvitation.
  destruct (findOneByInvite_valid _ _ _ Hv) as [p Hf]. rewrite Hf.
  destruct (findOneByInvite_some _ _ _ _ Hf) as [Hin Hh].
  destruct (find_invite _ _ Hh) as [inv [E [Hi Ht]]]. rewrite E.
  specialize (Hne p inv Hin Hi Ht). apply String.eqb_neq in Hne.
  now rewrite Hne.
Qed.

Lemma accept_other_email_forbidden_witness :
  route invitedStore carol (POST_projects_accept_invite "tok1" 2000)
  = (throw Forbidden "This invitation is not for your email address", invitedStore).
Proof.
  apply (accept_other_email_forbidden invitedStore carol "tok1" 2000).
  - exists demoInvited, daveInvite.
    split; [left; reflexivity|]. split; [left; reflexivity|].
    split; reflexivity.
  - simpl. intros p inv [<-|[]] [<-|[]] _ H. discriminate H.
Defined.

(** The query finds nothing when every project holding the token has only
    expired invites; this covers a token that no project holds. *)
Lemma findOneByInvite_expired c tok now :
  (forall p, In p c -> holdsToken p tok ->
             forall inv, In inv (Project.pendingInvites p) ->
                         (Invite.expiresAt inv <= now)%Z) ->
  Project.findOneByInvite c tok now = None.
Proof.
  intros H. unfold Project.findOneByInvite.
  destruct (List.find _ c) as [p|] eqn:E; [|reflexivity].
  apply find_some in E. destruct E as [Hin E].
  apply andb_true_iff in E. destruct E as [Et Ee].
  apply holdsToken_existsb in Et. apply existsb_exists in Ee.
  destruct Ee as [inv [Hi Hlt]]. apply Z.ltb_lt in Hlt.
  specialize (H p Hin Et inv Hi). lia.
Qed.

(** The member list that [acceptInvitation] saves: the user is pushed when
    absent, then the hook runs. *)
Lemma count_occ_unshift_absent (x y : string) (l : list string) :
  ~ In y l ->
  count_occ string_dec (Js.unshift l y) x <= Nat.max 1 (count_occ string_dec l x).
Proof.
  intros Hn. unfold Js.unshift. destruct (string_dec y x) as [->|Hne].
  - rewrite count_occ_cons_eq by reflexivity.
    apply (count_occ_not_In string_dec) in Hn. rewrite Hn. reflexivity.
  - rewrite count_occ_cons_neq by assumption. lia.
Qed.

Lemma count_occ_push_absent (x y : string) (l : list string) :
  ~ In y l ->
  count_occ string_dec (Js.push l y) x <= Nat.max 1 (count_occ string_dec l x).
Proof.
  intros Hn. unfold Js.push. rewrite count_occ_app.
  destruct (string_dec y x) as [->|Hne].
  - rewrite count_occ_cons_eq by reflexivity.
    apply (count_occ_not_In string_dec) in Hn. rewrite Hn. reflexivity.
  - rewrite count_occ_cons_neq by assumption. cbn [count_occ]. lia.
Qed.

Lemma preSave_members p :
  (forall x, In x (Project.member p) -> In x (Project.member (Project.preSave p)))
  /\ (forall x, count_occ string_dec (Project.member (Project.preSave p)) x
                <= Nat.max 1 (count_occ string_dec (Project.member p) x)).
Proof.
  unfold Project.preSave.
  destruct (Js.includes (Project.member p) (Project.owner p)) eqn:E;
    cbn [negb Project.member Project.with_member].
  - split; [auto | intros x; lia].
  - split; [intros x Hx; now right|]. intros x.
    apply (count_occ_unshift_absent x (Project.owner p) (Project.member p)).
    intros H. apply includes_In in H. rewrite H in E. discriminate E.
Qed.

Lemma acceptInvitation_success st user token now body st' :
  acceptInvitation st user token now = (json OK body, st') ->
  exists p q,
    Project.findOneByInvite (projects st) token now = Some p
    /\ q = Project.with_pendingInvites
             (Js.filter (fun inv => negb (Invite.token inv =? token))
                        (Project.pendingInvites p))
             (if negb (isMember p user)
              then Project.with_member (Js.push (Project.member p) (User._id user)) p
              else p)
    /\ body = projectData (Project.preSave q)
    /\ st' = setProjects
               (map (fun d => if Project._id d =? Project._id (Project.preSave q)
                              then Project.preSave q else d)
                    (projects st))
               st.
Proof.
  unfold acceptInvitation.
  destruct (Project.findOneByInvite _ _ _) as [p|]; [|discriminate].
  destruct (Js.find _ _) as [inv|]; [|discriminate].
  destruct (negb (Invite.email inv =? User.email user)); [discriminate|].
  destruct (Project.save _ _) as [[p' l]|] eqn:Es; [|discriminate].
  intros H. injection H as <- <-.
  unfold Project.save in Es. destruct (Project.validate _); [|discriminate].
  injection Es as <- <-.
  eexists. eexists. repeat split.
  all: destruct (negb (isMember p user)); reflexivity.
Qed.

(** C6.  A successful [acceptInvitation] consumes its token.  The saved
    project has the accepting user among its members, keeps every earlier
    member, holds no member more often than before (and the user once if
    absent before), and holds no invite with the token any more; provided
    the token is held by one project document only, every later call with
    the same token is answered 400 "Invalid or expired invitation token"
    and writes nothing.  That is the reply to a token that no project
    holds, or whose projects hold expired invites only. *)
Theorem accept_consumes_token st user token now body st' :
  tokenInOneProject st token ->
  route st user (POST_projects_accept_invite token now) = (json OK body, st') ->
  (exists p p',
      Project.findOneByInvite (projects st) token now = Some p
      /\ body = projectData p'
      /\ In p' (projects st')
      /\ Project._id p' = Project._id p
      /\ In (User._id user) (Project.member p')
      /\ (forall x, In x (Project.member p) -> In x (Project.member p'))
      /\ (forall x, count_occ string_dec (Project.member p') x
                    <= Nat.max 1 (count_occ string_dec (Project.member p) x))
      /\ ~ holdsToken p' token)
  /\ (forall user2 now2,
        route st' user2 (POST_projects_accept_invite token now2)
        = (throw BadRequest "Invalid or expired invitation token", st'))
  /\ (forall st0 user0 token0 now0,
        (forall p, In p (projects st0) -> holdsToken p token0 ->
                   forall inv, In inv (Project.pendingInvites p) ->
                               (Invite.expiresAt inv <= now0)%Z) ->
        route st0 user0 (POST_projects_accept_invite token0 now0)
        = (throw BadRequest "Invalid or expired invitation token", st0)).
Proof.
  intros Hu H. unfold route in H.
  apply acceptInvitation_success in H. destruct H as [p [q [Hf [Hq [-> ->]]]]].
  destruct (findOneByInvite_some _ _ _ _ Hf) as [Hin Hh].
  destruct (preSave_fields q) as [Hid [_ [Hpi _]]].
  assert (Project._id q = Project._id p) as Hqid
    by (subst q; destruct (negb (isMember p user)); reflexivity).
  assert (~ holdsToken (Project.preSave q) token) as Hno.
  { intros [inv [Hi Ht]]. rewrite Hpi in Hi. subst q. simpl in Hi.
    apply filter_In in Hi. destruct Hi as [_ Hi].
    rewrite Ht, String.eqb_refl in Hi. discriminate Hi. }
  destruct (preSave_members q) as [Hkeep Hcount].
  assert (Project.member q
          = if negb (isMember p user)
            then Js.push (Project.member p) (User._id user) else Project.member p) as Hm
    by (subst q; destruct (negb (isMember p user)); reflexivity).
  split; [exists p, (Project.preSave q)|split].
  - split; [assumption|]. split; [reflexivity|]. split.
    { simpl. apply in_map_iff. exists p. split; [|assumption].
      rewrite Hid, Hqid, String.eqb_refl. reflexivity. }
    split; [congruence|]. split.
    { apply Hkeep. rewrite Hm. destruct (isMember p user) eqn:Em; simpl.
      - now apply isMember_In.
      - unfold Js.push. apply in_or_app. right. now left. }
    split.
    { intros x Hx. apply Hkeep. rewrite Hm.
      destruct (negb (isMember p user)); [|assumption].
      unfold Js.push. apply in_or_app. now left. }
    split; [|assumption].
    intros x. specialize (Hcount x). rewrite Hm in Hcount.
    destruct (isMember p user) eqn:Em; cbn [negb] in Hcount; [assumption|].
    assert (~ In (User._id user) (Project.member p)) as Hn
      by (intros Hc; apply isMember_In in Hc; rewrite Hc in Em; discriminate Em).
    etransitivity; [exact Hcount|].
    apply Nat.max_lub; [apply Nat.le_max_l | now apply count_occ_push_absent].
  - intros user2 now2. unfold route, acceptInvitation.
    rewrite findOneByInvite_none; [reflexivity|].
    simpl. intros d Hd Hhd. apply in_map_iff in Hd. destruct Hd as [d0 [Hd0 Hin0]].
    destruct (Project._id d0 =? Project._id (Project.preSave q)) eqn:E.
    + subst d. contradiction.
    + subst d. assert (d0 = p) as -> by (apply Hu; assumption).
      rewrite Hid, Hqid, String.eqb_refl in E. discriminate E.
  - intros st0 user0 token0 now0 Hex. unfold route, acceptInvitation.
    now rewrite (findOneByInvite_expired _ _ _ Hex).
Qed.

Lemma accept_consumes_token_witness :
  route invitedStore dave (POST_projects_accept_invite "tok1" 2000)
  = (json OK (projectData demoJoined), joinedStore)
  /\ route joinedStore dave (POST_projects_accept_invite "tok1" 3000)
     = (throw BadRequest "Invalid or expired invitation token", joinedStore).
Proof.
  assert (route invitedStore dave (POST_projects_accept_invite "tok1" 2000)
          = (json OK (projectData demoJoined), joinedStore)) as E by reflexivity.
  split; [exact E|].
  assert (tokenInOneProject invitedStore "tok1") as Hu.
  { intros p q Hp Hq _ _. simpl in Hp, Hq.
    destruct Hp as [<-|[]]. destruct Hq as [<-|[]]. reflexivity. }
  destruct (accept_consumes_token invitedStore dave "tok1" 2000
              (projectData demoJoined) joinedStore Hu E) as [_ [H _]].
  apply H.
Defined.

Lemma project_findById_id c id p :
  Project.findById c id = Some p -> Project._id p = id.
Proof.
  unfold Project.findById. intros H. apply find_some in H.
  destruct H as [_ H]. now apply String.eqb_eq.
Qed.

(** After a save the document is found under its id. *)
Lemma project_findById_saved c id p p' :
  Project.findById c id = Some p ->
  Project._id p' = id ->
  Project.findById (map (fun d => if Project._id d =? Project._id p' then p' else d) c) id
  = Some p'.
Proof.
  unfold Project.findById. intros H Hid. subst id.
  induction c as [|d c IH]; simpl in *; [discriminate H|].
  destruct (Project._id d =? Project._id p') eqn:E.
  - simpl. now rewrite String.eqb_refl.
  - simpl. rewrite E. auto.
Qed.

Lemma filter_fresh_token (l : list Invite.t) (tok : string) :
  (forall inv, In inv l -> Invite.token inv <> tok) ->
  Js.filter (fun inv => negb (Invite.token inv =? tok)) l = l.
Proof.
  unfold Js.filter. induction l as [|i l IH]; intros H; simpl; [reflexivity|].
  assert ((Invite.token i =? tok) = false) as -> by (apply String.eqb_neq; apply H; now left).
  simpl. f_equal. apply IH. intros inv Hin. apply H. now right.
Qed.

Lemma forallb_filter {A} (f g : A -> bool) (l : list A) :
  forallb f l = true -> forallb f (List.filter g l) = true.
Proof.
  rewrite !forallb_forall. intros H x Hx. apply filter_In in Hx. now apply H.
Qed.

Lemma validate_filter_invites p g :
  Project.validate p = true ->
  Project.validate
    (Project.with_pendingInvites (Js.filter g (Project.pendingInvites (Project.preSave p)))
                                 (Project.preSave p)) = true.
Proof.
  destruct (preSave_fields p) as [_ [_ [Hpi Hk]]].
  unfold Project.validate. cbn [Project.name Project.description Project.key
                                Project.pendingInvites Project.with_pendingInvites].
  rewrite Hpi, Hk.
  assert (Project.name (Project.preSave p) = Project.name p
          /\ Project.description (Project.preSave p) = Project.description p) as [-> ->]
    by (unfold Project.preSave; destruct (negb _); auto).
  intros H. apply andb_true_iff in H. destruct H as [H1 H2].
  rewrite H1. cbn [andb]. now apply forallb_filter.
Qed.

(** [inviteMember] around the mail, for a token that no pending invite of
    the project carries yet: what a failing call and a successful call
    leave in the store. *)
Lemma inviteMember_rollback
    st user id email role inviteToken now emailSent project :
  Project.findById (projects st) id = Some project ->
  ~ holdsToken project inviteToken ->
  let reply := route st user (POST_projects_id_invite id email role inviteToken now emailSent) in
  (emailSent = false -> succeeded (fst reply) = false)
  /\ (succeeded (fst reply) = false ->
      exists p', Project.findById (projects (snd reply)) id = Some p'
                 /\ Project.pendingInvites p' = Project.pendingInvites project)
  /\ (emailSent = false ->
      succeeded (fst (route st user
                        (POST_projects_id_invite id email role inviteToken now true))) = true ->
      fst reply = throw ServerError "Failed to send invitation email")
  /\ (succeeded (fst reply) = true ->
      emailSent = true
      /\ exists p', Project.findById (projects (snd reply)) id = Some p'
                    /\ Project.pendingInvites p'
                       = Project.pendingInvites project
                         ++ [ {| Invite.email := email;
                                 Invite.role := Js.strOr role "developer";
                                 Invite.invitedBy := User._id user;
                                 Invite.token := inviteToken;
                                 Invite.expiresAt := (now + 604800000)%Z |} ]).
Proof.
  intros Hf Hfresh reply. subst reply. unfold route, checkProjectOwner, inviteMember.
  rewrite Hf.
  assert (exists p', Project.findById (projects st) id = Some p'
                     /\ Project.pendingInvites p' = Project.pendingInvites project) as Hsame
    by (exists project; auto).
  destruct (negb (Project.owner project =? User._id user)); cbn [guarded fst snd succeeded].
  { repeat split; auto; discriminate. }
  destruct (match User.findOne (users st) email with Some _ => _ | None => _ end);
    cbn [fst snd succeeded].
  { repeat split; auto; discriminate. }
  destruct (Js.find _ _); cbn [fst snd succeeded].
  { repeat split; auto; discriminate. }
  destruct (Project.save (projects st) _) as [[p1 l1]|] eqn:Es1; cbn [fst snd succeeded].
  2:{ repeat split; auto; discriminate. }
  unfold Project.save in Es1.
  destruct (Project.validate _) eqn:Ev1; [|discriminate Es1].
  injection Es1 as <- <-.
  match goal with
  | _ : Project.validate ?q = true |- _ => set (p1 := q) in *
  end.
  destruct (preSave_fields p1) as [Hid1 [_ [Hpi1 _]]].
  assert (Project._id p1 = id) as Hp1id
    by (subst p1; cbn; now apply (project_findById_id (projects st))).
  destruct emailSent; cbn [fst snd succeeded].
  - split; [discriminate|]. split; [discriminate|]. split; [discriminate|].
    intros _. split; [reflexivity|]. exists (Project.preSave p1). split.
    + cbn [projects setProjects]. apply (project_findById_saved _ _ project); congruence.
    + rewrite Hpi1. reflexivity.
  - cbn [projects setProjects].
    unfold Project.save. rewrite (validate_filter_invites _ _ Ev1).
    cbn [fst snd succeeded].
    split; [reflexivity|]. split; [|split; [reflexivity | discriminate]].
    intros _.
    match goal with
    | |- context [Project.preSave (Project.with_pendingInvites ?f ?b)] =>
      set (p2 := Project.with_pendingInvites f b)
    end.
    destruct (preSave_fields p2) as [Hid2 [_ [Hpi2 _]]].
    exists (Project.preSave p2). split.
    + apply (project_findById_saved _ _ (Project.preSave p1)).
      * apply (project_findById_saved _ _ project); congruence.
      * rewrite Hid2. subst p2. cbn. congruence.
    + rewrite Hpi2. subst p2. cbn [Project.pendingInvites Project.with_pendingInvites].
      rewrite Hpi1. subst p1. cbn [Project.pendingInvites Project.with_pendingInvites].
      unfold Js.push, Js.filter. rewrite filter_app. cbn [List.filter Invite.token].
      rewrite String.eqb_refl. cbn [negb]. rewrite app_nil_r.
      apply filter_fresh_token. intros inv Hin Ht. apply Hfresh. now exists inv.
Qed.

(** With the owner calling, the invitee no member, no invite pending for
    the email and a valid project and role, [inviteMember] gets as far as
    the mail, and the transport decides the reply. *)
Lemma inviteMember_reaches_mail st user id email role inviteToken now emailSent project :
  Project.findById (projects st) id = Some project ->
  Project.owner project = User._id user ->
  (forall u, User.findOne (users st) email = Some u ->
             ~ In (User._id u) (Project.member project)) ->
  (forall i, In i (Project.pendingInvites project) -> Invite.email i <> email) ->
  Project.validate project = true ->
  In (Js.strOr role "developer") Invite.roles ->
  fst (route st user (POST_projects_id_invite id email role inviteToken now emailSent))
  = if emailSent then json OK (message "Invitation sent successfully")
    else throw ServerError "Failed to send invitation email".
Proof.
  intros Hf Ho Hnm Hni Hv Hr. unfold route, checkProjectOwner, inviteMember.
  rewrite Hf, Ho, String.eqb_refl. cbn [negb guarded].
  assert (match User.findOne (users st) email with
          | Some existingUser =>
            Js.some (fun memberId => memberId =? User._id existingUser)
                    (Project.member project)
          | None => false
          end = false) as ->.
  { destruct (User.findOne (users st) email) as [u|] eqn:Eu; [|reflexivity].
    destruct (Js.some _ _) eqn:Es; [|reflexivity].
    apply some_eqb_In in Es. exfalso. exact (Hnm u eq_refl Es). }
  assert (Js.find (fun invite => Invite.email invite =? email)
                  (Project.pendingInvites project) = None) as ->.
  { unfold Js.find. destruct (List.find _ _) as [i|] eqn:E; [|reflexivity].
    apply find_some in E. destruct E as [Hin He]. apply String.eqb_eq in He.
    exfalso. exact (Hni i Hin He). }
  match goal with
  | |- context [Project.save (projects st) ?q] =>
    assert (Project.validate q = true) as Hv1
  end.
  { unfold Project.validate in *.
    cbn [Project.name Project.description Project.key Project.pendingInvites
         Project.with_pendingInvites].
    apply andb_true_iff in Hv. destruct Hv as [Hv Hroles]. rewrite Hv. cbn [andb].
    unfold Js.push. rewrite forallb_app, Hroles. cbn [forallb andb Invite.role].
    rewrite andb_true_r. now apply includes_In. }
  unfold Project.save at 1. rewrite Hv1. cbn [projects setProjects].
  destruct emailSent; [reflexivity|].
  unfold Project.save. rewrite (validate_filter_invites _ _ Hv1). reflexivity.
Qed.

(** C7.  [inviteMember] with a token that no pending invite of the project
    carries yet.  When the owner invites somebody who is no member and has
    no invite pending, with a valid role, the call gets as far as the
    mail.  If the mail is sent the reply is the 200 "Invitation sent
    successfully" and the project, read back from the store, has the new
    invite, with the token and an expiry seven days after the call, at the
    end of its pending invites: the invite remains pending.  If the mail
    cannot be sent the reply is the 500 "Failed to send invitation email"
    and the project read back has the pending invites it had before the
    call: the appended invite was taken out again.  Further, whoever
    calls and whatever was sent, a call with a failing mail never
    succeeds, every failing call leaves the pending invites as they were,
    and every successful call had the mail sent and left the new invite
    at the end. *)
Theorem invite_rolled_back_on_mail_failure
    st user id email role inviteToken now emailSent project :
  Project.findById (projects st) id = Some project ->
  ~ holdsToken project inviteToken ->
  let reply := route st user (POST_projects_id_invite id email role inviteToken now emailSent) in
  let invite :=
    {| Invite.email := email;
       Invite.role := Js.strOr role "developer";
       Invite.invitedBy := User._id user;
       Invite.token := inviteToken;
       Invite.expiresAt := (now + 604800000)%Z |} in
  (Project.owner project = User._id user ->
   (forall u, User.findOne (users st) email = Some u ->
              ~ In (User._id u) (Project.member project)) ->
   (forall i, In i (Project.pendingInvites project) -> Invite.email i <> email) ->
   Project.validate project = true ->
   In (Js.strOr role "developer") Invite.roles ->
   exists p',
     Project.findById (projects (snd reply)) id = Some p'
     /\ if emailSent
        then fst reply = json OK (message "Invitation sent successfully")
             /\ Project.pendingInvites p' = Project.pendingInvites project ++ [invite]
        else fst reply = throw ServerError "Failed to send invitation email"
             /\ Project.pendingInvites p' = Project.pendingInvites project)
  /\ (emailSent = false -> succeeded (fst reply) = false)
  /\ (succeeded (fst reply) = false ->
      exists p', Project.findById (projects (snd reply)) id = Some p'
                 /\ Project.pendingInvites p' = Project.pendingInvites project)
  /\ (emailSent = false ->
      succeeded (fst (route st user
                        (POST_projects_id_invite id email role inviteToken now true))) = true ->
      fst reply = throw ServerError "Failed to send invitation email")
  /\ (succeeded (fst reply) = true ->
      emailSent = true
      /\ exists p', Project.findById (projects (snd reply)) id = Some p'
                    /\ Project.pendingInvites p' = Project.pendingInvites project ++ [invite]).
Proof.
  intros Hf Hfresh reply invite.
  pose proof (inviteMember_rollback st user id email role inviteToken now emailSent project
                Hf Hfresh) as H.
  cbv zeta in H. fold reply in H. destruct H as [H1 [H2 [H3 H4]]].
  split; [|split; [exact H1 | split; [exact H2 | split; [exact H3 | exact H4]]]].
  intros Ho Hnm Hni Hv Hr.
  pose proof (inviteMember_reaches_mail st user id email role inviteToken now emailSent
                project Hf Ho Hnm Hni Hv Hr) as Hfst.
  fold reply in Hfst. destruct emailSent.
  - destruct H4 as [_ [p' [Hp Hinv]]]; [now rewrite Hfst|].
    exists p'. split; [exact Hp|]. split; [exact Hfst | exact Hinv].
  - destruct H2 as [p' [Hp Hinv]]; [now rewrite Hfst|].
    exists p'. split; [exact Hp|]. split; [exact Hfst | exact Hinv].
Qed.

Lemma invite_rolled_back_on_mail_failure_witness :
  (exists p',
      Project.findById
        (projects (snd (route sampleStore alice
                          (POST_projects_id_invite "p1" "dave@x.com" "" "tok1" 1000 true))))
        "p1" = Some p'
      /\ fst (route sampleStore alice
                (POST_projects_id_invite "p1" "dave@x.com" "" "tok1" 1000 true))
         = json OK (message "Invitation sent successfully")
      /\ Project.pendingInvites p' = [daveInvite])
  /\ (exists p',
         Project.findById
           (projects (snd (route sampleStore alice
                             (POST_projects_id_invite "p1" "dave@x.com" "" "tok1" 1000 false))))
           "p1" = Some p'
         /\ fst (route sampleStore alice
                   (POST_projects_id_invite "p1" "dave@x.com" "" "tok1" 1000 false))
            = throw ServerError "Failed to send invitation email"
         /\ Project.pendingInvites p' = Project.pendingInvites demo).
Proof.
  assert (~ holdsToken demo "tok1") as Hfresh by (intros [inv [[] _]]).
  assert (forall u, User.findOne (users sampleStore) "dave@x.com" = Some u ->
                    ~ In (User._id u) (Project.member demo)) as Hnm.
  { intros u Hu. injection Hu as <-. cbn. intros [H|[H|[H|[]]]]; discriminate H. }
  assert (forall i, In i (Project.pendingInvites demo) -> Invite.email i <> "dave@x.com")
    as Hni by (intros i []).
  assert (In (Js.strOr "" "developer") Invite.roles) as Hr by (right; left; reflexivity).
  split.
  - destruct (proj1 (invite_rolled_back_on_mail_failure sampleStore alice "p1" "dave@x.com" ""
                       "tok1" 1000 true demo eq_refl Hfresh)
                    eq_refl Hnm Hni eq_refl Hr) as [p' [Hp [Hreply Hinv]]].
    exists p'. split; [exact Hp|]. split; [exact Hreply | exact Hinv].
  - destruct (proj1 (invite_rolled_back_on_mail_failure sampleStore alice "p1" "dave@x.com" ""
                       "tok1" 1000 false demo eq_refl Hfresh)
                    eq_refl Hnm Hni eq_refl Hr) as [p' [Hp [Hreply Hinv]]].
    exists p'. split; [exact Hp|]. split; [exact Hreply | exact Hinv].
Defined.

(** ** Issue deletion *)

Lemma checkIssueDeletePermission_cases st user id issue project :
  Issue.findById (issues st) id = Some issue ->
  Project.findById (projects st) (Issue.projectId issue) = Some project ->
  (checkIssueDeletePermission st user id = next <->
     Project.owner project = User._id user \/ Issue.reporter issue = User._id user)
  /\ (checkIssueDeletePermission st user id = next \/
      checkIssueDeletePermission st user id
      = denied Forbidden
          "Access denied - Only project owner or issue reporter can delete this issue").
Proof.
  intros Hi Hp. unfold checkIssueDeletePermission. rewrite Hi, Hp.
  destruct (String.eqb_spec (Project.owner project) (User._id user)) as [Eo|Eo];
    destruct (String.eqb_spec (Issue.reporter issue) (User._id user)) as [Er|Er];
    cbn [negb andb].
  - split; [tauto | now left].
  - split; [tauto | now left].
  - split; [tauto | now left].
  - split; [|now right]. split; [discriminate | tauto].
Qed.

Lemma deleteIssue_by_owner_or_reporter st user id issue project :
  Issue.findById (issues st) id = Some issue ->
  Project.findById (projects st) (Issue.projectId issue) = Some project ->
  Project.owner project = User._id user \/ Issue.reporter issue = User._id user ->
  route st user (DELETE_issues_id id)
  = (json OK (message "Issue and associated data deleted successfully"),
     {| users := users st;
        projects := projects st;
        issues := Issue.findByIdAndDelete (issues st) id;
        comments := Comment.deleteMany (comments st) id;
        attachments := Attachment.deleteMany (attachments st) (Issue.attachments issue) |}).
Proof.
  intros Hi Hp Hor. unfold route.
  destruct (checkIssueDeletePermission_cases st user id issue project Hi Hp) as [Hg _].
  apply Hg in Hor. rewrite Hor. cbn [guarded].
  unfold deleteIssue. rewrite Hi, Hp.
  assert (negb (Project.owner project =? User._id user)
          && negb (Issue.reporter issue =? User._id user) = false) as ->.
  { unfold checkIssueDeletePermission in Hor. rewrite Hi, Hp in Hor.
    destruct (_ && _); [discriminate Hor | reflexivity]. }
  reflexivity.
Qed.

(** C8.  [DELETE /:id] by the project owner or the reporter succeeds and
    removes the issue; afterwards no comment carries its id as [issueId]
    and no attachment listed in the issue's [attachments] is left; every
    other attachment stays, in particular one that only a deleted comment
    of the issue refers to. *)
Theorem delete_issue_cascade st user id issue project :
  Issue.findById (issues st) id = Some issue ->
  Project.findById (projects st) (Issue.projectId issue) = Some project ->
  Project.owner project = User._id user \/ Issue.reporter issue = User._id user ->
  let reply := route st user (DELETE_issues_id id) in
  fst reply = json OK (message "Issue and associated data deleted successfully")
  /\ (forall i, In i (issues (snd reply)) -> Issue._id i <> id)
  /\ (forall c, In c (comments (snd reply)) -> Comment.issueId c <> id)
  /\ (forall a, In a (attachments (snd reply)) ->
                ~ In (Attachment._id a) (Issue.attachments issue))
  /\ (forall a, In a (attachments st) ->
                ~ In (Attachment._id a) (Issue.attachments issue) ->
                In a (attachments (snd reply)))
  /\ (forall a c, In a (attachments st) ->
                  In c (comments st) -> Comment.issueId c = id ->
                  In (Attachment._id a) (Comment.attachment c) ->
                  ~ In (Attachment._id a) (Issue.attachments issue) ->
                  In a (attachments (snd reply)) /\ ~ In c (comments (snd reply))).
Proof.
  intros Hi Hp Hor reply. subst reply.
  rewrite (deleteIssue_by_owner_or_reporter st user id issue project Hi Hp Hor).
  cbn [fst snd issues comments attachments].
  assert (forall a, In a (attachments st) ->
                    ~ In (Attachment._id a) (Issue.attachments issue) ->
                    In a (Attachment.deleteMany (attachments st) (Issue.attachments issue)))
    as Hkeep.
  { intros a Ha Hn. unfold Attachment.deleteMany. apply filter_In. split; [assumption|].
    destruct (Js.includes _ _) eqn:E; [|reflexivity].
    apply includes_In in E. contradiction. }
  assert (forall c, In c (Comment.deleteMany (comments st) id) -> Comment.issueId c <> id)
    as Hgone.
  { intros c Hc. unfold Comment.deleteMany in Hc. apply filter_In in Hc.
    destruct Hc as [_ Hc]. apply String.eqb_neq. now destruct (Comment.issueId c =? id). }
  split; [reflexivity|]. split.
  { intros i H. unfold Issue.findByIdAndDelete in H. apply filter_In in H.
    destruct H as [_ H]. apply String.eqb_neq. now destruct (Issue._id i =? id). }
  split; [assumption|]. split.
  { intros a H. unfold Attachment.deleteMany in H. apply filter_In in H.
    destruct H as [_ H]. intros Hin. apply includes_In in Hin. rewrite Hin in H.
    discriminate H. }
  split; [assumption|].
  intros a c Ha Hc Hcid _ Hn. split; [now apply Hkeep|].
  intros H. now apply Hgone in H.
Qed.

(** C10.  The delete guard passes exactly for the project owner and the
    reporter of the issue and never looks at the member list: a reporter
    who is no longer a member deletes the issue, while the update route
    answers the same user 403 "Not a project member". *)
Theorem delete_needs_no_membership st user id issue project :
  Issue.findById (issues st) id = Some issue ->
  Project.findById (projects st) (Issue.projectId issue) = Some project ->
  (checkIssueDeletePermission st user id = next <->
     Project.owner project = User._id user \/ Issue.reporter issue = User._id user)
  /\ (Issue.reporter issue = User._id user ->
      ~ In (User._id user) (Project.member project) ->
      fst (route st user (DELETE_issues_id id))
      = json OK (message "Issue and associated data deleted successfully")
      /\ Issue.findById (issues (snd (route st user (DELETE_issues_id id)))) id = None
      /\ forall body,
          route st user (PUT_issues_id id body)
          = (throw Forbidden "Access denied - Not a project member", st)).
Proof.
  intros Hi Hp. split.
  - apply (checkIssueDeletePermission_cases st user id issue project Hi Hp).
  - intros Hr Hn.
    rewrite (deleteIssue_by_owner_or_reporter st user id issue project Hi Hp (or_intror Hr)).
    cbn [fst snd issues]. split; [reflexivity|]. split.
    + unfold Issue.findById, Issue.findByIdAndDelete.
      destruct (List.find _ _) as [i|] eqn:E; [|reflexivity].
      apply find_some in E. destruct E as [E1 E2]. apply filter_In in E1.
      destruct E1 as [_ E1]. rewrite E2 in E1. discriminate E1.
    + intros body. unfold route.
      rewrite (checkIssuePermission_write st user id issue project Hi Hp).
      destruct (isMember project user) eqn:Em; [|reflexivity].
      apply isMember_In in Em. contradiction.
Qed.

Lemma delete_issue_cascade_witness :
  In (Attachment.mk "a2" "https://files/a2.pdf" "files/a2" "u2")
     (attachments (snd (route sampleStore alice (DELETE_issues_id "i1"))))
  /\ ~ In (Comment.mk "c1" "Here is the log" "u2" "i1" ["a2"])
          (comments (snd (route sampleStore alice (DELETE_issues_id "i1")))).
Proof.
  destruct (delete_issue_cascade sampleStore alice "i1" demo1 demo
              eq_refl eq_refl (or_introl eq_refl)) as [_ [_ [_ [_ [_ H]]]]].
  apply H.
  - simpl. right. left. reflexivity.
  - simpl. left. reflexivity.
  - reflexivity.
  - simpl. left. reflexivity.
  - simpl. intros [H1|[]]. discriminate H1.
Defined.

Lemma delete_needs_no_membership_witness :
  fst (route storeWithoutBob bob (DELETE_issues_id "i2"))
  = json OK (message "Issue and associated data deleted successfully")
  /\ route storeWithoutBob bob (PUT_issues_id "i2" (sampleBody Js.undefined))
     = (throw Forbidden "Access denied - Not a project member", storeWithoutBob).
Proof.
  destruct (delete_needs_no_membership storeWithoutBob bob "i2" demo2 demoWithoutBob
              eq_refl eq_refl) as [_ H].
  destruct H as [H1 [_ H3]].
  - reflexivity.
  - simpl. intros [H|[H|[]]]; discriminate H.
  - split; [exact H1 | apply H3].
Defined.

(** ** Issue keys *)




Lemma createProject_success st user newId name description key p st' :
  createProject st user newId name description key = (json Created (projectData p), st') ->
  Project.findById (projects st') newId = Some p
  /\ Project.key p = Js.toUpperCase key
  /\ issues st' = issues st.
Proof.
  unfold createProject.
  destruct (Project.findOneByKey _ _); [discriminate|].
  destruct (Project.create _ _) as [[q l]|] eqn:E; [|discriminate].
  intros H. injection H as <- <-.
  unfold Project.create in E.
  destruct (Project.validate _); cbn [negb andb] in E; [|discriminate E].
  destruct (existsb (fun d => Project._id d =? _) (projects st)) eqn:Ex;
    cbn [negb andb] in E; [discriminate E|].
  destruct (existsb (fun d => Project.key d =? _) (projects st));
    cbn [negb andb] in E; [discriminate E|].
  injection E as <- <-.
  rewrite preSave_id by (unfold ownerIsMember; simpl; auto).
  split; [|split; reflexivity].
  cbn [projects setProjects Project._id] in *. unfold Project.findById.
  induction (projects st) as [|d c IH]; cbn [app List.find].
  - cbn [Project._id]. now rewrite String.eqb_refl.
  - cbn [existsb] in Ex. apply orb_false_iff in Ex. destruct Ex as [Ed Ex].
    rewrite Ed. now apply IH.
Qed.



(** * Further properties *)

(** ** Role guard *)

(** X1.  [checkRole(roles)] lets a request through exactly when it has a
    user whose role is one of [roles]; otherwise it answers 403 and names
    the roles joined by " or ".  Whoever passes [checkAdmin] passes
    [checkAdminOrManager]. *)
Theorem checkRole_passes_listed_roles :
  (forall roles user,
      checkRole roles user = next <-> exists u, user = Some u /\ In (User.role u) roles)
  /\ (forall roles user,
        checkRole roles user = next
        \/ checkRole roles user
           = denied Forbidden
               (String.append "Access denied - Requires role: " (join " or " roles)))
  /\ (forall user, checkAdmin user = next -> checkAdminOrManager user = next)
  /\ (forall user,
        checkAdminOrManager user = next
        \/ checkAdminOrManager user
           = denied Forbidden "Access denied - Requires role: admin or manager").
Proof.
  assert (forall roles user,
             checkRole roles user = next <->
             exists u, user = Some u /\ In (User.role u) roles) as Hiff.
  { intros roles [u|]; unfold checkRole.
    - destruct (Js.includes roles (User.role u)) eqn:E; cbn [negb].
      + split; [|reflexivity]. intros _. exists u. split; [reflexivity|].
        now apply includes_In.
      + split; [discriminate|]. intros [u' [Hu Hin]]. injection Hu as <-.
        apply includes_In in Hin. rewrite Hin in E. discriminate E.
    - split; [discriminate|]. intros [u [Hu _]]. discriminate Hu. }
  split; [exact Hiff|]. split; [|split].
  - intros roles [u|]; unfold checkRole; [|now right].
    destruct (negb _); [now right | now left].
  - intros user H. apply Hiff in H. destruct H as [u [-> Hin]].
    apply Hiff. exists u. split; [reflexivity|].
    destruct Hin as [<-|[]]. now left.
  - intros [u|]; unfold checkAdminOrManager, checkRole; [|now right].
    destruct (negb _); [now right | now left].
Qed.

(** ** Paged listings *)

Lemma ceilDiv_bounds (total n : nat) :
  0 < n ->
  total <= ceilDiv total n * n /\ (0 < total -> (ceilDiv total n - 1) * n < total).
Proof.
  intros Hn. unfold ceilDiv.
  assert (n <> 0) as Hn0 by lia.
  pose proof (Nat.div_mod_eq (total + n - 1) n) as E.
  pose proof (Nat.mod_upper_bound (total + n - 1) n Hn0) as Hr.
  split; [nia|]. intros Ht. nia.
Qed.

Lemma ceilDiv_above (total n p : nat) :
  0 < n -> p < ceilDiv total n -> p * n < total.
Proof.
  intros Hn Hp. destruct (ceilDiv_bounds total n Hn) as [_ Hlb].
  assert (0 < total) as Ht.
  { destruct total; [|lia]. unfold ceilDiv in Hp. cbn [Nat.add] in Hp.
    rewrite Nat.div_small in Hp by lia. lia. }
  specialize (Hlb Ht).
  destruct (ceilDiv total n) as [|c]; [lia|].
  replace (S c - 1) with c in Hlb by lia.
  assert (p * n <= c * n) by (apply Nat.mul_le_mono_r; lia).
  lia.
Qed.

(** X2.  The pages of a listing tile the matches: the match at position
    [i] (from 0, in sorted order) is served on page [i / limit + 1] at
    position [i mod limit] and total counts all matches; a page never
    holds more than [limit] items, every page before the last is full,
    and a page after the last is empty.  [totalPages] is the least number
    of pages that holds all matches. *)
Theorem pages_tile_the_matches {A} (matches : list A) (limitNum : positive) :
  (forall i, i < List.length matches ->
             nth_error
               (data (paginate matches (Pos.of_nat (i / Pos.to_nat limitNum + 1)) limitNum))
               (i mod Pos.to_nat limitNum)
             = nth_error matches i)
  /\ (forall pageNum,
        count (paginate matches pageNum limitNum) <= Pos.to_nat limitNum
        /\ count (paginate matches pageNum limitNum)
           = List.length (data (paginate matches pageNum limitNum))
        /\ total (paginate matches pageNum limitNum) = List.length matches)
  /\ (forall pageNum,
        Pos.to_nat pageNum < totalPages (paginate matches pageNum limitNum) ->
        count (paginate matches pageNum limitNum) = Pos.to_nat limitNum)
  /\ (forall pageNum,
        totalPages (paginate matches pageNum limitNum) < Pos.to_nat pageNum ->
        data (paginate matches pageNum limitNum) = [])
  /\ (forall pageNum,
        List.length matches
        <= totalPages (paginate matches pageNum limitNum) * Pos.to_nat limitNum
        /\ (0 < List.length matches ->
            (totalPages (paginate matches pageNum limitNum) - 1) * Pos.to_nat limitNum
            < List.length matches)).
Proof.
  pose proof (Pos2Nat.is_pos limitNum) as Hn.
  set (n := Pos.to_nat limitNum) in *.
  destruct (ceilDiv_bounds (List.length matches) n Hn) as [Hub Hlb].
  split; [|split; [|split; [|split]]].
  - intros i Hi. unfold paginate. cbn [data]. fold n.
    rewrite Nat2Pos.id by lia.
    rewrite nth_error_firstn.
    assert (n <> 0) as Hn0 by lia.
    pose proof (Nat.mod_upper_bound i n Hn0) as Hm.
    destruct (Nat.ltb_spec (i mod n) n) as [_|Hc]; [|lia].
    rewrite nth_error_skipn. f_equal.
    pose proof (Nat.div_mod_eq i n). nia.
  - intros pageNum. unfold paginate. cbn [count data total]. fold n.
    rewrite length_firstn. split; [lia | split; reflexivity].
  - intros pageNum. unfold paginate. cbn [count totalPages]. fold n.
    pose proof (Pos2Nat.is_pos pageNum) as Hp. intros H.
    rewrite length_firstn, length_skipn.
    destruct (Pos.to_nat pageNum) as [|p]; [lia|].
    replace (S p - 1) with p by lia.
    pose proof (ceilDiv_above _ _ _ Hn H) as Hfull.
    cbn [Nat.mul] in Hfull. lia.
  - intros pageNum. unfold paginate. cbn [data totalPages]. fold n. intros H.
    rewrite skipn_all2; [apply firstn_nil | nia].
  - intros pageNum. unfold paginate. cbn [totalPages]. fold n. split; assumption.
Qed.

Lemma pages_tile_the_matches_witness :
  nth_error (data (paginate [10; 20; 30; 40; 50] (Pos.of_nat (3 / 2 + 1)) 2%positive)) (3 mod 2)
  = nth_error [10; 20; 30; 40; 50] 3.
Proof.
  apply (proj1 (pages_tile_the_matches [10; 20; 30; 40; 50] 2%positive) 3).
  simpl. lia.
Defined.

(** ** Route tables *)

Ltac split_ifs :=
  repeat match goal with
         | |- context [if ?b then _ else _] => destruct b
         end.

(** X3.  In the issue router [GET /:id] is registered before
    [GET /assigned-to-me] and [GET /reported-by-me]: every one-segment GET
    is dispatched to [getIssue] behind [checkIssuePermission], and no
    request at all reaches [getMyAssignedIssues] or [getMyReportedIssues].
    The comment router shadows [getMyComments] behind [GET /:id] in the
    same way. *)
Theorem listing_routes_are_shadowed :
  (forall x, option_map controller (dispatch issueRoutes GET [x]) = Some "getIssue")
  /\ (forall m path e,
        dispatch issueRoutes m path = Some e ->
        controller e <> "getMyAssignedIssues" /\ controller e <> "getMyReportedIssues")
  /\ (forall x, option_map controller (dispatch commentRoutes GET [x]) = Some "getComment")
  /\ (forall m path e,
        dispatch commentRoutes m path = Some e -> controller e <> "getMyComments").
Proof.
  split; [|split; [|split]].
  - intros x. unfold dispatch, issueRoutes.
    cbn [List.find verb pattern Method_eqb matchPath andb].
    rewrite ?andb_false_r. reflexivity.
  - intros m path e.
    destruct m; destruct path as [|a [|b [|c [|d r]]]];
      unfold dispatch, issueRoutes; cbn [List.find verb pattern Method_eqb matchPath andb];
      rewrite ?andb_false_r; cbn [List.find andb];
      split_ifs; intros H; try discriminate H;
      injection H as <-; split; discriminate.
  - intros x. unfold dispatch, commentRoutes.
    cbn [List.find verb pattern Method_eqb matchPath andb].
    rewrite ?andb_false_r. reflexivity.
  - intros m path e.
    destruct m; destruct path as [|a [|b [|c [|d r]]]];
      unfold dispatch, commentRoutes; cbn [List.find verb pattern Method_eqb matchPath andb];
      rewrite ?andb_false_r; cbn [List.find andb];
      split_ifs; intros H; try discriminate H;
      injection H as <-; discriminate.
Qed.

Lemma listing_routes_are_shadowed_witness :
  controller (mkRoute GET [param "id"] "checkIssuePermission" "getIssue")
  <> "getMyAssignedIssues".
Proof.
  apply (proj1 (proj2 listing_routes_are_shadowed) GET ["assigned-to-me"]
               (mkRoute GET [param "id"] "checkIssuePermission" "getIssue")).
  reflexivity.
Defined.

(** ** Lists of ids checked by counting *)

Lemma NoDup_map_filter {A B} (f : A -> B) (g : A -> bool) (l : list A) :
  NoDup (map f l) -> NoDup (map f (List.filter g l)).
Proof.
  induction l as [|a l IH]; simpl; intros H; [constructor|].
  inversion H as [|? ? Hn Hd]; subst. destruct (g a); simpl; [|auto].
  constructor; [|auto]. intros Hin. apply Hn.
  apply in_map_iff in Hin. destruct Hin as [x [Hx Hin]].
  apply filter_In in Hin. destruct Hin as [Hin _].
  apply in_map_iff. now exists x.
Qed.





Ltac nodup_strings :=
  repeat (constructor; [simpl; intuition discriminate|]); constructor.



(** ** Comments *)

Lemma find_app_new {A} (f : A -> bool) (l : list A) (x : A) :
  existsb f l = false -> f x = true -> List.find f (l ++ [x]) = Some x.
Proof.
  induction l as [|a l IH]; simpl; intros He Hx.
  - now rewrite Hx.
  - apply orb_false_iff in He. destruct He as [Ha He]. rewrite Ha. auto.
Qed.

Lemma issue_findById_id c id i :
  Issue.findById c id = Some i -> Issue._id i = id.
Proof.
  unfold Issue.findById. intros H. apply find_some in H.
  destruct H as [_ H]. now apply String.eqb_eq.
Qed.

Lemma issue_findById_saved c id i i' :
  Issue.findById c id = Some i ->
  Issue._id i' = id ->
  Issue.findById (map (fun d => if Issue._id d =? Issue._id i' then i' else d) c) id
  = Some i'.
Proof.
  unfold Issue.findById. intros H Hid. subst id.
  induction c as [|d c IH]; simpl in *; [discriminate H|].
  destruct (Issue._id d =? Issue._id i') eqn:E.
  - simpl. now rewrite String.eqb_refl.
  - simpl. rewrite E. auto.
Qed.

Lemma issue_findById_updateFirst c id i g :
  Issue.findById c id = Some i ->
  Issue._id (g i) = id ->
  Issue.findById (Issues.updateFirst (fun d => Issue._id d =? id) g c) id = Some (g i).
Proof.
  unfold Issue.findById. intros H Hid.
  induction c as [|d c IH]; simpl in *; [discriminate H|].
  destruct (Issue._id d =? id) eqn:E.
  - injection H as ->. simpl. now rewrite Hid, String.eqb_refl.
  - simpl. rewrite E. auto.
Qed.

Lemma comment_findById_id c id x :
  Comments.findById c id = Some x -> Comment._id x = id.
Proof.
  unfold Comments.findById. intros H. apply find_some in H.
  destruct H as [_ H]. now apply String.eqb_eq.
Qed.

Lemma comment_findById_saved c id x x' :
  Comments.findById c id = Some x ->
  Comment._id x' = id ->
  Comments.findById (map (fun d => if Comment._id d =? Comment._id x' then x' else d) c) id
  = Some x'.
Proof.
  unfold Comments.findById. intros H Hid. subst id.
  induction c as [|d c IH]; simpl in *; [discriminate H|].
  destruct (Comment._id d =? Comment._id x') eqn:E.
  - simpl. now rewrite String.eqb_refl.
  - simpl. rewrite E. auto.
Qed.

(** X6.  A comment that [POST /issues/:issueId/comments] creates has the
    caller as author, the issue of the path, the content of the body (not
    empty) and the attachment list of the body; it is appended to the
    comment collection, found under its id, and its id is pushed at the
    end of the issue's [comments]; projects, attachments and users stay as
    they were. *)
Theorem comment_is_appended_to_its_issue
    st user newId issueId content atts c st' :
  POST_comments st user newId issueId content atts = (sent Created c, st') ->
  exists issue,
    Issue.findById (issues st) issueId = Some issue
    /\ c = {| Comment._id := newId;
              Comment.content := content;
              Comment.author := User._id user;
              Comment.issueId := issueId;
              Comment.attachment := match atts with Some l => l | None => [] end |}
    /\ content <> ""
    /\ comments st' = comments st ++ [c]
    /\ Comments.findById (comments st') newId = Some c
    /\ Issue.findById (issues st') issueId
       = Some (Issues.with_comments (Issue.comments issue ++ [newId]) issue)
    /\ projects st' = projects st
    /\ attachments st' = attachments st
    /\ users st' = users st.
Proof.
  unfold POST_comments. intros H.
  destruct (getProjectFromIssue st user issueId); [|discriminate H].
  cbn [guardedA] in H. unfold createComment in H.
  destruct (Issue.findById (issues st) issueId) as [issue|] eqn:Hi; [|discriminate H].
  destruct (Project.findById _ _) as [project|]; [|discriminate H].
  destruct (negb (isMember project user)); [discriminate H|].
  destruct (attachmentsRejected st user atts); [discriminate H|].
  destruct (Comments.create _ _) as [[c0 lc]|] eqn:Ec; [|discriminate H].
  destruct (Issue.save _ _) as [[i0 li]|] eqn:Es; [|discriminate H].
  injection H as <- <-.
  unfold Comments.create, storedComments in Ec.
  destruct (Comments.validate _) eqn:Ev; cbn [andb] in Ec; [|discriminate Ec].
  destruct (existsb _ (comments st)) eqn:Ex; cbn [negb] in Ec; [discriminate Ec|].
  injection Ec as <- <-.
  apply issue_save_doc in Es. destruct Es as [-> [_ ->]].
  exists issue. split; [reflexivity|]. split; [reflexivity|]. split.
  { unfold Comments.validate in Ev. cbn [Comment.content] in Ev.
    apply String.eqb_neq. now destruct (content =? ""). }
  split; [reflexivity|]. split.
  { cbn [comments setIssues setComments]. unfold Comments.findById.
    apply find_app_new; [exact Ex | apply String.eqb_refl]. }
  split.
  { cbn [issues setIssues setComments Comment._id]. unfold Js.push.
    apply (issue_findById_saved _ _ issue); [exact Hi|].
    cbn. now apply (issue_findById_id (issues st)). }
  repeat split.
Qed.

Lemma comment_is_appended_to_its_issue_witness :
  exists issue,
    Issue.findById (issues sampleStore) "i2" = Some issue
    /\ Issue.findById
         (issues (snd (POST_comments sampleStore carol "c3" "i2" "Same here" None))) "i2"
       = Some (Issues.with_comments (Issue.comments issue ++ ["c3"]) issue).
Proof.
  destruct (comment_is_appended_to_its_issue sampleStore carol "c3" "i2" "Same here" None
              (Comment.mk "c3" "Same here" "u3" "i2" [])
              (snd (POST_comments sampleStore carol "c3" "i2" "Same here" None))
              eq_refl) as [issue [H1 [_ [_ [_ [_ [H2 _]]]]]]].
  exists issue. split; assumption.
Defined.

Lemma populateComment_some st comment issue project :
  Issue.findById (issues st) (Comment.issueId comment) = Some issue ->
  Project.findById (projects st) (Issue.projectId issue) = Some project ->
  populateComment st comment = Some (issue, project).
Proof. intros Hi Hp. unfold populateComment. now rewrite Hi, Hp. Qed.

Lemma checkCommentPermission_write st user id comment issue project :
  Comments.findById (comments st) id = Some comment ->
  Issue.findById (issues st) (Comment.issueId comment) = Some issue ->
  Project.findById (projects st) (Issue.projectId issue) = Some project ->
  forall m, m <> GET ->
  checkCommentPermission st user m id =
    if negb (isMember project user)
    then denied Forbidden "Access denied - Not a project member"
    else if negb (Project.owner project =? User._id user)
            && negb (Comment.author comment =? User._id user)
         then denied Forbidden
                "Access denied - Only project owner or comment author can modify this comment"
         else next.
Proof.
  intros Hc Hi Hp m Hm. unfold checkCommentPermission.
  rewrite Hc, (populateComment_some _ _ _ _ Hi Hp).
  destruct (negb (isMember project user)); [reflexivity|].
  destruct m; [contradiction | reflexivity | reflexivity | reflexivity].
Qed.

Lemma deleteMany_nil l : Attachment.deleteMany l [] = l.
Proof.
  unfold Attachment.deleteMany. induction l as [|a l IH]; [reflexivity|].
  cbn [List.filter]. rewrite IH. reflexivity.
Qed.

(** The store after the three deletions of [deleteComment]. *)
Lemma deleteComment_allowed st user id comment issue project :
  Comments.findById (comments st) id = Some comment ->
  Issue.findById (issues st) (Comment.issueId comment) = Some issue ->
  Project.findById (projects st) (Issue.projectId issue) = Some project ->
  negb (Project.owner project =? User._id user)
  && negb (Comment.author comment =? User._id user) = false ->
  deleteComment st user id
  = (sent OK "Comment and associated attachments deleted successfully",
     {| users := users st;
        projects := projects st;
        issues := Issues.pullComment (issues st) (Issue._id issue) (Comment._id comment);
        comments := Comments.findByIdAndDelete (comments st) id;
        attachments := Attachment.deleteMany (attachments st) (Comment.attachment comment) |}).
Proof.
  intros Hc Hi Hp Ha. unfold deleteComment, storedComments.
  rewrite Hc, (populateComment_some _ _ _ _ Hi Hp), Ha.
  destruct (Comment.attachment comment) as [|x r].
  - rewrite deleteMany_nil. reflexivity.
  - reflexivity.
Qed.

(** X7.  [DELETE /:id] of the comment router succeeds exactly for a
    current project member who is the project owner or the comment's
    author; an author who left the project gets 403, as does everybody
    else, and nothing is written.  On success no comment with the id is
    left, the attachments listed by the comment are deleted and all others
    kept, and the id is pulled from the issue's [comments]; projects are
    untouched. *)
Theorem comment_delete_by_member_owner_or_author st user id comment issue project :
  Comments.findById (comments st) id = Some comment ->
  Issue.findById (issues st) (Comment.issueId comment) = Some issue ->
  Project.findById (projects st) (Issue.projectId issue) = Some project ->
  let reply := DELETE_comments st user id in
  (delivered (fst reply) = true <->
     In (User._id user) (Project.member project)
     /\ (Project.owner project = User._id user \/ Comment.author comment = User._id user))
  /\ (delivered (fst reply) = false ->
      snd reply = st /\ exists m, fst reply = failed Forbidden m)
  /\ (delivered (fst reply) = true ->
      fst reply = sent OK "Comment and associated attachments deleted successfully"
      /\ (forall c, In c (comments (snd reply)) -> Comment._id c <> id)
      /\ (forall a, In a (attachments (snd reply)) ->
                    ~ In (Attachment._id a) (Comment.attachment comment))
      /\ (forall a, In a (attachments st) ->
                    ~ In (Attachment._id a) (Comment.attachment comment) ->
                    In a (attachments (snd reply)))
      /\ Issue.findById (issues (snd reply)) (Comment.issueId comment)
         = Some (Issues.with_comments
                   (List.filter (fun c => negb (c =? id)) (Issue.comments issue)) issue)
      /\ projects (snd reply) = projects st).
Proof.
  intros Hc Hi Hp reply. subst reply. unfold DELETE_comments.
  rewrite (checkCommentPermission_write st user id comment issue project Hc Hi Hp DELETE)
    by discriminate.
  pose proof (isMember_In project user) as Hm.
  destruct (isMember project user); cbn [negb guardedA fst snd delivered].
  2:{ assert (~ In (User._id user) (Project.member project)) as Hn
        by (intros H; apply Hm in H; discriminate H).
      split; [split; [discriminate | tauto]|].
      split; [intros _; split; [reflexivity | eauto] | discriminate]. }
  assert (In (User._id user) (Project.member project)) as Hy by now apply Hm.
  destruct (negb (Project.owner project =? User._id user)
            && negb (Comment.author comment =? User._id user)) eqn:Ea;
    cbn [guardedA fst snd delivered].
  { assert (~ (Project.owner project = User._id user
               \/ Comment.author comment = User._id user)) as Hn.
    { apply andb_true_iff in Ea. destruct Ea as [E1 E2].
      apply negb_true_iff in E1, E2. apply String.eqb_neq in E1, E2. tauto. }
    split; [split; [discriminate | tauto]|].
    split; [intros _; split; [reflexivity | eauto] | discriminate]. }
  assert (Project.owner project = User._id user
          \/ Comment.author comment = User._id user) as Hor.
  { apply andb_false_iff in Ea. destruct Ea as [E|E]; apply negb_false_iff in E;
      apply String.eqb_eq in E; tauto. }
  rewrite (deleteComment_allowed st user id comment issue project Hc Hi Hp Ea).
  cbn [fst snd delivered issues comments attachments projects].
  split; [split; [tauto | reflexivity]|]. split; [discriminate|]. intros _.
  assert (Comment._id comment = id) as Hcid
    by now apply (comment_findById_id (comments st)).
  assert (Issue._id issue = Comment.issueId comment) as Hiid
    by now apply (issue_findById_id (issues st)).
  split; [reflexivity|]. split.
  { intros c H. unfold Comments.findByIdAndDelete in H. apply filter_In in H.
    destruct H as [_ H]. apply String.eqb_neq. now destruct (Comment._id c =? id). }
  split.
  { intros a H. unfold Attachment.deleteMany in H. apply filter_In in H.
    destruct H as [_ H]. intros Hin. apply includes_In in Hin. rewrite Hin in H.
    discriminate H. }
  split.
  { intros a H Hn. unfold Attachment.deleteMany. apply filter_In. split; [exact H|].
    destruct (Js.includes _ _) eqn:E; [|reflexivity].
    apply includes_In in E. contradiction. }
  split; [|reflexivity].
  unfold Issues.pullComment. rewrite Hiid, Hcid.
  apply (issue_findById_updateFirst (issues st) (Comment.issueId comment) issue
           (fun i => Issues.with_comments
                       (Js.filter (fun c => negb (c =? id)) (Issue.comments i)) i));
    [exact Hi | cbn; exact Hiid].
Qed.

Lemma comment_delete_by_member_owner_or_author_witness :
  delivered (fst (DELETE_comments sampleStore bob "c1")) = true.
Proof.
  destruct (comment_delete_by_member_owner_or_author sampleStore bob "c1"
              (Comment.mk "c1" "Here is the log" "u2" "i1" ["a2"]) demo1 demo
              eq_refl eq_refl eq_refl) as [H _].
  apply H. split; [simpl; tauto | right; reflexivity].
Defined.

(** X8.  [PUT /:id] of the comment router succeeds, for a stored comment
    with content, exactly when the caller is a current member, is the
    project owner or the author, and the attachment list of the body
    passes the ownership count.  A field left out keeps its value: an
    empty content keeps the content, a missing list keeps the list; id,
    author and issue never change, and attachments that the comment no
    longer lists stay in the attachment collection.  A failing call writes
    nothing. *)
Theorem comment_update_is_partial st user id content atts comment issue project :
  Comments.findById (comments st) id = Some comment ->
  Issue.findById (issues st) (Comment.issueId comment) = Some issue ->
  Project.findById (projects st) (Issue.projectId issue) = Some project ->
  Comments.validate comment = true ->
  let reply := PUT_comments st user id content atts in
  (delivered (fst reply) = true <->
     In (User._id user) (Project.member project)
     /\ (Project.owner project = User._id user \/ Comment.author comment = User._id user)
     /\ attachmentsRejected st user atts = false)
  /\ (delivered (fst reply) = false -> snd reply = st)
  /\ (delivered (fst reply) = true ->
      exists c,
        fst reply = sent OK c
        /\ Comments.findById (comments (snd reply)) id = Some c
        /\ Comment._id c = id
        /\ Comment.author c = Comment.author comment
        /\ Comment.issueId c = Comment.issueId comment
        /\ Comment.content c = (if content =? "" then Comment.content comment else content)
        /\ Comment.attachment c
           = match atts with Some l => l | None => Comment.attachment comment end
        /\ attachments (snd reply) = attachments st
        /\ issues (snd reply) = issues st
        /\ projects (snd reply) = projects st).
Proof.
  intros Hc Hi Hp Hv reply. subst reply. unfold PUT_comments.
  rewrite (checkCommentPermission_write st user id comment issue project Hc Hi Hp PUT)
    by discriminate.
  pose proof (isMember_In project user) as Hm.
  destruct (isMember project user); cbn [negb guardedA fst snd delivered].
  2:{ assert (~ In (User._id user) (Project.member project)) as Hn
        by (intros H; apply Hm in H; discriminate H).
      split; [split; [discriminate | tauto]|].
      split; [reflexivity | discriminate]. }
  assert (In (User._id user) (Project.member project)) as Hy by now apply Hm.
  destruct (negb (Project.owner project =? User._id user)
            && negb (Comment.author comment =? User._id user)) eqn:Ea;
    cbn [guardedA fst snd delivered].
  { assert (~ (Project.owner project = User._id user
               \/ Comment.author comment = User._id user)) as Hn.
    { apply andb_true_iff in Ea. destruct Ea as [E1 E2].
      apply negb_true_iff in E1, E2. apply String.eqb_neq in E1, E2. tauto. }
    split; [split; [discriminate | tauto]|].
    split; [reflexivity | discriminate]. }
  assert (Project.owner project = User._id user
          \/ Comment.author comment = User._id user) as Hor.
  { apply andb_false_iff in Ea. destruct Ea as [E|E]; apply negb_false_iff in E;
      apply String.eqb_eq in E; tauto. }
  unfold updateComment, storedComments.
  rewrite Hc, (populateComment_some _ _ _ _ Hi Hp), Ea.
  destruct (attachmentsRejected st user atts); cbn [fst snd delivered].
  { split; [split; [discriminate | intros [_ [_ H]]; discriminate H]|].
    split; [reflexivity | discriminate]. }
  unfold Comments.save.
  assert (Comments.validate
            (Comments.with_text (Js.strOr content (Comment.content comment))
               match atts with Some l => l | None => Comment.attachment comment end
               comment) = true) as ->.
  { unfold Comments.validate in *. cbn [Comment.content Comments.with_text].
    unfold Js.strOr. destruct (content =? "") eqn:E; [exact Hv | now rewrite E]. }
  cbn [fst snd delivered comments setComments attachments issues projects].
  split; [split; [tauto | reflexivity]|]. split; [discriminate|]. intros _.
  eexists. split; [reflexivity|]. split.
  { apply (comment_findById_saved _ _ comment); [exact Hc|].
    cbn. now apply (comment_findById_id (comments st)). }
  cbn [Comment._id Comment.author Comment.issueId Comment.content Comment.attachment
       Comments.with_text].
  split; [now apply (comment_findById_id (comments st))|].
  repeat split.
Qed.

Lemma comment_update_is_partial_witness :
  exists c,
    fst (PUT_comments sampleStore bob "c1" "" None) = sent OK c
    /\ Comment.content c = "Here is the log" /\ Comment.attachment c = ["a2"].
Proof.
  destruct (comment_update_is_partial sampleStore bob "c1" "" None
              (Comment.mk "c1" "Here is the log" "u2" "i1" ["a2"]) demo1 demo
              eq_refl eq_refl eq_refl eq_refl) as [_ [_ H]].
  destruct (H eq_refl) as [c [H1 [_ [_ [_ [_ [H2 [H3 _]]]]]]]].
  exists c. split; [exact H1 | split; [exact H2 | exact H3]].
Defined.

(** ** Project statistics *)

Lemma status_counts (l : list Issue.t) :
  List.length (Js.filter (fun issue => Issue.status issue =? "todo") l)
  + List.length (Js.filter (fun issue => Issue.status issue =? "inprogress") l)
  + List.length (Js.filter (fun issue => Issue.status issue =? "done") l)
  <= List.length l
  /\ ((forall i, In i l -> Js.includes Issue.statuses (Issue.status i) = true) ->
      List.length (Js.filter (fun issue => Issue.status issue =? "todo") l)
      + List.length (Js.filter (fun issue => Issue.status issue =? "inprogress") l)
      + List.length (Js.filter (fun issue => Issue.status issue =? "done") l)
      = List.length l).
Proof.
  unfold Js.filter. induction l as [|i l [IH1 IH2]]; [split; reflexivity|].
  cbn [List.filter].
  assert (forall i', In i' l -> In i' (i :: l)) as Hsub by (intros; now right).
  destruct (String.eqb_spec (Issue.status i) "todo") as [E1|E1];
    destruct (String.eqb_spec (Issue.status i) "inprogress") as [E2|E2];
    destruct (String.eqb_spec (Issue.status i) "done") as [E3|E3];
    try (rewrite E1 in E2; discriminate E2);
    try (rewrite E1 in E3; discriminate E3);
    try (rewrite E2 in E3; discriminate E3);
    cbn [List.length]; (split; [lia|]); intros H.
  - specialize (IH2 (fun i' Hi' => H i' (Hsub i' Hi'))). lia.
  - specialize (IH2 (fun i' Hi' => H i' (Hsub i' Hi'))). lia.
  - specialize (IH2 (fun i' Hi' => H i' (Hsub i' Hi'))). lia.
  - exfalso. specialize (H i (or_introl eq_refl)).
    apply includes_In in H. simpl in H.
    destruct H as [H|[H|[H|[]]]]; symmetry in H; contradiction.
Qed.

(** X9.  [getProjectStats] answers a member of the project only.  Its
    total is the number of issues stored under the project, the three
    status counts never exceed the total together and add up to it when
    every stored issue of the project has a status of the schema; the
    high-priority count is at most the total and [memberCount] is the
    length of the member list. *)
Theorem stats_partition_the_issues st user id :
  (forall s,
      getProjectStats st user id = sent OK s ->
      todoIssues s + inProgressIssues s + doneIssues s <= totalIssues s
      /\ highPriorityIssues s <= totalIssues s
      /\ totalIssues s = Issue.countDocuments (issues st) id
      /\ (exists project,
             Project.findById (projects st) id = Some project
             /\ In (User._id user) (Project.member project)
             /\ memberCount s = List.length (Project.member project))
      /\ ((forall i, In i (issues st) -> Issue.projectId i = id ->
                     Js.includes Issue.statuses (Issue.status i) = true) ->
          todoIssues s + inProgressIssues s + doneIssues s = totalIssues s))
  /\ (forall project,
        Project.findById (projects st) id = Some project ->
        ~ In (User._id user) (Project.member project) ->
        getProjectStats st user id = failed Forbidden "Access denied - Not a project member")
  /\ (Project.findById (projects st) id = None ->
      getProjectStats st user id = failed NotFound "Project not found").
Proof.
  split; [|split].
  - intros s. unfold getProjectStats.
    destruct (Project.findById (projects st) id) as [project|]; [|discriminate].
    destruct (isMember project user) eqn:Em; cbn [negb]; [|discriminate].
    intros H. injection H as <-.
    cbn [todoIssues inProgressIssues doneIssues totalIssues highPriorityIssues memberCount].
    destruct (status_counts (Issues.findByProject (issues st) id)) as [Hle Heq].
    split; [exact Hle|]. split; [apply filter_length_le|]. split; [reflexivity|].
    split.
    { exists project. split; [reflexivity|]. split; [now apply isMember_In | reflexivity]. }
    intros Hall. apply Heq. intros i Hi. unfold Issues.findByProject in Hi.
    apply filter_In in Hi. destruct Hi as [Hin Hpid]. apply String.eqb_eq in Hpid. auto.
  - intros project Hp Hn. unfold getProjectStats. rewrite Hp.
    destruct (isMember project user) eqn:Em; [|reflexivity].
    apply isMember_In in Em. contradiction.
  - intros Hp. unfold getProjectStats. now rewrite Hp.
Qed.

Lemma stats_partition_the_issues_witness :
  getProjectStats sampleStore carol "p1"
  = sent OK (mkStats 2 1 1 0 1 3)
  /\ todoIssues (mkStats 2 1 1 0 1 3) + inProgressIssues (mkStats 2 1 1 0 1 3)
     + doneIssues (mkStats 2 1 1 0 1 3)
     <= totalIssues (mkStats 2 1 1 0 1 3).
Proof.
  split; [reflexivity|].
  apply (proj1 (stats_partition_the_issues sampleStore carol "p1") (mkStats 2 1 1 0 1 3)).
  reflexivity.
Defined.

(** ** Reads *)

(** X10.  Reading needs membership only.  [GET /:id] of the issue router
    returns the stored issue exactly to the current members of its
    project, [GET /:id] of the project router the project exactly to its
    members, and [getProjects] lists exactly the projects that have the
    caller in [member]; a member who is no actor of an issue reads it but
    is refused with 403 when updating it. *)
Theorem reads_need_membership_only st user :
  (forall id issue project,
      Issue.findById (issues st) id = Some issue ->
      Project.findById (projects st) (Issue.projectId issue) = Some project ->
      (GET_issues_id st user id = json OK (issueData issue)
       <-> In (User._id user) (Project.member project))
      /\ (~ In (User._id user) (Project.member project) ->
          GET_issues_id st user id = throw Forbidden "Access denied - Not a project member")
      /\ (In (User._id user) (Project.member project) ->
          isIssueActor issue project user = false ->
          forall body,
            route st user (PUT_issues_id id body)
            = (throw Forbidden
                 "Access denied - Only project owner, reporter, or assignee can modify this issue",
               st)))
  /\ (forall id project,
        Project.findById (projects st) id = Some project ->
        (GET_projects_id st user id = json OK (projectData project)
         <-> In (User._id user) (Project.member project))
        /\ (~ In (User._id user) (Project.member project) ->
            GET_projects_id st user id
            = throw Forbidden "Access denied - Not a project member"))
  /\ (exists l, getProjects st user = sent OK l
                /\ forall p, In p l <->
                             In p (projects st) /\ In (User._id user) (Project.member p)).
Proof.
  split; [|split].
  - intros id issue project Hi Hp.
    pose proof (isMember_In project user) as Hm.
    unfold GET_issues_id, checkIssuePermission, getIssue. rewrite Hi, Hp.
    split; [|split].
    + destruct (isMember project user); cbn [negb].
      * split; [intros _; now apply Hm | reflexivity].
      * split; [discriminate|]. intros H. apply Hm in H. discriminate H.
    + intros Hn. destruct (isMember project user); [|reflexivity].
      exfalso. apply Hn. now apply Hm.
    + intros Hin Ha body. unfold route.
      rewrite (checkIssuePermission_write st user id issue project Hi Hp).
      apply Hm in Hin. now rewrite Hin, Ha.
  - intros id project Hp.
    pose proof (isMember_In project user) as Hm.
    unfold GET_projects_id, checkProjectMember, getProject. rewrite Hp.
    split.
    + destruct (isMember project user); cbn [negb].
      * split; [intros _; now apply Hm | reflexivity].
      * split; [discriminate|]. intros H. apply Hm in H. discriminate H.
    + intros Hn. destruct (isMember project user); [|reflexivity].
      exfalso. apply Hn. now apply Hm.
  - eexists. split; [reflexivity|]. intros p.
    rewrite <- in_rev. unfold Projects.findByMember. rewrite filter_In.
    now rewrite some_eqb_In.
Qed.

(** ** Attachments *)

(** X11.  [uploadAttachment] checks before it stores.  A file above
    26214400 bytes is refused with 400 whatever its type, a file of that
    size or less with a type outside the five allowed ones is refused with
    400, and every failing upload, a failure of the object store included,
    leaves the store as it was.  A created attachment belongs to the
    caller, has the id and the URL handed out, is appended to the
    collection, and its type is image, video or file: the schema's value
    pdf is never produced. *)
Theorem upload_checks_before_storing st user newId file result :
  let reply := uploadAttachment st user newId file result in
  (file = None -> reply = (failed BadRequest "No file uploaded", st))
  /\ (forall f, file = Some f -> (26214400 < Upload.size f)%Z ->
                reply = (failed BadRequest "File size too large (max 25MB)", st))
  /\ (forall f, file = Some f -> (Upload.size f <= 26214400)%Z ->
                ~ In (Upload.mimetype f) validTypes ->
                reply = (failed BadRequest
                           "Invalid file type. Only images, PDFs, and MP4 videos are allowed",
                         st))
  /\ (delivered (fst reply) = false -> snd reply = st)
  /\ (forall c, fst reply = sent Created c ->
                exists f r,
                  file = Some f /\ result = Some r
                  /\ (Upload.size f <= 26214400)%Z
                  /\ In (Upload.mimetype f) validTypes
                  /\ In (Upload.type c) ["image"; "video"; "file"]
                  /\ (Upload.type c = "image" <-> Upload.resource_type r = "image")
                  /\ Upload.stored c
                     = Attachment.mk newId (Upload.secure_url r) (Upload.public_id r)
                                     (User._id user)
                  /\ attachments (snd reply) = attachments st ++ [Upload.stored c]
                  /\ comments (snd reply) = comments st
                  /\ issues (snd reply) = issues st).
Proof.
  intros reply. subst reply. unfold uploadAttachment.
  destruct file as [f|].
  2:{ split; [reflexivity|]. split; [discriminate|]. split; [discriminate|].
      split; [reflexivity | discriminate]. }
  split; [discriminate|].
  change maxSize with 26214400%Z.
  destruct (Z.ltb_spec 26214400 (Upload.size f)) as [Hs|Hs].
  { split; [reflexivity|]. split; [intros f' E; injection E as <-; lia|].
    split; [reflexivity | discriminate]. }
  split; [intros f' E; injection E as <-; lia|].
  destruct (Js.includes validTypes (Upload.mimetype f)) eqn:Et; cbn [negb].
  2:{ split; [reflexivity|]. split; [reflexivity | discriminate]. }
  apply includes_In in Et.
  split; [intros f' E _ Hn; injection E as <-; contradiction|].
  destruct result as [r|].
  2:{ split; [reflexivity | discriminate]. }
  destruct (Upload.name f =? "").
  { split; [reflexivity | discriminate]. }
  unfold Attachments.create, storedAttachments.
  destruct (_ && _).
  2:{ split; [reflexivity | discriminate]. }
  cbn [fst snd delivered]. split; [discriminate|].
  intros c E. injection E as <-. exists f, r.
  cbn [Upload.type Upload.stored attachments comments issues setAttachments].
  split; [reflexivity|]. split; [reflexivity|]. split; [assumption|].
  split; [assumption|]. split.
  { destruct (Upload.resource_type r =? "image"); [simpl; tauto|].
    destruct (Upload.resource_type r =? "video"); simpl; tauto. }
  split.
  { destruct (String.eqb_spec (Upload.resource_type r) "image") as [E|E].
    - tauto.
    - destruct (Upload.resource_type r =? "video"); split; intros H;
        try discriminate H; contradiction. }
  repeat split.
Qed.

Lemma attachments_findById_id c id x :
  Attachments.findById c id = Some x -> Attachment._id x = id.
Proof.
  unfold Attachments.findById. intros H. apply find_some in H.
  destruct H as [_ H]. now apply String.eqb_eq.
Qed.

(** X12.  [deleteAttachment] removes the record exactly when the caller is
    the uploader or has the role admin and the object store deleted the
    file.  Anybody else gets 403; when the object store fails the reply is
    500 and the record stays.  A successful call leaves no attachment with
    the id, and leaves comments and issues as they were, lists that name
    the id included. *)
Theorem attachment_delete_by_uploader_or_admin st user id destroyed attachment :
  Attachments.findById (attachments st) id = Some attachment ->
  let reply := deleteAttachment st user id destroyed in
  (delivered (fst reply) = true <->
     (Attachment.uploadedBy attachment = User._id user \/ User.role user = "admin")
     /\ destroyed = true)
  /\ (~ (Attachment.uploadedBy attachment = User._id user \/ User.role user = "admin") ->
      reply = (failed Forbidden "Not authorized to delete this attachment", st))
  /\ ((Attachment.uploadedBy attachment = User._id user \/ User.role user = "admin") ->
      destroyed = false ->
      reply = (failed ServerError "Failed to delete attachment", st))
  /\ (delivered (fst reply) = true ->
      (forall a, In a (attachments (snd reply)) -> Attachment._id a <> id)
      /\ (forall a, In a (attachments st) -> Attachment._id a <> id ->
                    In a (attachments (snd reply)))
      /\ comments (snd reply) = comments st
      /\ issues (snd reply) = issues st).
Proof.
  intros Hf reply. subst reply. unfold deleteAttachment, storedAttachments. rewrite Hf.
  destruct (String.eqb_spec (Attachment.uploadedBy attachment) (User._id user)) as [Eo|Eo];
    destruct (String.eqb_spec (User.role user) "admin") as [Ea|Ea];
    cbn [negb andb].
  4:{ cbn [fst snd delivered].
      split; [split; [discriminate | tauto]|]. split; [reflexivity|].
      split; [tauto | discriminate]. }
  all: destruct destroyed; cbn [fst snd delivered attachments comments issues setAttachments].
  all: split; [split; [tauto | intros [_ H]; first [reflexivity | discriminate H]]|].
  all: split; [tauto|].
  all: split; [intros _ H; first [reflexivity | discriminate H]|].
  all: try discriminate.
  all: intros _; split;
    [ intros a H; unfold Attachments.findByIdAndDelete in H; apply filter_In in H;
      destruct H as [_ H]; apply String.eqb_neq; now destruct (Attachment._id a =? id) |].
  all: split; [|split; reflexivity].
  all: intros a H Hn; unfold Attachments.findByIdAndDelete; apply filter_In;
    split; [exact H|]; apply String.eqb_neq in Hn; now rewrite Hn.
Qed.

Lemma attachment_delete_by_uploader_or_admin_witness :
  deleteAttachment sampleStore bob "a2" false
  = (failed ServerError "Failed to delete attachment", sampleStore).
Proof.
  destruct (attachment_delete_by_uploader_or_admin sampleStore bob "a2" false
              (Attachment.mk "a2" "https://files/a2.pdf" "files/a2" "u2") eq_refl)
    as [_ [_ [H _]]].
  apply H; [left; reflexivity | reflexivity].
Defined.

(** ** Projects *)

Lemma upper_idem (c : ascii) : Js.upper (Js.upper c) = Js.upper c.
Proof. destruct c as [[] [] [] [] [] [] [] []]; reflexivity. Qed.

Lemma toUpperCase_idem (s : string) : Js.toUpperCase (Js.toUpperCase s) = Js.toUpperCase s.
Proof.
  induction s as [|c s IH]; [reflexivity|].
  cbn [Js.toUpperCase]. now rewrite upper_idem, IH.
Qed.

Lemma isAscii_toUpperCase (s : string) :
  Js.isAscii s = true -> Js.isAscii (Js.toUpperCase s) = true.
Proof.
  unfold Js.isAscii. induction s as [|c s IH]; [reflexivity|].
  cbn [Js.toUpperCase list_ascii_of_string forallb]. intros H.
  apply andb_true_iff in H. destruct H as [Hc Hs].
  rewrite (IH Hs), andb_true_r. rewrite <- Hc.
  destruct c as [[] [] [] [] [] [] [] []]; reflexivity.
Qed.

Lemma toUpperCase_empty (s : string) : (Js.toUpperCase s =? "") = (s =? "").
Proof. destruct s; reflexivity. Qed.

Lemma findOneByKey_found c k q :
  In q c -> Project.key q = k -> found (Project.findOneByKey c k) = true.
Proof.
  intros Hin Hk. unfold Project.findOneByKey.
  destruct (find_found (fun p => Project.key p =? k) c q Hin) as [y ->].
  - subst k. apply String.eqb_refl.
  - reflexivity.
Qed.

(** X13.  For keys of ASCII characters: a created project stores its key
    in upper case (an ASCII key again), and from then on every
    [createProject] with an ASCII key that has the same upper-case form,
    in whatever case its letters are written, is answered 400 "Project
    with this key already exists" and creates nothing. *)
Theorem project_key_is_taken_in_any_case st user newId name description key p st' :
  Js.isAscii key = true ->
  route st user (POST_projects newId name description key)
  = (json Created (projectData p), st') ->
  Project.key p = Js.toUpperCase key
  /\ Js.isAscii (Project.key p) = true
  /\ Js.toUpperCase (Project.key p) = Project.key p
  /\ forall user2 newId2 name2 description2 key2,
      Js.isAscii key2 = true ->
      Js.toUpperCase key2 = Js.toUpperCase key ->
      route st' user2 (POST_projects newId2 name2 description2 key2)
      = (throw BadRequest "Project with this key already exists", st').
Proof.
  intros Hascii H. unfold route in H. apply createProject_success in H.
  destruct H as [Hf [Hk _]].
  split; [exact Hk|]. split; [rewrite Hk; now apply isAscii_toUpperCase|].
  split; [rewrite Hk; apply toUpperCase_idem|].
  intros user2 newId2 name2 description2 key2 _ E. unfold route, createProject.
  assert (In p (projects st')) as Hin
    by (unfold Project.findById in Hf; now apply find_some in Hf).
  pose proof (findOneByKey_found (projects st') (Js.toUpperCase key2) p Hin) as Hfound.
  rewrite E in *. specialize (Hfound Hk).
  destruct (Project.findOneByKey (projects st') (Js.toUpperCase key));
    [reflexivity | discriminate Hfound].
Qed.

Lemma project_key_is_taken_in_any_case_witness :
  route (snd (route emptyStore alice (POST_projects "p1" "Demo" "A demo project" "demo")))
        bob (POST_projects "p2" "Other" "Another project" "Demo")
  = (throw BadRequest "Project with this key already exists",
     snd (route emptyStore alice (POST_projects "p1" "Demo" "A demo project" "demo"))).
Proof.
  apply (proj2 (proj2 (proj2
           (project_key_is_taken_in_any_case emptyStore alice "p1" "Demo" "A demo project"
              "demo"
              (Project.mk "p1" "Demo" "A demo project" "DEMO" "u1" ["u1"] [])
              (snd (route emptyStore alice
                      (POST_projects "p1" "Demo" "A demo project" "demo")))
              eq_refl eq_refl)))).
  - reflexivity.
  - reflexivity.
Defined.

Lemma checkProjectOwner_cases st user id project :
  Project.findById (projects st) id = Some project ->
  checkProjectOwner st user id
  = if Project.owner project =? User._id user then next
    else denied Forbidden "Access denied - Only project owner can perform this action".
Proof.
  intros Hf. unfold checkProjectOwner. rewrite Hf.
  now destruct (Project.owner project =? User._id user).
Qed.

(** X14.  [DELETE /:id] of the project router is for the owner only.  It
    removes the project and every issue stored under it and nothing else:
    the other issues stay, and so do all comments and attachments, those
    of the deleted issues included. *)
Theorem project_delete_cascades_to_issues_only st user id project :
  Project.findById (projects st) id = Some project ->
  let reply := route st user (DELETE_projects_id id) in
  (Project.owner project <> User._id user ->
   reply = (throw Forbidden "Access denied - Only project owner can perform this action", st))
  /\ (Project.owner project = User._id user ->
      fst reply = json OK (message "Project and associated issues deleted successfully")
      /\ Project.findById (projects (snd reply)) id = None
      /\ (forall p, In p (projects st) -> Project._id p <> id -> In p (projects (snd reply)))
      /\ (forall i, In i (issues (snd reply)) -> Issue.projectId i <> id)
      /\ (forall i, In i (issues st) -> Issue.projectId i <> id -> In i (issues (snd reply)))
      /\ comments (snd reply) = comments st
      /\ attachments (snd reply) = attachments st).
Proof.
  intros Hf reply. subst reply. unfold route.
  rewrite (checkProjectOwner_cases st user id project Hf).
  unfold deleteProject. rewrite Hf.
  destruct (String.eqb_spec (Project.owner project) (User._id user)) as [E|E];
    cbn [guarded negb].
  2:{ split; [reflexivity | contradiction]. }
  split; [contradiction|]. intros _.
  cbn [fst snd projects issues comments attachments setProjects setIssues].
  split; [reflexivity|]. split.
  { unfold Project.findById, Project.findByIdAndDelete.
    destruct (List.find _ _) as [q|] eqn:Eq; [|reflexivity].
    apply find_some in Eq. destruct Eq as [E1 E2]. apply filter_In in E1.
    destruct E1 as [_ E1]. rewrite E2 in E1. discriminate E1. }
  split.
  { intros p Hp Hn. unfold Project.findByIdAndDelete. apply filter_In.
    split; [exact Hp|]. apply String.eqb_neq in Hn. now rewrite Hn. }
  split.
  { intros i Hi. unfold Issue.deleteMany in Hi. apply filter_In in Hi.
    destruct Hi as [_ Hi]. apply String.eqb_neq. now destruct (Issue.projectId i =? id). }
  split; [|split; reflexivity].
  intros i Hi Hn. unfold Issue.deleteMany. apply filter_In.
  split; [exact Hi|]. apply String.eqb_neq in Hn. now rewrite Hn.
Qed.

Lemma project_delete_cascades_to_issues_only_witness :
  issues (snd (route sampleStore alice (DELETE_projects_id "p1"))) = []
  /\ comments (snd (route sampleStore alice (DELETE_projects_id "p1")))
     = comments sampleStore.
Proof.
  destruct (project_delete_cascades_to_issues_only sampleStore alice "p1" demo eq_refl)
    as [_ H].
  destruct (H eq_refl) as [_ [_ [_ [_ [_ [H1 _]]]]]].
  split; [reflexivity | exact H1].
Defined.

Lemma preSave_texts p :
  Project.name (Project.preSave p) = Project.name p
  /\ Project.description (Project.preSave p) = Project.description p.
Proof. unfold Project.preSave. destruct (negb _); split; reflexivity. Qed.

Lemma validate_with_text p n d k :
  Project.validate p = true ->
  Project.validate
    (Project.with_text (Js.strOr n (Project.name p)) (Js.strOr d (Project.description p))
       (if negb (k =? "") then Js.toUpperCase k else Project.key p) p) = true.
Proof.
  unfold Project.validate. cbn [Project.name Project.description Project.key
                                Project.pendingInvites Project.with_text].
  intros H. apply andb_true_iff in H. destruct H as [H Hi].
  apply andb_true_iff in H. destruct H as [H Hk].
  apply andb_true_iff in H. destruct H as [Hn Hd].
  rewrite Hi, andb_true_r.
  assert (negb (Js.strOr n (Project.name p) =? "") = true) as ->
    by (unfold Js.strOr; destruct (n =? "") eqn:E; [exact Hn | now rewrite E]).
  assert (negb (Js.strOr d (Project.description p) =? "") = true) as ->
    by (unfold Js.strOr; destruct (d =? "") eqn:E; [exact Hd | now rewrite E]).
  destruct (k =? "") eqn:E; cbn [negb andb]; [exact Hk|].
  now rewrite toUpperCase_empty, E.
Qed.

(** X15.  [PUT /:id] of the project router, for a stored project that
    meets its schema and a body whose key is of ASCII characters (or
    empty).  Somebody who is not the owner gets 403; the owner asking for
    a key whose upper-case form is the key of another stored project gets
    400; a failing call writes nothing.  A successful call keeps what the
    body leaves empty: name, description and key keep their value for an
    empty field, a given key is stored in upper case; owner, pending
    invites and members stay, and no issue is touched, so issue keys keep
    the prefix they were created with. *)
Theorem project_update_is_partial st user id name description key project :
  Project.findById (projects st) id = Some project ->
  Project.validate project = true ->
  Js.isAscii key = true ->
  let reply := route st user (PUT_projects_id id name description key) in
  (Project.owner project <> User._id user ->
   reply = (throw Forbidden "Access denied - Only project owner can perform this action", st))
  /\ (Project.owner project = User._id user ->
      key <> "" -> Js.toUpperCase key <> Project.key project ->
      (exists q, In q (projects st) /\ Project.key q = Js.toUpperCase key) ->
      reply = (throw BadRequest "Project with this key already exists", st))
  /\ (Project.owner project = User._id user ->
      (key = "" \/ Js.toUpperCase key = Project.key project
       \/ forall q, In q (projects st) -> Project.key q <> Js.toUpperCase key) ->
      succeeded (fst reply) = true)
  /\ (succeeded (fst reply) = false -> snd reply = st)
  /\ (succeeded (fst reply) = true ->
      exists p',
        fst reply = json OK (projectData p')
        /\ Project.findById (projects (snd reply)) id = Some p'
        /\ Project._id p' = id
        /\ Project.name p' = (if name =? "" then Project.name project else name)
        /\ Project.description p'
           = (if description =? "" then Project.description project else description)
        /\ Project.key p' = (if key =? "" then Project.key project else Js.toUpperCase key)
        /\ Project.owner p' = Project.owner project
        /\ Project.pendingInvites p' = Project.pendingInvites project
        /\ (forall x, In x (Project.member project) -> In x (Project.member p'))
        /\ issues (snd reply) = issues st).
Proof.
  intros Hf Hv _ reply. subst reply. unfold route.
  rewrite (checkProjectOwner_cases st user id project Hf).
  unfold updateProject. rewrite Hf.
  destruct (String.eqb_spec (Project.owner project) (User._id user)) as [E|E];
    cbn [guarded negb fst snd succeeded].
  2:{ split; [reflexivity|]. split; [contradiction|]. split; [contradiction|].
      split; [reflexivity | discriminate]. }
  split; [contradiction|].
  destruct (negb (key =? "") && negb (Js.toUpperCase key =? Project.key project)
            && found (Project.findOneByKey (projects st) (Js.toUpperCase key))) eqn:Ec;
    cbn [fst snd succeeded].
  - apply andb_true_iff in Ec. destruct Ec as [Ec Efound].
    apply andb_true_iff in Ec. destruct Ec as [Ek Eu].
    apply negb_true_iff in Ek, Eu. apply String.eqb_neq in Ek, Eu.
    split; [reflexivity|]. split.
    { intros _ [H|[H|H]]; [contradiction | contradiction |]. exfalso.
      unfold Project.findOneByKey in Efound.
      destruct (List.find _ _) as [q|] eqn:Eq; [|discriminate Efound].
      apply find_some in Eq. destruct Eq as [Hin Hk]. apply String.eqb_eq in Hk.
      now apply (H q). }
    split; [reflexivity | discriminate].
  - split.
    { intros _ Hk Hu [q [Hin Hq]]. exfalso.
      apply String.eqb_neq in Hk, Hu. rewrite Hk, Hu in Ec. cbn [negb andb] in Ec.
      rewrite (findOneByKey_found _ _ q Hin Hq) in Ec. discriminate Ec. }
    unfold Project.save. rewrite (validate_with_text project name description key Hv).
    cbn [fst snd succeeded projects issues setProjects].
    split; [reflexivity|]. split; [discriminate|]. intros _.
    match goal with
    | |- context [Project.preSave ?q] => set (p1 := q)
    end.
    destruct (preSave_fields p1) as [Hid [Ho [Hpi Hk]]].
    destruct (preSave_members p1) as [Hkeep _].
    exists (Project.preSave p1).
    assert (Project._id project = id) as Hpid
      by now apply (project_findById_id (projects st)).
    split; [reflexivity|]. split.
    { apply (project_findById_saved _ _ project); [exact Hf|]. rewrite Hid. exact Hpid. }
    split; [rewrite Hid; exact Hpid|].
    destruct (preSave_texts p1) as [-> ->].
    rewrite Hk, Ho, Hpi. subst p1.
    cbn [Project.name Project.description Project.key Project.owner Project.pendingInvites
         Project.with_text]. unfold Js.strOr.
    split; [reflexivity|]. split; [reflexivity|].
    split; [now destruct (key =? "")|].
    split; [reflexivity|]. split; [reflexivity|]. split; [|reflexivity].
    intros x Hx. apply Hkeep. exact Hx.
Qed.

Lemma project_update_is_partial_witness :
  exists p',
    fst (route sampleStore alice (PUT_projects_id "p1" "" "Renamed" "web"))
    = json OK (projectData p')
    /\ Project.name p' = "Demo" /\ Project.key p' = "WEB"
    /\ issues (snd (route sampleStore alice (PUT_projects_id "p1" "" "Renamed" "web")))
       = issues sampleStore.
Proof.
  destruct (project_update_is_partial sampleStore alice "p1" "" "Renamed" "web" demo
              eq_refl eq_refl eq_refl) as [_ [_ [_ [_ H]]]].
  destruct (H eq_refl) as [p' [H1 [_ [_ [H2 [_ [H3 [_ [_ [_ H4]]]]]]]]]].
  exists p'. split; [exact H1|]. split; [exact H2|]. split; [exact H3 | exact H4].
Defined.

(** ** Issues *)

(** X16.  A successful [PUT /:id] of the issue router never changes the
    id, key, reporter, project, attachments or comments of the issue.
    Title, description, status and priority keep their value for an empty
    field, tags and due date for a missing one; a missing assignee keeps
    the assignee, [null] clears it and a string sets it.  The stored
    status and priority are values of the schema, the issue is found under
    its id afterwards, and projects and comments are untouched. *)
Theorem issue_update_is_partial st user id body issue i st' :
  Issue.findById (issues st) id = Some issue ->
  route st user (PUT_issues_id id body) = (json OK (issueData i), st') ->
  (Issue._id i = id /\ Issue.key i = Issue.key issue
   /\ Issue.reporter i = Issue.reporter issue
   /\ Issue.projectId i = Issue.projectId issue
   /\ Issue.attachments i = Issue.attachments issue
   /\ Issue.comments i = Issue.comments issue)
  /\ (Issue.title i = (if title body =? "" then Issue.title issue else title body)
      /\ Issue.description i
         = (if description body =? "" then Issue.description issue else description body)
      /\ Issue.status i = (if status body =? "" then Issue.status issue else status body)
      /\ Issue.priority i
         = (if priority body =? "" then Issue.priority issue else priority body)
      /\ Issue.tags i = match tags body with Some t => t | None => Issue.tags issue end
      /\ Issue.dueDate i
         = match dueDate body with Some d => d | None => Issue.dueDate issue end)
  /\ ((assignee body = Js.undefined -> Issue.assignee i = Issue.assignee issue)
      /\ (assignee body = Js.null -> Issue.assignee i = None)
      /\ (forall a, assignee body = Js.str a -> Issue.assignee i = Some a))
  /\ (In (Issue.status i) Issue.statuses /\ In (Issue.priority i) Issue.priorities)
  /\ (Issue.findById (issues st') id = Some i
      /\ projects st' = projects st /\ comments st' = comments st).
Proof.
  intros Hi H. unfold route in H. apply guarded_json in H. destruct H as [_ H].
  unfold updateIssue in H. rewrite Hi in H.
  destruct (Project.findById _ _) as [project|]; [|discriminate H].
  destruct (negb (isMember project user)); [discriminate H|].
  destruct (_ && _ && _); [discriminate H|].
  destruct (Js.truthy _ && _); [discriminate H|].
  destruct (match assignee body with Js.undefined => _ | _ => _ end) as [a'|] eqn:Ea;
    [|discriminate H].
  match type of H with
  | context [Issue.save _ ?n] => remember n as new eqn:Enew
  end.
  destruct (Issue.save _ _) as [[j l]|] eqn:Es; [|discriminate H].
  injection H as <- <-.
  apply issue_save_doc in Es. destruct Es as [-> [Hv ->]].
  assert (Issue._id issue = id) as Hid by now apply (issue_findById_id (issues st)).
  assert (Issue._id new = id) as Hnid by (rewrite Enew; exact Hid).
  split; [rewrite Enew; repeat split; exact Hid|].
  split; [rewrite Enew; unfold Js.strOr; repeat split|].
  split.
  { rewrite Enew. cbn [Issue.assignee]. split; [|split].
    - intros E. rewrite E in Ea. now injection Ea as <-.
    - intros E. rewrite E in Ea. cbn in Ea. now injection Ea as <-.
    - intros a E. rewrite E in Ea. unfold castObjectId in Ea.
      destruct (a =? ""); [discriminate Ea | now injection Ea as <-]. }
  split.
  { unfold Issue.validate in Hv.
    apply andb_true_iff in Hv. destruct Hv as [Hv Hp].
    apply andb_true_iff in Hv. destruct Hv as [_ Hs].
    split; now apply includes_In. }
  split; [|split; reflexivity].
  cbn [issues setIssues].
  apply (issue_findById_saved _ _ issue new); [exact Hi | exact Hnid].
Qed.

Lemma issue_update_is_partial_witness :
  exists i,
    fst (route sampleStore alice
           (PUT_issues_id "i1" (mkIssueBody "" "" "done" "" Js.null None None)))
    = json OK (issueData i)
    /\ Issue.key i = "DEMO-1" /\ Issue.title i = "Crash on start"
    /\ Issue.status i = "done" /\ Issue.assignee i = None.
Proof.
  eexists. split; [reflexivity|].
  destruct (issue_update_is_partial sampleStore alice "i1"
              (mkIssueBody "" "" "done" "" Js.null None None) demo1 _ _ eq_refl eq_refl)
    as [[_ [Hk _]] [[Ht [_ [Hs _]]] [[_ [Ha _]] _]]].
  split; [exact Hk|]. split; [exact Ht|]. split; [exact Hs | exact (Ha eq_refl)].
Defined.

(** X17.  The key of a new issue is counted, not reserved: when an issue
    with the key [project.key-(N+1)] is already stored, [N] being the
    number of issues of the project, the create fails and stores nothing;
    for a member who names no assignee the reply is a 500.  This is the
    state of a project after one of its issues other than the last was
    deleted. *)
Theorem issue_key_collision_blocks_creation st user newId projectId body project :
  Project.findById (projects st) projectId = Some project ->
  (exists i, In i (issues st)
             /\ Issue.key i
                = String.append (Project.key project)
                    (String.append "-"
                       (Js.numToString (Issue.countDocuments (issues st) projectId + 1)))) ->
  let reply := route st user (POST_projects_id_issues newId projectId body) in
  succeeded (fst reply) = false
  /\ snd reply = st
  /\ (In (User._id user) (Project.member project) ->
      Js.truthy (assignee body) = false ->
      fst reply = throw ServerError "ValidationError").
Proof.
  intros Hp [i [Hin Hk]] reply. subst reply. unfold route, checkProjectMember, createIssue.
  rewrite Hp. pose proof (isMember_In project user) as Hm.
  destruct (isMember project user); cbn [negb guarded fst snd succeeded].
  2:{ split; [reflexivity|]. split; [reflexivity|]. intros H. apply Hm in H. discriminate H. }
  destruct (Js.truthy (assignee body) && _) eqn:Ec; cbn [fst snd succeeded].
  { split; [reflexivity|]. split; [reflexivity|]. intros _ Ht. rewrite Ht in Ec.
    discriminate Ec. }
  destruct (castObjectId _) as [o|]; cbn [fst snd succeeded]; [|repeat split].
  unfold Issue.create. cbn [Issue.key Issue._id].
  assert (existsb
            (fun d =>
               Issue.key d
               =? String.append (Project.key project)
                    (String.append "-"
                       (Js.numToString (Issue.countDocuments (issues st) projectId + 1))))
            (issues st) = true) as ->.
  { apply existsb_exists. exists i. split; [exact Hin|]. rewrite Hk. apply String.eqb_refl. }
  rewrite andb_false_r. cbn [fst snd succeeded]. repeat split.
Qed.

Lemma issue_key_collision_blocks_creation_witness :
  route storeAfterDeletion alice
        (POST_projects_id_issues "i3" "p1" (sampleBody Js.undefined))
  = (throw ServerError "ValidationError", storeAfterDeletion).
Proof.
  destruct (issue_key_collision_blocks_creation storeAfterDeletion alice "i3" "p1"
              (sampleBody Js.undefined)
              (Project.mk "p1" "Demo" "A demo project" "DEMO" "u1" ["u1"] [])
              eq_refl) as [_ [H2 H3]].
  - eexists. split; [left; reflexivity | reflexivity].
  - rewrite (surjective_pairing
               (route storeAfterDeletion alice
                      (POST_projects_id_issues "i3" "p1" (sampleBody Js.undefined)))).
    rewrite H2, H3; [reflexivity | simpl; tauto | reflexivity].
Defined.

(** ** Invitations, continued *)

Lemma validate_preSave p : Project.validate (Project.preSave p) = Project.validate p.
Proof.
  unfold Project.validate.
  destruct (preSave_fields p) as [_ [_ [Hpi Hk]]].
  destruct (preSave_texts p) as [Hn Hd].
  now rewrite Hpi, Hk, Hn, Hd.
Qed.

(** A project that keeps its texts and holds some of the invites of a
    valid project is valid. *)
Lemma validate_fewer_invites p q :
  Project.name q = Project.name p ->
  Project.description q = Project.description p ->
  Project.key q = Project.key p ->
  (forall i, In i (Project.pendingInvites q) -> In i (Project.pendingInvites p)) ->
  Project.validate p = true -> Project.validate q = true.
Proof.
  intros Hn Hd Hk Hi. unfold Project.validate. rewrite Hn, Hd, Hk.
  intros H. apply andb_true_iff in H. destruct H as [H1 H2].
  rewrite H1. cbn [andb]. rewrite forallb_forall in *. auto.
Qed.

(** What a successful [inviteMember] found and stored. *)
Lemma inviteMember_sent st user id email role tok now b st1 project :
  Project.findById (projects st) id = Some project ->
  route st user (POST_projects_id_invite id email role tok now true) = (json OK b, st1) ->
  let invite :=
    {| Invite.email := email;
       Invite.role := Js.strOr role "developer";
       Invite.invitedBy := User._id user;
       Invite.token := tok;
       Invite.expiresAt := (now + 604800000)%Z |} in
  let p1 :=
    Project.with_pendingInvites (Project.pendingInvites project ++ [invite]) project in
  Project.owner project = User._id user
  /\ match User.findOne (users st) email with
     | Some existingUser =>
       Js.some (fun memberId => memberId =? User._id existingUser) (Project.member project)
     | None => false
     end = false
  /\ (forall i, In i (Project.pendingInvites project) -> Invite.email i <> email)
  /\ Project.validate p1 = true
  /\ st1 = setProjects
             (map (fun d => if Project._id d =? Project._id (Project.preSave p1)
                            then Project.preSave p1 else d) (projects st)) st.
Proof.
  intros Hf H invite p1. unfold route in H. apply guarded_json in H. destruct H as [_ H].
  unfold inviteMember in H. rewrite Hf in H.
  destruct (String.eqb_spec (Project.owner project) (User._id user)) as [Eo|Eo];
    cbn [negb] in H; [|discriminate H].
  destruct (match User.findOne (users st) email with Some _ => _ | None => _ end);
    [discriminate H|].
  destruct (Js.find _ _) eqn:Efind; [discriminate H|].
  destruct (Project.save _ _) as [[q l]|] eqn:Es; [|discriminate H].
  injection H as _ <-.
  unfold Project.save in Es. destruct (Project.validate _) eqn:Ev; [|discriminate Es].
  injection Es as _ <-.
  split; [exact Eo|]. split; [reflexivity|]. split.
  { intros i Hi He. unfold Js.find in Efind.
    apply (find_none _ _ Efind) in Hi. rewrite He, String.eqb_refl in Hi. discriminate Hi. }
  split; reflexivity.
Qed.

(** X18.  An invitation is not sent twice: after a successful
    [inviteMember] for an email, every further invite of the same email to
    the same project by the owner is answered 400 "Invitation already sent
    to this email" and writes nothing, whatever role, token or time it
    comes with. *)
Theorem invitation_is_not_sent_twice st user id email role tok now b st1 project :
  Project.findById (projects st) id = Some project ->
  ownerIsMember project ->
  route st user (POST_projects_id_invite id email role tok now true) = (json OK b, st1) ->
  forall role2 tok2 now2 sent2,
    route st1 user (POST_projects_id_invite id email role2 tok2 now2 sent2)
    = (throw BadRequest "Invitation already sent to this email", st1).
Proof.
  intros Hf Hom H role2 tok2 now2 sent2.
  destruct (inviteMember_sent st user id email role tok now b st1 project Hf H)
    as [Ho [Hnm [_ [_ ->]]]].
  set (p1 := Project.with_pendingInvites _ project).
  assert (Project.preSave p1 = p1) as Hps by (apply preSave_id; exact Hom).
  rewrite Hps.
  assert (Project._id project = id) as Hid by now apply (project_findById_id (projects st)).
  assert (Project.findById
            (map (fun d => if Project._id d =? Project._id p1 then p1 else d) (projects st))
            id = Some p1) as Hf1
    by (apply (project_findById_saved _ _ project); [exact Hf | exact Hid]).
  unfold route, checkProjectOwner, inviteMember.
  cbn [projects users setProjects]. rewrite Hf1.
  cbn [Project.owner Project.member Project.pendingInvites Project.with_pendingInvites p1].
  rewrite Ho, String.eqb_refl. cbn [negb guarded]. rewrite Hnm.
  destruct (Js.find _ _) eqn:Efind; [reflexivity|].
  exfalso. unfold Js.find in Efind.
  match type of Efind with
  | List.find _ (_ ++ [?i]) = None =>
    assert (In i (Project.pendingInvites project ++ [i])) as Hin
        by (apply in_or_app; right; now left);
      apply (find_none _ _ Efind) in Hin
  end.
  cbn [Invite.email] in Hin. rewrite String.eqb_refl in Hin. discriminate Hin.
Qed.

Lemma invitation_is_not_sent_twice_witness :
  route invitedStore alice
        (POST_projects_id_invite "p1" "dave@x.com" "viewer" "tok2" 5000 true)
  = (throw BadRequest "Invitation already sent to this email", invitedStore).
Proof.
  apply (invitation_is_not_sent_twice sampleStore alice "p1" "dave@x.com" "" "tok1" 1000
           (message "Invitation sent successfully") invitedStore demo).
  - reflexivity.
  - now left.
  - reflexivity.
Defined.

(** The query for a token finds the project that alone holds it beside an
    unexpired invite. *)
Lemma findOneByInvite_only c tok now p :
  In p c ->
  (forall q, In q c -> holdsToken q tok -> q = p) ->
  holdsToken p tok ->
  (exists i, In i (Project.pendingInvites p) /\ (now < Invite.expiresAt i)%Z) ->
  Project.findOneByInvite c tok now = Some p.
Proof.
  intros Hin Honly Hh [i [Hi Hlt]]. unfold Project.findOneByInvite.
  destruct (find_found
              (fun p0 => existsb (fun i0 => Invite.token i0 =? tok) (Project.pendingInvites p0)
                         && existsb (fun i0 => (now <? Invite.expiresAt i0)%Z)
                                    (Project.pendingInvites p0)) c p Hin) as [y Hy].
  - apply andb_true_iff. split; [now apply holdsToken_existsb|].
    apply existsb_exists. exists i. split; [exact Hi | now apply Z.ltb_lt].
  - rewrite Hy. f_equal. apply find_some in Hy. destruct Hy as [Hyin Hy].
    apply andb_true_iff in Hy. destruct Hy as [Hy _]. apply holdsToken_existsb in Hy.
    now apply Honly.
Qed.

(** The accepting branch of [acceptInvitation]. *)
Lemma acceptInvitation_accepts st user tok now p inv :
  Project.findOneByInvite (projects st) tok now = Some p ->
  Js.find (fun i => Invite.token i =? tok) (Project.pendingInvites p) = Some inv ->
  Invite.email inv = User.email user ->
  Project.validate p = true ->
  exists p',
    acceptInvitation st user tok now
    = (json OK (projectData p'),
       setProjects (map (fun d => if Project._id d =? Project._id p' then p' else d)
                        (projects st)) st)
    /\ Project._id p' = Project._id p
    /\ In (User._id user) (Project.member p')
    /\ ~ holdsToken p' tok.
Proof.
  intros Hf Hfind He Hv. unfold acceptInvitation. rewrite Hf, Hfind, He, String.eqb_refl.
  cbn [negb].
  set (q := Project.with_pendingInvites _ _).
  assert (Project.validate q = true) as Hq.
  { apply (validate_fewer_invites p q); try exact Hv;
      try (subst q; destruct (negb (isMember p user)); reflexivity).
    intros i Hi. subst q. cbn [Project.pendingInvites Project.with_pendingInvites] in Hi.
    apply filter_In in Hi. destruct Hi as [Hi _].
    destruct (negb (isMember p user)); exact Hi. }
  unfold Project.save. rewrite Hq.
  destruct (preSave_fields q) as [Hid [_ [Hpi _]]].
  destruct (preSave_members q) as [Hkeep _].
  exists (Project.preSave q). split; [reflexivity|]. split.
  { rewrite Hid. subst q. destruct (negb (isMember p user)); reflexivity. }
  split.
  { apply Hkeep. subst q. cbn [Project.member Project.with_pendingInvites].
    destruct (isMember p user) eqn:Em; cbn [negb].
    - now apply isMember_In.
    - cbn [Project.member Project.with_member]. unfold Js.push.
      apply in_or_app. right. now left. }
  intros [i [Hi Ht]]. rewrite Hpi in Hi. subst q.
  cbn [Project.pendingInvites Project.with_pendingInvites] in Hi.
  apply filter_In in Hi. destruct Hi as [_ Hi].
  rewrite Ht, String.eqb_refl in Hi. discriminate Hi.
Qed.

(** X19.  Invite, then accept.  After a successful [inviteMember] with a
    token that no project held before, the user whose email was invited
    and who presents the token before the expiry, seven days after the
    invite, is accepted: the project of the invite is returned with the
    user among its members and without the invite, and the member guard
    of that project lets the user through from then on. *)
Theorem invited_user_becomes_member st owner id email role tok now b st1 project user now2 :
  Project.findById (projects st) id = Some project ->
  (forall p, In p (projects st) -> ~ holdsToken p tok) ->
  route st owner (POST_projects_id_invite id email role tok now true) = (json OK b, st1) ->
  User.email user = email ->
  (now2 < now + 604800000)%Z ->
  exists p' st2,
    route st1 user (POST_projects_accept_invite tok now2) = (json OK (projectData p'), st2)
    /\ Project._id p' = id
    /\ In (User._id user) (Project.member p')
    /\ ~ holdsToken p' tok
    /\ Project.findById (projects st2) id = Some p'
    /\ checkProjectMember st2 user id = next.
Proof.
  intros Hf Hfresh H He Hlt.
  destruct (inviteMember_sent st owner id email role tok now b st1 project Hf H)
    as [_ [_ [_ [Hv ->]]]].
  set (invite := Invite.mk email (Js.strOr role "developer") (User._id owner) tok
                           (now + 604800000)%Z) in *.
  set (p1 := Project.with_pendingInvites (Project.pendingInvites project ++ [invite]) project)
    in *.
  destruct (preSave_fields p1) as [Hid1 [_ [Hpi1 _]]].
  assert (Project._id project = id) as Hid by now apply (project_findById_id (projects st)).
  assert (Project._id (Project.preSave p1) = id) as Hid1' by (rewrite Hid1; exact Hid).
  set (c1 := map (fun d => if Project._id d =? Project._id (Project.preSave p1)
                           then Project.preSave p1 else d) (projects st)).
  assert (Project.findById c1 id = Some (Project.preSave p1)) as Hf1
    by (apply (project_findById_saved _ _ project); [exact Hf | exact Hid1']).
  assert (In (Project.preSave p1) c1) as Hin1
    by (unfold Project.findById in Hf1; now apply find_some in Hf1).
  assert (forall q, In q c1 -> holdsToken q tok -> q = Project.preSave p1) as Honly.
  { intros q Hq Hh. unfold c1 in Hq. apply in_map_iff in Hq. destruct Hq as [d [Hd Hdin]].
    destruct (Project._id d =? _); [now symmetry|]. subst q.
    exfalso. now apply (Hfresh d). }
  assert (In invite (Project.pendingInvites (Project.preSave p1))) as Hinv
    by (rewrite Hpi1; cbn; apply in_or_app; right; now left).
  assert (Project.findOneByInvite c1 tok now2 = Some (Project.preSave p1)) as Hq.
  { apply findOneByInvite_only; [exact Hin1 | exact Honly | |].
    - exists invite. split; [exact Hinv | reflexivity].
    - exists invite. split; [exact Hinv | exact Hlt]. }
  assert (Js.find (fun i => Invite.token i =? tok)
                  (Project.pendingInvites (Project.preSave p1)) = Some invite) as Hfind.
  { rewrite Hpi1. cbn [Project.pendingInvites Project.with_pendingInvites p1].
    unfold Js.find. apply find_app_new; [|apply String.eqb_refl].
    destruct (existsb _ (Project.pendingInvites project)) eqn:Ex; [|reflexivity].
    exfalso. apply existsb_exists in Ex. destruct Ex as [i [Hi Ht]].
    apply String.eqb_eq in Ht. apply (Hfresh project).
    - unfold Project.findById in Hf. now apply find_some in Hf.
    - now exists i. }
  assert (Project.validate (Project.preSave p1) = true) as Hv1
    by (rewrite validate_preSave; exact Hv).
  destruct (acceptInvitation_accepts (setProjects c1 st) user tok now2
              (Project.preSave p1) invite Hq Hfind (eq_sym He) Hv1)
    as [p' [Hacc [Hpid [Hmem Hno]]]].
  exists p'. eexists. unfold route. split; [exact Hacc|].
  split; [congruence|]. split; [exact Hmem|]. split; [exact Hno|].
  assert (Project.findById
            (map (fun d => if Project._id d =? Project._id p' then p' else d) c1) id
          = Some p') as Hf2
    by (apply (project_findById_saved _ _ (Project.preSave p1)); [exact Hf1 | congruence]).
  split; [exact Hf2|].
  unfold checkProjectMember. cbn [projects setProjects]. rewrite Hf2.
  apply isMember_In in Hmem. now rewrite Hmem.
Qed.

Lemma invited_user_becomes_member_witness :
  exists p' st2,
    route invitedStore dave (POST_projects_accept_invite "tok1" 2000)
    = (json OK (projectData p'), st2)
    /\ checkProjectMember st2 dave "p1" = next.
Proof.
  destruct (invited_user_becomes_member sampleStore alice "p1" "dave@x.com" "" "tok1" 1000
              (message "Invitation sent successfully") invitedStore demo dave 2000)
    as [p' [st2 [H1 [_ [_ [_ [_ H2]]]]]]].
  - reflexivity.
  - simpl. intros p [<-|[]] [inv [[] _]].
  - reflexivity.
  - reflexivity.
  - reflexivity.
  - exists p', st2. split; assumption.
Defined.

(** X20.  The expiry of an invite is tested on the project, not on the
    invite: the query asks for a project with some invite carrying the
    token and some invite that has not expired.  So a user who presents a
    token whose own invite has expired is still accepted, and joins the
    project, when the same project holds another invite that is not
    expired yet. *)
Theorem expired_invite_accepted_beside_live_one st user tok now p inv other :
  In p (projects st) ->
  (forall q, In q (projects st) -> holdsToken q tok -> q = p) ->
  Js.find (fun i => Invite.token i =? tok) (Project.pendingInvites p) = Some inv ->
  Invite.email inv = User.email user ->
  (Invite.expiresAt inv <= now)%Z ->
  In other (Project.pendingInvites p) ->
  (now < Invite.expiresAt other)%Z ->
  Project.validate p = true ->
  exists p' st',
    route st user (POST_projects_accept_invite tok now) = (json OK (projectData p'), st')
    /\ Project._id p' = Project._id p
    /\ In (User._id user) (Project.member p')
    /\ ~ holdsToken p' tok.
Proof.
  intros Hin Honly Hfind He _ Hother Hlive Hv.
  assert (holdsToken p tok) as Hh.
  { unfold Js.find in Hfind. apply find_some in Hfind. destruct Hfind as [Hi Ht].
    apply String.eqb_eq in Ht. now exists inv. }
  assert (Project.findOneByInvite (projects st) tok now = Some p) as Hq.
  { apply findOneByInvite_only; [exact Hin | exact Honly | exact Hh|].
    exists other. split; assumption. }
  destruct (acceptInvitation_accepts st user tok now p inv Hq Hfind He Hv)
    as [p' [Hacc H]].
  exists p'. eexists. unfold route. split; [exact Hacc | exact H].
Qed.


Lemma expired_invite_accepted_beside_live_one_witness :
  exists p' st',
    route reinvitedStore dave (POST_projects_accept_invite "tok1" 700000001)
    = (json OK (projectData p'), st')
    /\ In "u4" (Project.member p').
Proof.
  destruct (expired_invite_accepted_beside_live_one reinvitedStore dave "tok1" 700000001
              demoReinvited daveInvite erinInvite)
    as [p' [st' [H1 [_ [H2 _]]]]].
  - now left.
  - intros q [<-|[]] _. reflexivity.
  - reflexivity.
  - reflexivity.
  - vm_compute. discriminate.
  - right. now left.
  - reflexivity.
  - reflexivity.
  - exists p', st'. split; assumption.
Defined.

(** ** Removing a member *)

Lemma findIndex_split {A} (f : A -> bool) (l : list A) (i : nat) :
  Js.findIndex f l = Some i ->
  exists l1 x l2, l = l1 ++ x :: l2 /\ f x = true /\ Js.splice1 i l = l1 ++ l2.
Proof.
  revert i. induction l as [|a l IH]; intros i H; cbn [Js.findIndex] in H; [discriminate H|].
  destruct (f a) eqn:Ea.
  - injection H as <-. exists [], a, l. now repeat split.
  - destruct (Js.findIndex f l) as [j|] eqn:Ej; [|discriminate H].
    cbn [option_map] in H. injection H as <-.
    destruct (IH j eq_refl) as [l1 [x [l2 [-> [Hx Hs]]]]].
    exists (a :: l1), x, l2. split; [reflexivity|]. split; [exact Hx|].
    cbn [Js.splice1]. now rewrite Hs.
Qed.

Lemma findIndex_none {A} (f : A -> bool) (l : list A) :
  Js.findIndex f l = None -> forall x, In x l -> f x = false.
Proof.
  induction l as [|a l IH]; intros H x Hx; [destruct Hx|].
  cbn [Js.findIndex] in H. destruct (f a) eqn:Ea; [discriminate H|].
  destruct (Js.findIndex f l); [discriminate H|].
  destruct Hx as [<-|Hx]; [exact Ea | now apply IH].
Qed.

Lemma preSave_In p x :
  In x (Project.member (Project.preSave p)) -> x = Project.owner p \/ In x (Project.member p).
Proof.
  unfold Project.preSave. destruct (negb _); cbn [Project.member Project.with_member].
  - unfold Js.unshift. intros [<-|H]; auto.
  - auto.
Qed.

(** X21.  [DELETE /:id/members/:memberId] by the owner.  An id that is
    not in the member list is answered 404 and nothing is written.  An id
    that is listed (once) is taken out: the request succeeds, the project
    read back has every other member and the same invites, the removed
    user is stopped by the member guard from then on, and no issue is
    touched, so an issue assigned to the removed user stays assigned. *)
Theorem removed_member_loses_access st user id memberId project :
  Project.findById (projects st) id = Some project ->
  Project.owner project = User._id user ->
  memberId <> User._id user ->
  (~ In memberId (Project.member project) ->
   route st user (DELETE_projects_id_members id memberId)
   = (throw NotFound "Member not found in this project", st))
  /\ (In memberId (Project.member project) ->
      NoDup (Project.member project) ->
      Project.validate project = true ->
      exists p' st',
        route st user (DELETE_projects_id_members id memberId)
        = (json OK (message "Member removed successfully"), st')
        /\ Project.findById (projects st') id = Some p'
        /\ ~ In memberId (Project.member p')
        /\ (forall x, x <> memberId -> In x (Project.member project) ->
                      In x (Project.member p'))
        /\ Project.pendingInvites p' = Project.pendingInvites project
        /\ issues st' = issues st
        /\ forall removed, User._id removed = memberId ->
             checkProjectMember st' removed id
             = denied Forbidden "Access denied - Not a project member").
Proof.
  intros Hf Ho Hne.
  assert ((memberId =? User._id user) = false) as Hneb by now apply String.eqb_neq.
  assert (route st user (DELETE_projects_id_members id memberId)
          = match Js.findIndex (fun member => member =? memberId) (Project.member project) with
            | None => (throw NotFound "Member not found in this project", st)
            | Some memberIndex =>
              match Project.save (projects st)
                      (Project.with_member
                         (Js.splice1 memberIndex (Project.member project)) project) with
              | None => (throw ServerError "ValidationError", st)
              | Some (_, l) =>
                (json OK (message "Member removed successfully"), setProjects l st)
              end
            end) as Hr.
  { unfold route, checkProjectOwner, removeMember.
    rewrite Hf, Ho, String.eqb_refl, Hneb. reflexivity. }
  rewrite Hr. clear Hr. split.
  - intros Hnot. destruct (Js.findIndex _ _) as [i|] eqn:Ei; [|reflexivity].
    exfalso. destruct (findIndex_split _ _ _ Ei) as [l1 [x [l2 [Hl [Hx _]]]]].
    apply String.eqb_eq in Hx. subst x. apply Hnot. rewrite Hl.
    apply in_or_app. right. now left.
  - intros Hin Hnd Hv.
    destruct (Js.findIndex _ _) as [i|] eqn:Ei.
    2:{ exfalso. pose proof (findIndex_none _ _ Ei memberId Hin) as Hx.
        cbn beta in Hx. rewrite String.eqb_refl in Hx. discriminate Hx. }
    destruct (findIndex_split _ _ _ Ei) as [l1 [x [l2 [Hl [Hx Hs]]]]].
    apply String.eqb_eq in Hx. subst x.
    set (p := Project.with_member _ project).
    assert (Project.validate p = true) as Hvp by exact Hv.
    unfold Project.save. rewrite Hvp.
    assert (Project._id project = id) as Hid by now apply (project_findById_id (projects st)).
    destruct (preSave_fields p) as [Hpid [Hpo [Hpi _]]].
    assert (Project.findById
              (map (fun d => if Project._id d =? Project._id (Project.preSave p)
                             then Project.preSave p else d) (projects st)) id
            = Some (Project.preSave p)) as Hf'
      by (apply (project_findById_saved _ _ project); [exact Hf | now rewrite Hpid]).
    assert (~ In memberId (Project.member (Project.preSave p))) as Hgone.
    { intros H. apply preSave_In in H. destruct H as [H|H].
      - apply Hne. rewrite H. exact Ho.
      - unfold p in H. cbn [Project.member Project.with_member] in H.
        unfold ObjectId in H. rewrite Hs in H.
        rewrite Hl in Hnd. apply NoDup_remove_2 in Hnd. now apply Hnd. }
    exists (Project.preSave p). eexists. split; [reflexivity|].
    cbn [projects issues setProjects]. split; [exact Hf'|]. split; [exact Hgone|].
    split.
    { intros x Hxne Hxin. apply (proj1 (preSave_members p)).
      unfold p. cbn [Project.member Project.with_member]. unfold ObjectId. rewrite Hs.
      rewrite Hl in Hxin. apply in_app_or in Hxin. apply in_or_app.
      destruct Hxin as [Hxin|[Hxin|Hxin]]; [now left | now elim Hxne | now right]. }
    split; [exact Hpi|]. split; [reflexivity|].
    intros removed Hrid. unfold checkProjectMember. cbn [projects setProjects]. rewrite Hf'.
    destruct (isMember (Project.preSave p) removed) eqn:Em; [|reflexivity].
    exfalso. apply isMember_In in Em. rewrite Hrid in Em. now apply Hgone.
Qed.

Lemma removed_member_loses_access_witness :
  exists p' st',
    route sampleStore alice (DELETE_projects_id_members "p1" "u2")
    = (json OK (message "Member removed successfully"), st')
    /\ Project.findById (projects st') "p1" = Some p'
    /\ checkProjectMember st' bob "p1"
       = denied Forbidden "Access denied - Not a project member".
Proof.
  destruct (proj2 (removed_member_loses_access sampleStore alice "p1" "u2" demo
                     eq_refl eq_refl ltac:(discriminate)))
    as [p' [st' [H1 [H2 [_ [_ [_ [_ H3]]]]]]]].
  - simpl. tauto.
  - simpl. nodup_strings.
  - reflexivity.
  - exists p', st'. split; [exact H1|]. split; [exact H2|]. now apply H3.
Defined.


(** ** Well-formed stores

    Every writing route keeps the store well formed: ids unique in each
    collection, project keys and issue keys unique, every document valid
    for its schema, every issue in a stored project. *)

Lemma NoDup_map_In_eq {A B} (f : A -> B) (l : list A) (a b : A) :
  NoDup (map f l) -> In a l -> In b l -> f a = f b -> a = b.
Proof.
  induction l as [|x l IH]; cbn [map]; intros Hn Ha Hb He; [destruct Ha|].
  inversion Hn as [|? ? Hx Hn']; subst.
  destruct Ha as [Ha|Ha], Hb as [Hb|Hb].
  - congruence.
  - exfalso. apply Hx. subst x. rewrite He. now apply in_map.
  - exfalso. apply Hx. subst x. rewrite <- He. now apply in_map.
  - now apply IH.
Qed.

Lemma NoDup_snoc {A} (l : list A) (a : A) : NoDup l -> ~ In a l -> NoDup (l ++ [a]).
Proof.
  intros Hn Ha. pose proof (Add_app a l []) as Hadd. rewrite app_nil_r in Hadd.
  apply (NoDup_Add Hadd). now split.
Qed.

Lemma NoDup_splice1 {A} (i : nat) (l : list A) : NoDup l -> NoDup (Js.splice1 i l).
Proof.
  revert i. induction l as [|a l IH]; intros i Hn; [destruct i; constructor|].
  inversion Hn as [|? ? Ha Hn']; subst. destruct i; cbn [Js.splice1]; [exact Hn'|].
  constructor; [|now apply IH]. intros H. apply Ha. now apply In_splice1 in H.
Qed.

Lemma existsb_eqb_absent {A} (f : A -> string) (c : list A) (k : string) :
  existsb (fun d => f d =? k) c = false -> ~ In k (map f c).
Proof.
  intros H Hin. apply in_map_iff in Hin. destruct Hin as [d [Hd Hin]].
  assert (existsb (fun d => f d =? k) c = true) as Ht
    by (apply existsb_exists; exists d; split; [exact Hin | now apply String.eqb_eq]).
  congruence.
Qed.

(** A save under an id held by one document replaces that document. *)
Lemma replace_split {A} (id : A -> string) (x y : A) (c : list A) :
  NoDup (map id c) -> In y c -> id x = id y ->
  exists l1 l2,
    c = l1 ++ y :: l2
    /\ map (fun d => if id d =? id x then x else d) c = l1 ++ x :: l2.
Proof.
  intros Hn Hy He. destruct (in_split _ _ Hy) as [l1 [l2 ->]].
  exists l1, l2. split; [reflexivity|].
  assert (forall l, (forall d, In d l -> id d <> id y) ->
                    map (fun d => if id d =? id x then x else d) l = l) as Hsame.
  { induction l as [|d l IH]; intros H; [reflexivity|]. cbn [map].
    destruct (String.eqb_spec (id d) (id x)) as [E|E].
    - exfalso. apply (H d); [now left | congruence].
    - f_equal. apply IH. intros d' Hd'. apply H. now right. }
  rewrite map_app in Hn. cbn [map] in Hn.
  rewrite map_app. cbn [map].
  replace (id y =? id x) with true by (symmetry; apply String.eqb_eq; congruence).
  pose proof (NoDup_remove_2 _ _ _ Hn) as Hout.
  rewrite !Hsame; [reflexivity | |].
  - intros d Hd E. apply Hout. apply in_or_app. right. rewrite <- E. now apply in_map.
  - intros d Hd E. apply Hout. apply in_or_app. left. rewrite <- E. now apply in_map.
Qed.

Lemma NoDup_replace {A} (l1 l2 : list A) (a b : A) :
  NoDup (l1 ++ a :: l2) -> (b = a \/ ~ In b (l1 ++ a :: l2)) -> NoDup (l1 ++ b :: l2).
Proof.
  intros Hn [->|Hb]; [exact Hn|].
  apply (NoDup_Add (Add_app b l1 l2)). split.
  - now apply NoDup_remove_1 in Hn.
  - intros H. apply Hb. apply in_app_or in H. apply in_or_app.
    destruct H; [now left | right; now right].
Qed.

Lemma preSave_sound p :
  Project.validate p = true ->
  NoDup (Project.member p) ->
  Js.toUpperCase (Project.key p) = Project.key p ->
  soundProject (Project.preSave p).
Proof.
  intros Hv Hn Hk. split; [now rewrite validate_preSave|].
  split; [|split; [apply preSave_ownerIsMember|]].
  - unfold Project.preSave.
    destruct (Js.includes (Project.member p) (Project.owner p)) eqn:E;
      cbn [negb Project.member Project.with_member]; [exact Hn|].
    unfold Js.unshift. constructor; [|exact Hn].
    intros H. apply includes_In in H. congruence.
  - destruct (preSave_fields p) as [_ [_ [_ ->]]]. exact Hk.
Qed.

Lemma project_save_sound c p project q l :
  soundProjects c ->
  In project c ->
  Project._id p = Project._id project ->
  NoDup (Project.member p) ->
  (Project.key p = Project.key project
   \/ (Js.toUpperCase (Project.key p) = Project.key p
       /\ ~ In (Project.key p) (map Project.key c))) ->
  Project.save c p = Some (q, l) ->
  soundProjects l /\ map Project._id l = map Project._id c
  /\ In q l /\ Project._id q = Project._id p.
Proof.
  intros [Hids [Hkeys Hdocs]] Hin Hid Hnd Hkey H. unfold Project.save in H.
  destruct (Project.validate p) eqn:Hv; [|discriminate H]. injection H as <- <-.
  destruct (preSave_fields p) as [Hpid [_ [_ Hpk]]].
  destruct (replace_split Project._id (Project.preSave p) project c Hids Hin)
    as [l1 [l2 [Hc Hl]]]; [congruence|].
  rewrite Hl.
  assert (map Project._id (l1 ++ Project.preSave p :: l2) = map Project._id c) as Hsame
    by (rewrite Hc, !map_app; cbn [map]; congruence).
  assert (soundProject (Project.preSave p)) as Hsound.
  { apply preSave_sound; [exact Hv | exact Hnd|].
    destruct Hkey as [Hkey|[Hkey _]]; [|exact Hkey].
    rewrite Hkey. now apply (Hdocs project). }
  split; [split; [|split]|].
  - rewrite Hsame. exact Hids.
  - rewrite map_app. cbn [map]. apply (NoDup_replace _ _ (Project.key project)).
    + rewrite Hc, map_app in Hkeys. exact Hkeys.
    + rewrite Hpk. destruct Hkey as [Hkey|[_ Hkey]]; [now left | right].
      rewrite Hc, map_app in Hkey. exact Hkey.
  - intros d Hd. apply in_app_or in Hd. destruct Hd as [Hd|[<-|Hd]]; [|exact Hsound|];
      apply Hdocs; rewrite Hc; apply in_or_app; [now left | right; now right].
  - split; [exact Hsame|]. split; [|exact Hpid].
    apply in_or_app. right. now left.
Qed.

Lemma project_create_sound c p q l :
  soundProjects c ->
  NoDup (Project.member p) ->
  Js.toUpperCase (Project.key p) = Project.key p ->
  Project.create c p = Some (q, l) ->
  soundProjects l /\ map Project._id l = map Project._id c ++ [Project._id p].
Proof.
  intros [Hids [Hkeys Hdocs]] Hnd Hk H. unfold Project.create in H.
  destruct (Project.validate p) eqn:Hv; [|discriminate H].
  destruct (existsb (fun d => Project._id d =? Project._id p) c) eqn:Ei; [discriminate H|].
  destruct (existsb (fun d => Project.key d =? Project.key p) c) eqn:Ek; [discriminate H|].
  cbn [andb negb] in H. injection H as <- <-.
  destruct (preSave_fields p) as [Hpid [_ [_ Hpk]]].
  unfold soundProjects. rewrite !map_app. cbn [map]. rewrite Hpid, Hpk.
  split; [split; [|split]|reflexivity].
  - apply NoDup_snoc; [exact Hids | now apply existsb_eqb_absent].
  - apply NoDup_snoc; [exact Hkeys | now apply existsb_eqb_absent].
  - intros d Hd. apply in_app_or in Hd. destruct Hd as [Hd|[<-|[]]]; [now apply Hdocs|].
    now apply preSave_sound.
Qed.

Lemma project_filter_sound c g : soundProjects c -> soundProjects (List.filter g c).
Proof.
  intros [Hids [Hkeys Hdocs]]. split; [|split]; try now apply NoDup_map_filter.
  intros p Hp. apply filter_In in Hp. now apply Hdocs.
Qed.

Lemma issue_save_sound c i issue q l :
  soundIssues c ->
  In issue c ->
  Issue._id i = Issue._id issue ->
  Issue.key i = Issue.key issue ->
  Issue.save c i = Some (q, l) ->
  soundIssues l /\ forall d, In d l -> d = i \/ In d c.
Proof.
  intros [Hids [Hkeys Hdocs]] Hin Hid Hkey H. unfold Issue.save in H.
  destruct (Issue.validate i) eqn:Hv; [|discriminate H]. injection H as <- <-.
  destruct (replace_split Issue._id i issue c Hids Hin Hid) as [l1 [l2 [Hc Hl]]].
  rewrite Hl.
  assert (forall d, In d (l1 ++ i :: l2) -> d = i \/ In d c) as Hfrom.
  { intros d Hd. apply in_app_or in Hd. destruct Hd as [Hd|[<-|Hd]]; [right|now left|right];
      rewrite Hc; apply in_or_app; [now left | right; now right]. }
  split; [|exact Hfrom]. split; [|split].
  - rewrite map_app. cbn [map]. rewrite Hid. rewrite Hc, map_app in Hids. exact Hids.
  - rewrite map_app. cbn [map]. rewrite Hkey. rewrite Hc, map_app in Hkeys. exact Hkeys.
  - intros d Hd. destruct (Hfrom d Hd) as [->|Hd']; [exact Hv | now apply Hdocs].
Qed.

Lemma issue_create_sound c i q l :
  soundIssues c ->
  Issue.create c i = Some (q, l) ->
  soundIssues l /\ forall d, In d l -> d = i \/ In d c.
Proof.
  intros [Hids [Hkeys Hdocs]] H. unfold Issue.create in H.
  destruct (Issue.validate i) eqn:Hv; [|discriminate H].
  destruct (existsb (fun d => Issue._id d =? Issue._id i) c) eqn:Ei; [discriminate H|].
  destruct (existsb (fun d => Issue.key d =? Issue.key i) c) eqn:Ek; [discriminate H|].
  cbn [andb negb] in H. injection H as <- <-.
  assert (forall d, In d (c ++ [i]) -> d = i \/ In d c) as Hfrom.
  { intros d Hd. apply in_app_or in Hd. destruct Hd as [Hd|[<-|[]]]; auto. }
  split; [|exact Hfrom]. unfold soundIssues. rewrite !map_app. cbn [map]. split; [|split].
  - apply NoDup_snoc; [exact Hids | now apply existsb_eqb_absent].
  - apply NoDup_snoc; [exact Hkeys | now apply existsb_eqb_absent].
  - intros d Hd. destruct (Hfrom d Hd) as [->|Hd']; [exact Hv | now apply Hdocs].
Qed.

Lemma issue_filter_sound c g : soundIssues c -> soundIssues (List.filter g c).
Proof.
  intros [Hids [Hkeys Hdocs]]. split; [|split]; try now apply NoDup_map_filter.
  intros p Hp. apply filter_In in Hp. now apply Hdocs.
Qed.

Lemma updateFirst_map {B} (h : Issue.t -> B) f g l :
  (forall x, h (g x) = h x) -> map h (Issues.updateFirst f g l) = map h l.
Proof.
  intros Hg. induction l as [|x l IH]; [reflexivity|]. cbn [Issues.updateFirst].
  destruct (f x); cbn [map]; [now rewrite Hg | now rewrite IH].
Qed.

Lemma updateFirst_In f g l d :
  In d (Issues.updateFirst f g l) -> exists x, In x l /\ (d = x \/ d = g x).
Proof.
  induction l as [|x l IH]; [intros []|]. cbn [Issues.updateFirst].
  destruct (f x).
  - intros [<-|H]; [exists x; split; [now left | now right]|].
    exists d. split; [now right | now left].
  - intros [<-|H]; [exists x; split; [now left | now left]|].
    destruct (IH H) as [y [Hy Hd]]. exists y. split; [now right | exact Hd].
Qed.

Lemma comment_filter_sound c g : soundComments c -> soundComments (List.filter g c).
Proof.
  intros [Hids Hdocs]. split; [now apply NoDup_map_filter|].
  intros p Hp. apply filter_In in Hp. now apply Hdocs.
Qed.

Lemma comment_create_sound c x q l :
  soundComments c -> Comments.create c x = Some (q, l) -> soundComments l.
Proof.
  intros [Hids Hdocs] H. unfold Comments.create in H.
  destruct (Comments.validate x) eqn:Hv; [|discriminate H].
  destruct (existsb (fun d => Comment._id d =? Comment._id x) c) eqn:Ei; [discriminate H|].
  cbn [andb negb] in H. injection H as <- <-.
  unfold soundComments. rewrite !map_app. cbn [map]. split.
  - apply NoDup_snoc; [exact Hids | now apply existsb_eqb_absent].
  - intros d Hd. apply in_app_or in Hd. destruct Hd as [Hd|[<-|[]]]; [now apply Hdocs|exact Hv].
Qed.

Lemma comment_save_sound c x y q l :
  soundComments c -> In y c -> Comment._id x = Comment._id y ->
  Comments.save c x = Some (q, l) -> soundComments l.
Proof.
  intros [Hids Hdocs] Hin Hid H. unfold Comments.save in H.
  destruct (Comments.validate x) eqn:Hv; [|discriminate H]. injection H as <- <-.
  destruct (replace_split Comment._id x y c Hids Hin Hid) as [l1 [l2 [Hc Hl]]].
  rewrite Hl. split.
  - rewrite map_app. cbn [map]. rewrite Hid. rewrite Hc, map_app in Hids. exact Hids.
  - intros d Hd. apply in_app_or in Hd. destruct Hd as [Hd|[<-|Hd]]; [|exact Hv|];
      apply Hdocs; rewrite Hc; apply in_or_app; [now left | right; now right].
Qed.

(** *** The store after a write to one collection *)

Lemma wf_setProjects st l :
  wellFormed st -> soundProjects l ->
  (forall x, In x (map Project._id (projects st)) -> In x (map Project._id l)) ->
  wellFormed (setProjects l st).
Proof.
  intros [Hp Hi Hc Ha Hr] Hl Hsub. constructor; try assumption.
  intros i Hin. apply Hsub. now apply Hr.
Qed.

Lemma wf_setIssues st l :
  wellFormed st -> soundIssues l ->
  (forall i, In i l -> In (Issue.projectId i) (map Project._id (projects st))) ->
  wellFormed (setIssues l st).
Proof. intros [Hp Hi Hc Ha Hr] Hl Hsub. constructor; assumption. Qed.

Lemma wf_setComments st l :
  wellFormed st -> soundComments l -> wellFormed (setComments l st).
Proof. intros [Hp Hi Hc Ha Hr] Hl. constructor; assumption. Qed.

Lemma wf_setAttachments st l :
  wellFormed st -> NoDup (map Attachment._id l) -> wellFormed (setAttachments l st).
Proof. intros [Hp Hi Hc Ha Hr] Hl. constructor; assumption. Qed.

Lemma project_found_In c id p : Project.findById c id = Some p -> In p c.
Proof. unfold Project.findById. intros H. now apply find_some in H. Qed.

Lemma issue_found_In c id i : Issue.findById c id = Some i -> In i c /\ Issue._id i = id.
Proof.
  unfold Issue.findById. intros H. apply find_some in H.
  destruct H as [H E]. now apply String.eqb_eq in E.
Qed.

Lemma comment_found_In c id x : Comments.findById c id = Some x -> In x c.
Proof. unfold Comments.findById. intros H. now apply find_some in H. Qed.

(** The project found for a well-formed store's issue. *)
Lemma wf_issue_project st i :
  wellFormed st -> In i (issues st) ->
  exists p, Project.findById (projects st) (Issue.projectId i) = Some p.
Proof.
  intros W Hi. apply (wf_refs _ W) in Hi. apply in_map_iff in Hi.
  destruct Hi as [p [Hp Hin]]. unfold Project.findById.
  apply (find_found _ _ p Hin). now apply String.eqb_eq.
Qed.

(** *** The handlers *)

Lemma wf_project_save st p project q l :
  wellFormed st ->
  In project (projects st) ->
  Project._id p = Project._id project ->
  NoDup (Project.member p) ->
  (Project.key p = Project.key project
   \/ (Js.toUpperCase (Project.key p) = Project.key p
       /\ ~ In (Project.key p) (map Project.key (projects st)))) ->
  Project.save (projects st) p = Some (q, l) ->
  wellFormed (setProjects l st) /\ In q l /\ Project._id q = Project._id p.
Proof.
  intros W Hin Hid Hnd Hkey H.
  destruct (project_save_sound _ _ _ _ _ (wf_projects _ W) Hin Hid Hnd Hkey H)
    as [Hs [Hids Hq]].
  split; [|exact Hq]. apply wf_setProjects; [exact W | exact Hs|].
  intros x Hx. now rewrite Hids.
Qed.

Lemma wf_member_once st p : wellFormed st -> In p (projects st) -> NoDup (Project.member p).
Proof. intros W Hin. destruct (wf_projects _ W) as [_ [_ Hd]]. now apply (Hd p). Qed.

Lemma createProject_wf st user newId name description key :
  wellFormed st -> wellFormed (snd (createProject st user newId name description key)).
Proof.
  intros W. unfold createProject.
  destruct (Project.findOneByKey _ _); [exact W|].
  destruct (Project.create _ _) as [[q l]|] eqn:E; [|exact W].
  cbn [snd]. apply project_create_sound in E.
  - destruct E as [Hs Hids]. apply wf_setProjects; [exact W | exact Hs|].
    intros x Hx. rewrite Hids. apply in_or_app. now left.
  - exact (wf_projects _ W).
  - cbn [Project.member]. constructor; [intros []|constructor].
  - cbn [Project.key]. apply toUpperCase_idem.
Qed.

Lemma updateProject_wf st user id name description key :
  wellFormed st -> wellFormed (snd (updateProject st user id name description key)).
Proof.
  intros W. unfold updateProject.
  destruct (Project.findById _ _) as [project|] eqn:Hf; [|exact W].
  destruct (negb (Project.owner project =? User._id user)); [exact W|].
  destruct (negb (key =? "") && negb (Js.toUpperCase key =? Project.key project)
            && found (Project.findOneByKey (projects st) (Js.toUpperCase key))) eqn:Ek;
    [exact W|].
  destruct (Project.save _ _) as [[q l]|] eqn:E; [|exact W].
  cbn [snd]. apply project_found_In in Hf.
  apply (wf_project_save st _ project q l W Hf) in E; [now destruct E | reflexivity | |].
  - exact (wf_member_once st project W Hf).
  - cbn [Project.key Project.with_text].
    destruct (key =? "") eqn:Ee; cbn [negb andb] in *; [now left|].
    destruct (String.eqb_spec (Js.toUpperCase key) (Project.key project)) as [Eq|Eq];
      cbn [negb andb] in Ek; [now left | right].
    split; [apply toUpperCase_idem|].
    intros Hin. apply in_map_iff in Hin. destruct Hin as [d [Hd Hin]].
    rewrite (findOneByKey_found _ _ d Hin Hd) in Ek. discriminate Ek.
Qed.

Lemma deleteProject_wf st user id :
  wellFormed st -> wellFormed (snd (deleteProject st user id)).
Proof.
  intros W. unfold deleteProject.
  destruct (Project.findById _ _) as [project|]; [|exact W].
  destruct (negb _); [exact W|]. cbn [snd].
  destruct W as [Hp Hi Hc Ha Hr]. constructor;
    cbn [projects issues comments attachments setProjects setIssues]; try assumption.
  - now apply project_filter_sound.
  - now apply issue_filter_sound.
  - intros i Hin. cbn [projects issues comments attachments setProjects setIssues] in *.
    unfold Issue.deleteMany in Hin. apply filter_In in Hin. destruct Hin as [Hin Hne].
    apply Hr in Hin. apply in_map_iff in Hin. destruct Hin as [p [Hpid Hpin]].
    apply in_map_iff. exists p. split; [exact Hpid|].
    unfold Project.findByIdAndDelete. apply filter_In. split; [exact Hpin|].
    now rewrite Hpid.
Qed.

Lemma inviteMember_wf st user id email role tok now emailSent :
  wellFormed st -> wellFormed (snd (inviteMember st user id email role tok now emailSent)).
Proof.
  intros W. unfold inviteMember.
  destruct (Project.findById _ _) as [project|] eqn:Hf; [|exact W].
  destruct (negb _); [exact W|].
  destruct (match User.findOne (users st) email with Some _ => _ | None => _ end); [exact W|].
  destruct (Js.find _ _); [exact W|].
  destruct (Project.save _ _) as [[q l]|] eqn:E; [|exact W].
  apply project_found_In in Hf.
  apply (wf_project_save st _ project q l W Hf) in E;
    [| reflexivity | exact (wf_member_once st project W Hf) | now left].
  destruct E as [W1 [Hq Hqid]].
  destruct emailSent; [exact W1|].
  cbn [projects setProjects].
  destruct (Project.save _ _) as [[q2 l2]|] eqn:E2; [|exact W1].
  cbn [snd].
  apply (wf_project_save (setProjects l st) _ q q2 l2 W1 Hq) in E2;
    [| reflexivity | exact (wf_member_once (setProjects l st) q W1 Hq) | now left].
  destruct E2 as [W2 _]. exact W2.
Qed.

Lemma acceptInvitation_wf st user tok now :
  wellFormed st -> wellFormed (snd (acceptInvitation st user tok now)).
Proof.
  intros W. unfold acceptInvitation.
  destruct (Project.findOneByInvite _ _ _) as [project|] eqn:Hf; [|exact W].
  destruct (Js.find _ _); [|exact W].
  destruct (negb (_ =? _)); [exact W|].
  destruct (Project.save _ _) as [[q l]|] eqn:E; [|exact W].
  cbn [snd]. unfold Project.findOneByInvite in Hf. apply find_some in Hf.
  destruct Hf as [Hf _]. pose proof (wf_member_once st project W Hf) as Hnd.
  apply (wf_project_save st _ project q l W Hf) in E; [now destruct E | | |].
  - destruct (negb (isMember project user)); reflexivity.
  - cbn [Project.member Project.with_pendingInvites].
    destruct (isMember project user) eqn:Em; cbn [negb]; [exact Hnd|].
    cbn [Project.member Project.with_member]. unfold Js.push.
    apply NoDup_snoc; [exact Hnd|]. intros Hin. apply isMember_In in Hin. congruence.
  - left. destruct (negb (isMember project user)); reflexivity.
Qed.

Lemma removeMember_wf st user id memberId :
  wellFormed st -> wellFormed (snd (removeMember st user id memberId)).
Proof.
  intros W. unfold removeMember.
  destruct (Project.findById _ _) as [project|] eqn:Hf; [|exact W].
  destruct (negb _); [exact W|].
  destruct (memberId =? User._id user); [exact W|].
  destruct (Js.findIndex _ _) as [i|]; [|exact W].
  destruct (Project.save _ _) as [[q l]|] eqn:E; [|exact W].
  cbn [snd]. apply project_found_In in Hf.
  apply (wf_project_save st _ project q l W Hf) in E; [now destruct E | reflexivity | |now left].
  cbn [Project.member Project.with_member]. apply NoDup_splice1.
  now apply (wf_member_once st).
Qed.

Lemma wf_issue_save st i issue q l :
  wellFormed st ->
  In issue (issues st) ->
  Issue._id i = Issue._id issue ->
  Issue.key i = Issue.key issue ->
  Issue.projectId i = Issue.projectId issue ->
  Issue.save (issues st) i = Some (q, l) ->
  wellFormed (setIssues l st).
Proof.
  intros W Hin Hid Hkey Hpid H.
  destruct (issue_save_sound _ _ _ _ _ (wf_issues _ W) Hin Hid Hkey H) as [Hs Hfrom].
  apply wf_setIssues; [exact W | exact Hs|].
  intros d Hd. destruct (Hfrom d Hd) as [->|Hd'].
  - rewrite Hpid. now apply (wf_refs _ W).
  - now apply (wf_refs _ W).
Qed.

Lemma createIssue_wf st user newId projectId body :
  wellFormed st -> wellFormed (snd (createIssue st user newId projectId body)).
Proof.
  intros W. unfold createIssue.
  destruct (Project.findById _ _) as [project|] eqn:Hf; [|exact W].
  destruct (negb _); [exact W|].
  destruct (Js.truthy _ && _); [exact W|].
  destruct (castObjectId _); [|exact W].
  destruct (Issue.create _ _) as [[q l]|] eqn:E; [|exact W].
  cbn [snd]. destruct (issue_create_sound _ _ _ _ (wf_issues _ W) E) as [Hs Hfrom].
  apply wf_setIssues; [exact W | exact Hs|].
  intros d Hd. destruct (Hfrom d Hd) as [->|Hd']; [|now apply (wf_refs _ W)].
  cbn [Issue.projectId]. rewrite <- (project_findById_id _ _ _ Hf).
  apply in_map. now apply project_found_In in Hf.
Qed.

Lemma updateIssue_wf st user id body :
  wellFormed st -> wellFormed (snd (updateIssue st user id body)).
Proof.
  intros W. unfold updateIssue.
  destruct (Issue.findById _ _) as [issue|] eqn:Hf; [|exact W].
  destruct (Project.findById _ _); [|exact W].
  destruct (negb _); [exact W|].
  destruct (_ && _ && _); [exact W|].
  destruct (Js.truthy _ && _); [exact W|].
  destruct (match assignee body with Js.undefined => _ | _ => _ end); [|exact W].
  destruct (Issue.save _ _) as [[q l]|] eqn:E; [|exact W].
  cbn [snd]. apply issue_found_In in Hf. destruct Hf as [Hf _].
  now apply (wf_issue_save st _ issue q l W Hf) in E.
Qed.

Lemma deleteIssue_wf st user id :
  wellFormed st -> wellFormed (snd (deleteIssue st user id)).
Proof.
  intros W. unfold deleteIssue.
  destruct (Issue.findById _ _) as [issue|]; [|exact W].
  destruct (Project.findById _ _); [|exact W].
  destruct (_ && _); [exact W|]. cbn [snd].
  destruct W as [Hp Hi Hc Ha Hr]. constructor;
    cbn [projects issues comments attachments setComments setAttachments setIssues];
    try assumption.
  - now apply issue_filter_sound.
  - now apply comment_filter_sound.
  - now apply NoDup_map_filter.
  - intros i Hin.
    cbn [projects issues comments attachments setComments setAttachments setIssues] in *.
    unfold Issue.findByIdAndDelete in Hin. apply filter_In in Hin. now apply Hr.
Qed.

Lemma assignIssue_wf st user id assigneeId assignee :
  wellFormed st -> wellFormed (snd (assignIssue st user id assigneeId assignee)).
Proof.
  intros W. unfold assignIssue.
  destruct (Issue.findById _ _) as [issue|] eqn:Hf; [|exact W].
  destruct (Project.findById _ _); [|exact W].
  destruct (negb _); [exact W|].
  destruct (Js.truthy _ && _); [exact W|].
  destruct (castObjectId _); [|exact W].
  destruct (Issue.save _ _) as [[q l]|] eqn:E; [|exact W].
  cbn [snd]. apply issue_found_In in Hf. destruct Hf as [Hf _].
  now apply (wf_issue_save st _ issue q l W Hf) in E.
Qed.

Lemma updateIssueStatus_wf st user id status :
  wellFormed st -> wellFormed (snd (updateIssueStatus st user id status)).
Proof.
  intros W. unfold updateIssueStatus.
  destruct (Issue.findById _ _) as [issue|] eqn:Hf; [|exact W].
  destruct (_ || _); [exact W|].
  destruct (negb _); [exact W|].
  destruct (Issue.save _ _) as [[q l]|] eqn:E; [|exact W].
  cbn [snd]. apply issue_found_In in Hf. destruct Hf as [Hf _].
  now apply (wf_issue_save st _ issue q l W Hf) in E.
Qed.

Lemma guarded_wf st g h : wellFormed st -> wellFormed (snd h) -> wellFormed (snd (guarded st g h)).
Proof. destruct g; auto. Qed.

Lemma guardedA_wf {A} st g (h : Answer A * Store) :
  wellFormed st -> wellFormed (snd h) -> wellFormed (snd (guardedA st g h)).
Proof. destruct g; auto. Qed.

Lemma route_wf st user r : wellFormed st -> wellFormed (snd (route st user r)).
Proof.
  intros W. destruct r; unfold route; try apply guarded_wf; try exact W.
  - now apply createProject_wf.
  - now apply updateProject_wf.
  - now apply deleteProject_wf.
  - now apply inviteMember_wf.
  - now apply acceptInvitation_wf.
  - now apply removeMember_wf.
  - now apply createIssue_wf.
  - now apply updateIssue_wf.
  - now apply deleteIssue_wf.
  - now apply assignIssue_wf.
  - now apply updateIssueStatus_wf.
Qed.

Lemma createComment_wf st user newId issueId content atts :
  wellFormed st -> wellFormed (snd (createComment st user newId issueId content atts)).
Proof.
  intros W. unfold createComment.
  destruct (Issue.findById _ _) as [issue|] eqn:Hf; [|exact W].
  destruct (Project.findById _ _); [|exact W].
  destruct (negb _); [exact W|].
  destruct (attachmentsRejected _ _ _); [exact W|].
  destruct (Comments.create _ _) as [[c l]|] eqn:E; [|exact W].
  assert (wellFormed (setComments l st)) as W1
    by (apply wf_setComments; [exact W|];
        exact (comment_create_sound _ _ _ _ (wf_comments _ W) E)).
  cbn [issues setComments].
  destruct (Issue.save _ _) as [[q li]|] eqn:Es; [|exact W1].
  cbn [snd]. apply issue_found_In in Hf. destruct Hf as [Hf _].
  now apply (wf_issue_save (setComments l st) _ issue q li W1 Hf) in Es.
Qed.

Lemma updateComment_wf st user id content atts :
  wellFormed st -> wellFormed (snd (updateComment st user id content atts)).
Proof.
  intros W. unfold updateComment.
  destruct (Comments.findById _ _) as [comment|] eqn:Hf; [|exact W].
  destruct (populateComment _ _) as [[issue project]|]; [|exact W].
  destruct (_ && _); [exact W|].
  destruct (attachmentsRejected _ _ _); [exact W|].
  destruct (Comments.save _ _) as [[q l]|] eqn:E; [|exact W].
  cbn [snd]. apply wf_setComments; [exact W|].
  apply comment_found_In in Hf.
  apply (comment_save_sound _ _ comment q l (wf_comments _ W) Hf) in E; [exact E | reflexivity].
Qed.

Lemma deleteComment_wf st user id :
  wellFormed st -> wellFormed (snd (deleteComment st user id)).
Proof.
  intros W. unfold deleteComment.
  destruct (Comments.findById _ _) as [comment|]; [|exact W].
  destruct (populateComment _ _) as [[issue project]|]; [|exact W].
  destruct (_ && _); [exact W|]. cbn [snd].
  apply wf_setComments; [|].
  - assert (wellFormed
              (setIssues (Issues.pullComment (issues st) (Issue._id issue)
                                             (Comment._id comment)) st)) as W1.
    { destruct (wf_issues _ W) as [Hids [Hkeys Hdocs]].
      apply wf_setIssues; [exact W| |].
      - unfold Issues.pullComment. split; [|split].
        + now rewrite updateFirst_map.
        + now rewrite updateFirst_map.
        + intros d Hd. apply updateFirst_In in Hd. destruct Hd as [x [Hx [->| ->]]];
            exact (Hdocs x Hx).
      - intros d Hd. unfold Issues.pullComment in Hd. apply updateFirst_In in Hd.
        destruct Hd as [x [Hx [->| ->]]]; exact (wf_refs _ W x Hx). }
    destruct (Comment.attachment comment); [exact W1|].
    apply wf_setAttachments; [exact W1|].
    unfold Attachment.deleteMany, storedAttachments. apply NoDup_map_filter.
    exact (wf_attachments _ W).
  - unfold Comments.findByIdAndDelete, storedComments.
    destruct (Comment.attachment comment); apply comment_filter_sound;
      exact (wf_comments _ W).
Qed.

Lemma uploadAttachment_wf st user newId file result :
  wellFormed st -> wellFormed (snd (uploadAttachment st user newId file result)).
Proof.
  intros W. unfold uploadAttachment.
  destruct file as [file|]; [|exact W].
  destruct (_ <? _)%Z; [exact W|].
  destruct (negb _); [exact W|].
  destruct result as [result|]; [|exact W].
  destruct (Upload.name file =? ""); [exact W|].
  destruct (Attachments.create _ _) as [[a l]|] eqn:E; [|exact W].
  cbn [snd]. apply wf_setAttachments; [exact W|].
  unfold Attachments.create, storedAttachments in E.
  destruct (negb (_ =? "") && negb (_ =? "")); [|discriminate E].
  destruct (existsb _ _) eqn:Ei; [discriminate E|].
  cbn [andb negb] in E. injection E as _ <-.
  rewrite map_app. cbn [map]. apply NoDup_snoc; [exact (wf_attachments _ W)|].
  apply existsb_eqb_absent in Ei. exact Ei.
Qed.

Lemma perform_wf st user a : wellFormed st -> wellFormed (perform st user a).
Proof.
  intros W. destruct a; unfold perform.
  - now apply route_wf.
  - unfold POST_comments. apply guardedA_wf; [exact W | now apply createComment_wf].
  - unfold PUT_comments. apply guardedA_wf; [exact W | now apply updateComment_wf].
  - unfold DELETE_comments. apply guardedA_wf; [exact W | now apply deleteComment_wf].
  - now apply uploadAttachment_wf.
Qed.

Lemma emptyStore_wf : wellFormed emptyStore.
Proof.
  constructor; cbn.
  - split; [constructor | split; [constructor | intros ? []]].
  - split; [constructor | split; [constructor | intros ? []]].
  - split; [constructor | intros ? []].
  - constructor.
  - intros ? [].
Qed.

Lemma run_wf l : forall st, wellFormed st -> wellFormed (run st l).
Proof.
  induction l as [|[user a] l IH]; intros st W; cbn [run]; [exact W|].
  apply IH. now apply perform_wf.
Qed.


(** X22.  Documents are unique.  In every store that the writing routes
    produce from the empty one, no two documents of a collection share an
    [_id], no two projects share a key and no two issues share a key: the
    key test of [createProject] and [updateProject], the counter-built key
    of [createIssue] with its unique index, and the saves under an
    existing id keep it so. *)
Theorem reachable_documents_are_unique (l : list (User.t * Action)) :
  let st := run emptyStore l in
  NoDup (map Project._id (projects st))
  /\ NoDup (map Project.key (projects st))
  /\ NoDup (map Issue._id (issues st))
  /\ NoDup (map Issue.key (issues st))
  /\ NoDup (map Comment._id (comments st))
  /\ NoDup (map Attachment._id (attachments st)).
Proof.
  intros st. pose proof (run_wf l emptyStore emptyStore_wf) as W. fold st in W.
  destruct W as [[Hp [Hk _]] [Hi [Hik _]] [Hc _] Ha _]. repeat split; assumption.
Qed.

(** X23.  Stored documents meet their schema.  In every store that the
    writing routes produce from the empty one, a project has a name, a
    description and an upper-case key, lists each member once, its owner
    among them, and holds invites of the three roles only; an issue has a
    key, a title, a description, a status of the status enum and a
    priority of the priority enum; a comment has a content. *)
Theorem reachable_documents_meet_schema (l : list (User.t * Action)) :
  let st := run emptyStore l in
  (forall p, In p (projects st) ->
     Project.name p <> "" /\ Project.description p <> "" /\ Project.key p <> ""
     /\ Js.toUpperCase (Project.key p) = Project.key p
     /\ NoDup (Project.member p)
     /\ In (Project.owner p) (Project.member p)
     /\ forall i, In i (Project.pendingInvites p) -> In (Invite.role i) Invite.roles)
  /\ (forall i, In i (issues st) ->
        Issue.key i <> "" /\ Issue.title i <> "" /\ Issue.description i <> ""
        /\ In (Issue.status i) Issue.statuses
        /\ In (Issue.priority i) Issue.priorities)
  /\ (forall c, In c (comments st) -> Comment.content c <> "").
Proof.
  intros st. pose proof (run_wf l emptyStore emptyStore_wf) as W. fold st in W.
  destruct W as [[_ [_ Hp]] [_ [_ Hi]] [_ Hc] _ _]. split; [|split].
  - intros p Hin. destruct (Hp p Hin) as [Hv [Hnd [Hom Hup]]].
    unfold Project.validate in Hv.
    apply andb_true_iff in Hv. destruct Hv as [Hv Hr].
    apply andb_true_iff in Hv. destruct Hv as [Hv Hk].
    apply andb_true_iff in Hv. destruct Hv as [Hn Hd].
    apply negb_true_iff, String.eqb_neq in Hn, Hd, Hk.
    repeat (split; [assumption|]).
    intros i Hiin. rewrite forallb_forall in Hr. apply includes_In. now apply Hr.
  - intros i Hin. pose proof (Hi i Hin) as Hv. unfold Issue.validate in Hv.
    apply andb_true_iff in Hv. destruct Hv as [Hv Hpr].
    apply andb_true_iff in Hv. destruct Hv as [Hv Hs].
    apply andb_true_iff in Hv. destruct Hv as [Hv Hd].
    apply andb_true_iff in Hv. destruct Hv as [Hk Ht].
    apply negb_true_iff, String.eqb_neq in Hk, Ht, Hd.
    apply includes_In in Hs, Hpr. repeat split; assumption.
  - intros c Hin. pose proof (Hc c Hin) as Hv. unfold Comments.validate in Hv.
    now apply negb_true_iff, String.eqb_neq in Hv.
Qed.

Lemma wf_no_orphan st id i :
  wellFormed st ->
  Issue.findById (issues st) id = Some i ->
  Project.findById (projects st) (Issue.projectId i) = None -> False.
Proof.
  intros W Hi Hp. apply issue_found_In in Hi. destruct Hi as [Hi _].
  destruct (wf_issue_project st i W Hi) as [p Hp']. congruence.
Qed.

Lemma invite_of_query c tok now p :
  Project.findOneByInvite c tok now = Some p ->
  Js.find (fun inv => Invite.token inv =? tok) (Project.pendingInvites p) = None -> False.
Proof.
  intros Hf Hn. unfold Project.findOneByInvite in Hf. apply find_some in Hf.
  destruct Hf as [_ Hf]. apply andb_true_iff in Hf. destruct Hf as [Hf _].
  apply holdsToken_existsb in Hf. destruct (find_invite p tok Hf) as [inv [Hinv _]].
  congruence.
Qed.

(** The replies of a handler, branch by branch; what is left are the
    branches that throw on a project that was not found. *)
Ltac replies W :=
  cbv zeta; repeat break_match; cbn [fst]; try discriminate;
  exfalso;
  match goal with
  | Hi : Issue.findById (issues ?st) ?id = Some ?i,
    Hp : Project.findById (projects ?st) (Issue.projectId ?i) = None |- _ =>
    exact (wf_no_orphan st id i W Hi Hp)
  | Hf : Project.findOneByInvite _ ?tok _ = Some ?p, Hn : Js.find _ _ = None |- _ =>
    exact (invite_of_query _ tok _ p Hf Hn)
  end.

Lemma guards_find_the_project st user :
  wellFormed st ->
  (forall id, checkProjectOwner st user id <> denied ServerError "TypeError")
  /\ (forall id, checkProjectMember st user id <> denied ServerError "TypeError")
  /\ (forall m id, checkIssuePermission st user m id <> denied ServerError "TypeError")
  /\ (forall id, checkIssueDeletePermission st user id <> denied ServerError "TypeError")
  /\ (forall id, getProjectFromIssue st user id <> denied ServerError "TypeError").
Proof.
  intros W. repeat split; intros.
  - unfold checkProjectOwner. replies W.
  - unfold checkProjectMember. replies W.
  - unfold checkIssuePermission. replies W.
  - unfold checkIssueDeletePermission. replies W.
  - unfold getProjectFromIssue. replies W.
Qed.

Lemma guarded_reply st g h s m :
  g <> denied s m -> fst h <> throw s m -> fst (guarded st g h) <> throw s m.
Proof. destruct g; cbn [guarded fst]; congruence. Qed.

(** X24.  Every issue lies in a stored project.  In every store that the
    writing routes produce from the empty one the project of an issue is
    found, because [deleteProject] deletes the issues of the project with
    it: no route of the project and issue routers, nor the read of an
    issue or the creation of a comment, ever takes the branch where the
    populated project is null and the handler throws a TypeError (a 500);
    nor does [acceptInvitation], whose query guarantees the invite. *)
Theorem reachable_issue_routes_find_the_project (l : list (User.t * Action)) (user : User.t) :
  let st := run emptyStore l in
  (forall r, fst (route st user r) <> throw ServerError "TypeError")
  /\ (forall id, GET_issues_id st user id <> throw ServerError "TypeError")
  /\ (forall newId issueId content atts,
        fst (POST_comments st user newId issueId content atts)
        <> failed ServerError "TypeError").
Proof.
  intros st. pose proof (run_wf l emptyStore emptyStore_wf) as W. fold st in W.
  clearbody st. clear l.
  destruct (guards_find_the_project st user W) as [G1 [G2 [G3 [G4 G5]]]].
  split; [|split].
  - intros r. destruct r; unfold route; try (apply guarded_reply; [auto|]).
    + unfold createProject. replies W.
    + unfold updateProject. replies W.
    + unfold deleteProject. replies W.
    + unfold inviteMember. replies W.
    + unfold acceptInvitation. replies W.
    + unfold removeMember. replies W.
    + unfold createIssue. replies W.
    + unfold updateIssue. replies W.
    + unfold deleteIssue. replies W.
    + unfold assignIssue. replies W.
    + unfold updateIssueStatus. replies W.
  - intros id. unfold GET_issues_id.
    destruct (checkIssuePermission st user GET id) as [|s m] eqn:Eg.
    + unfold getIssue. replies W.
    + intros H. injection H as -> ->. now apply (G3 GET id).
  - intros newId issueId content atts. unfold POST_comments, guardedA.
    destruct (getProjectFromIssue st user issueId) as [|s m] eqn:Eg.
    + unfold createComment. replies W.
    + cbn [fst]. intros H. injection H as -> ->. now apply (G5 issueId).
Qed.

(** X25.  [deleteProject] deletes the issues of the project but not their
    comments.  A comment of such an issue stays stored, and from then on
    the comment routes cannot populate its issue: read, update and delete
    of the comment are answered by the guard with the 500 of a TypeError,
    for every caller. *)
Theorem deleted_project_orphans_comments st user id b st' cid comment issue :
  route st user (DELETE_projects_id id) = (json OK b, st') ->
  NoDup (map Issue._id (issues st)) ->
  Comments.findById (comments st) cid = Some comment ->
  Issue.findById (issues st) (Comment.issueId comment) = Some issue ->
  Issue.projectId issue = id ->
  Comments.findById (comments st') cid = Some comment
  /\ forall reader m,
       checkCommentPermission st' reader m cid = denied ServerError "TypeError".
Proof.
  intros H Hnd Hc Hi Hp. unfold route in H. apply guarded_json in H. destruct H as [_ H].
  unfold deleteProject in H.
  destruct (Project.findById _ _); [|discriminate H].
  destruct (negb _); [discriminate H|]. injection H as _ <-.
  cbn [comments setProjects setIssues]. split; [exact Hc|].
  intros reader m. unfold checkCommentPermission, populateComment.
  cbn [comments issues projects setProjects setIssues]. rewrite Hc.
  destruct (Issue.findById (Issue.deleteMany (issues st) id) (Comment.issueId comment))
    as [j|] eqn:Ej; [|reflexivity].
  exfalso. apply issue_found_In in Ej. destruct Ej as [Hj Hjid].
  unfold Issue.deleteMany in Hj. apply filter_In in Hj. destruct Hj as [Hj Hne].
  apply issue_found_In in Hi. destruct Hi as [Hi Hiid].
  assert (j = issue) as -> by (apply (NoDup_map_In_eq Issue._id (issues st)); congruence).
  rewrite Hp, String.eqb_refl in Hne. discriminate Hne.
Qed.

Lemma deleted_project_orphans_comments_witness :
  checkCommentPermission (snd (route sampleStore alice (DELETE_projects_id "p1")))
                         bob GET "c1"
  = denied ServerError "TypeError".
Proof.
  refine (proj2 (deleted_project_orphans_comments sampleStore alice "p1"
                   (message "Project and associated issues deleted successfully")
                   (snd (route sampleStore alice (DELETE_projects_id "p1"))) "c1"
                   (Comment.mk "c1" "Here is the log" "u2" "i1" ["a2"]) demo1
                   _ _ _ _ _) bob GET).
  - reflexivity.
  - simpl. nodup_strings.
  - reflexivity.
  - reflexivity.
  - reflexivity.
Defined.


(** ** Instances of the properties without a premise of their own *)

Lemma checkRole_passes_listed_roles_witness : checkAdminOrManager (Some alice) = next.
Proof.
  apply (proj2 (proj1 checkRole_passes_listed_roles ["admin"; "manager"] (Some alice))).
  exists alice. split; [reflexivity | right; left; reflexivity].
Defined.

Lemma reads_need_membership_only_witness :
  GET_issues_id sampleStore carol "i1" = json OK (issueData demo1).
Proof.
  destruct (proj1 (reads_need_membership_only sampleStore carol) "i1" demo1 demo
                  eq_refl eq_refl) as [H _].
  apply H. right. right. left. reflexivity.
Defined.

Lemma upload_checks_before_storing_witness :
  uploadAttachment sampleStore alice "a9" None None
  = (failed BadRequest "No file uploaded", sampleStore).
Proof.
  pose proof (upload_checks_before_storing sampleStore alice "a9" None None) as H.
  cbv zeta in H. destruct H as [H _]. exact (H eq_refl).
Defined.

Lemma reachable_documents_meet_schema_witness :
  In "u1" (Project.member (Project.mk "p1" "Demo" "A demo project" "DEMO" "u1" ["u1"] [])).
Proof.
  pose proof (reachable_documents_meet_schema
                [(alice, tracker (POST_projects "p1" "Demo" "A demo project" "demo"))]) as H.
  cbv zeta in H. destruct H as [H _].
  destruct (H (Project.mk "p1" "Demo" "A demo project" "DEMO" "u1" ["u1"] []))
    as [_ [_ [_ [_ [_ [Hin _]]]]]].
  - vm_compute. left. reflexivity.
  - exact Hin.
Defined.

Lemma reachable_issue_routes_find_the_project_witness :
  fst (route emptyStore alice (DELETE_issues_id "i1")) <> throw ServerError "TypeError".
Proof.
  pose proof (reachable_issue_routes_find_the_project [] alice) as H.
  cbv zeta in H. destruct H as [H _]. exact (H (DELETE_issues_id "i1")).
Defined.


(** ** Listings *)

(** An item is on some page exactly when it is a match. *)
Lemma paginate_covers {A} (matches : list A) (limitNum : positive) (x : A) :
  (exists pageNum, In x (data (paginate matches pageNum limitNum))) <-> In x matches.
Proof.
  pose proof (Pos2Nat.is_pos limitNum) as Hn.
  set (n := Pos.to_nat limitNum) in *.
  assert (n <> 0) as Hn0 by lia.
  split.
  - intros [pageNum H]. unfold paginate in H. cbn [data] in H.
    apply In_nth_error in H. destruct H as [k Hk].
    rewrite nth_error_firstn in Hk. destruct (k <? Pos.to_nat limitNum)%nat; [|discriminate Hk].
    rewrite nth_error_skipn in Hk. now apply nth_error_In in Hk.
  - intros H. apply In_nth_error in H. destruct H as [i Hi].
    exists (Pos.of_nat (i / n + 1)). unfold paginate. cbn [data]. fold n.
    apply (nth_error_In _ (i mod n)).
    rewrite Nat2Pos.id by lia.
    rewrite nth_error_firstn.
    pose proof (Nat.mod_upper_bound i n Hn0) as Hm.
    destruct (Nat.ltb_spec (i mod n) n) as [_|Hc]; [|lia].
    rewrite nth_error_skipn, <- Hi. f_equal.
    pose proof (Nat.div_mod_eq i n). nia.
Qed.

Lemma issueFilter_iff status priority i :
  issueFilter status priority i = true
  <-> (status = "" \/ Issue.status i = status)
      /\ (priority = "" \/ Issue.priority i = priority).
Proof.
  unfold issueFilter. rewrite andb_true_iff, !orb_true_iff, !String.eqb_eq. tauto.
Qed.

Lemma isAssignee_iff i user :
  isAssignee i user = true <-> Issue.assignee i = Some (User._id user).
Proof.
  unfold isAssignee. destruct (Issue.assignee i) as [a|].
  - rewrite String.eqb_eq. split; congruence.
  - split; discriminate.
Qed.

(** X26.  The listings hold what belongs to the caller, all of it and
    nothing else.  Over all pages, [getMyAssignedIssues] shows exactly the
    stored issues assigned to the caller that meet the status and priority
    of the query (an empty parameter does not filter),
    [getMyReportedIssues] those the caller reported, [getMyComments] the
    comments the caller wrote and [getMyAttachments] the attachments the
    caller uploaded.  [getIssueComments] shows a
    member of the issue's project exactly the comments of the issue and
    answers 403 to anybody else. *)
Theorem listings_hold_the_callers_documents st user (limitNum : positive) :
  (forall status priority i,
      (exists pageNum page,
          getMyAssignedIssues st user status priority pageNum limitNum = sent OK page
          /\ In i (data page))
      <-> In i (issues st) /\ Issue.assignee i = Some (User._id user)
          /\ (status = "" \/ Issue.status i = status)
          /\ (priority = "" \/ Issue.priority i = priority))
  /\ (forall status priority i,
        (exists pageNum page,
            getMyReportedIssues st user status priority pageNum limitNum = sent OK page
            /\ In i (data page))
        <-> In i (issues st) /\ Issue.reporter i = User._id user
            /\ (status = "" \/ Issue.status i = status)
            /\ (priority = "" \/ Issue.priority i = priority))
  /\ (forall c,
        (exists pageNum page,
            getMyComments st user pageNum limitNum = sent OK page /\ In c (data page))
        <-> In c (comments st) /\ Comment.author c = User._id user)
  /\ (forall a,
        (exists pageNum page,
            getMyAttachments st user pageNum limitNum = sent OK page /\ In a (data page))
        <-> In a (attachments st) /\ Attachment.uploadedBy a = User._id user)
  /\ (forall issueId issue project,
        Issue.findById (issues st) issueId = Some issue ->
        Project.findById (projects st) (Issue.projectId issue) = Some project ->
        (~ In (User._id user) (Project.member project) ->
         forall pageNum,
           getIssueComments st user issueId pageNum limitNum
           = failed Forbidden "Access denied - Not a project member")
        /\ (In (User._id user) (Project.member project) ->
            forall c,
              (exists pageNum page,
                  getIssueComments st user issueId pageNum limitNum = sent OK page
                  /\ In c (data page))
              <-> In c (comments st) /\ Comment.issueId c = issueId)).
Proof.
  assert (forall A (m : list A) (P : A -> Prop) (h : positive -> Answer (Page A)),
             (forall pageNum, h pageNum = sent OK (paginate m pageNum limitNum)) ->
             (forall x, In x m <-> P x) ->
             forall x, (exists pageNum page, h pageNum = sent OK page /\ In x (data page))
                       <-> P x) as Hlist.
  { intros A m P h Hh HP x. rewrite <- HP, <- (paginate_covers m limitNum x). split.
    - intros [pageNum [page [E Hin]]]. rewrite Hh in E. injection E as <-. now exists pageNum.
    - intros [pageNum Hin]. exists pageNum, (paginate m pageNum limitNum). now split. }
  split; [|split; [|split; [|split]]].
  - intros status priority.
    apply (Hlist _ (rev (List.filter
                           (fun i => isAssignee i user && issueFilter status priority i)
                           (issues st)))
                 _ (fun pageNum => getMyAssignedIssues st user status priority
                                     pageNum limitNum)); [reflexivity|].
    intros i. rewrite <- in_rev, filter_In, andb_true_iff, isAssignee_iff, issueFilter_iff.
    tauto.
  - intros status priority.
    apply (Hlist _ (rev (List.filter
                           (fun i => (Issue.reporter i =? User._id user)
                                     && issueFilter status priority i)
                           (issues st)))
                 _ (fun pageNum => getMyReportedIssues st user status priority
                                     pageNum limitNum)); [reflexivity|].
    intros i. rewrite <- in_rev, filter_In, andb_true_iff, String.eqb_eq, issueFilter_iff.
    tauto.
  - apply (Hlist _ (rev (Comments.findByAuthor (storedComments st) (User._id user))) _
                 (fun pageNum => getMyComments st user pageNum limitNum));
      [reflexivity|].
    intros c. unfold Comments.findByAuthor, storedComments.
    rewrite <- in_rev, filter_In, String.eqb_eq. tauto.
  - apply (Hlist _ (rev (Attachments.findByUploader (storedAttachments st) (User._id user)))
                 _ (fun pageNum => getMyAttachments st user pageNum limitNum));
      [reflexivity|].
    intros a. unfold Attachments.findByUploader, storedAttachments.
    rewrite <- in_rev, filter_In, String.eqb_eq. tauto.
  - intros issueId issue project Hi Hp. split.
    + intros Hnot pageNum. unfold getIssueComments. rewrite Hi, Hp.
      destruct (isMember project user) eqn:Em; [|reflexivity].
      apply isMember_In in Em. contradiction.
    + intros Hin.
      apply (Hlist _ (Comments.findByIssue (storedComments st) issueId) _
                   (fun pageNum => getIssueComments st user issueId pageNum limitNum)).
      * intros pageNum. unfold getIssueComments. rewrite Hi, Hp.
        apply isMember_In in Hin. now rewrite Hin.
      * intros c. unfold Comments.findByIssue, storedComments.
        rewrite filter_In, String.eqb_eq. tauto.
Qed.

Lemma listings_hold_the_callers_documents_witness :
  exists pageNum page,
    getIssueComments sampleStore carol "i1" pageNum 10%positive = sent OK page
    /\ In (Comment.mk "c1" "Here is the log" "u2" "i1" ["a2"]) (data page).
Proof.
  destruct (listings_hold_the_callers_documents sampleStore carol 10%positive)
    as [_ [_ [_ [_ H]]]].
  destruct (H "i1" demo1 demo eq_refl eq_refl) as [_ Hmember].
  apply Hmember.
  - right. right. left. reflexivity.
  - split; [left; reflexivity | reflexivity].
Defined.
